(** * File-integrity monitor: baseline / diff engine

    A shallow embedding of the two FIM agents of the repository,
    [src/fim/agents/fim-agent.py] (module [Agent]) and
    [src/fim/agents/fim-agent-prometheus.py] (module [Prometheus]),
    and the properties of their baseline store, diff and scan cycle.

    Python dictionaries are association lists in insertion order with
    unique keys; the persisted files, the log, the clock and the outcome
    of write operations live in an explicit [World] that every method
    threads; exceptions are a result constructor, and the world reached
    when an exception is raised is kept (a truncated file stays
    truncated). *)

From Stdlib Require Import String Ascii List ZArith Bool Arith Lia.
Import ListNotations.
Open Scope string_scope.
Open Scope list_scope.

Set Implicit Arguments.

(* ================================================================== *)
(** * Python strings *)

Module PyStr.

(** [s.startswith(p)] *)
Definition startswith (s p : string) : bool := String.prefix p s.

(** [s.endswith(suf)] *)
Definition endswith (s suf : string) : bool :=
  (String.length suf <=? String.length s)%nat &&
  (substring (String.length s - String.length suf) (String.length suf) s =? suf).

(** [s[:-1]] *)
Definition drop_last (s : string) : string :=
  substring 0 (String.length s - 1) s.

(** Truth value of an optional string: [None] and the empty string are
    false. *)
Definition truthy (o : option string) : bool :=
  match o with
  | Some s => negb (s =? EmptyString)
  | None => false
  end.

End PyStr.

(* ================================================================== *)
(** * Python dictionaries keyed by strings *)

Section Dict.
Variable V : Type.

Definition dict := list (string * V).

(** [d.get(k)] *)
Fixpoint dict_get (k : string) (d : dict) : option V :=
  match d with
  | [] => None
  | (k', v) :: r => if k =? k' then Some v else dict_get k r
  end.

(** [k in d] *)
Definition dict_mem (k : string) (d : dict) : bool :=
  match dict_get k d with Some _ => true | None => false end.

(** [d[k] = v]: an existing key keeps its position, a new key goes last. *)
Fixpoint dict_set (k : string) (v : V) (d : dict) : dict :=
  match d with
  | [] => [(k, v)]
  | (k', v') :: r =>
      if k =? k' then (k, v) :: r else (k', v') :: dict_set k v r
  end.

(** [d.update(other)] *)
Definition dict_update (d other : dict) : dict :=
  fold_left (fun acc kv => dict_set (fst kv) (snd kv) acc) other d.

(** [list(d)], the keys in iteration order. *)
Definition dict_keys (d : dict) : list string := map fst d.

(** A dictionary holds each key once. *)
Definition dict_wf (d : dict) : Prop := NoDup (dict_keys d).

End Dict.

Arguments dict_get {V} k d.
Arguments dict_mem {V} k d.
Arguments dict_set {V} k v d.
Arguments dict_update {V} d other.
Arguments dict_keys {V} d.
Arguments dict_wf {V} d.

(* ================================================================== *)
(** * Data model *)

(** One snapshot entry.  [fim-agent.py] stores ['scanned_at'], the
    Prometheus agent stores ['type': 'file']; a key that is absent is
    [None].  The modification time is the float of [os.path.getmtime],
    carried as an uninterpreted number. *)
Record FileInfo := mkFileInfo {
  fi_hash : string;
  fi_size : Z;
  fi_mtime : Z;
  fi_scanned_at : option string;
  fi_type : option string
}.

Definition Snapshot := dict FileInfo.

(** The three kinds of change ('new' / 'modified' / 'deleted' in
    [fim-agent.py], upper case in the Prometheus agent). *)
Inductive ChangeType := NEW | MODIFIED | DELETED.

Definition ChangeType_eqb (a b : ChangeType) : bool :=
  match a, b with
  | NEW, NEW | MODIFIED, MODIFIED | DELETED, DELETED => true
  | _, _ => false
  end.

(** One change record: the dictionary appended to [changes].  [c_file]
    is the key ['file'] ([fim-agent.py]) or ['path'] (Prometheus); the
    three fingerprint keys are present or not according to the record. *)
Record Change := mkChange {
  c_type : ChangeType;
  c_file : string;
  c_hash : option string;
  c_old_hash : option string;
  c_new_hash : option string;
  c_timestamp : string
}.

(** [report_data] / [report]. *)
Record Report := mkReport {
  r_timestamp : string;
  r_changes : list Change;
  r_total_changes : nat
}.

(** What a JSON file holds: a complete document, or a truncated /
    partially written one that [json.load] rejects. *)
Inductive Stored (A : Type) :=
| Complete (a : A)
| Torn.
Arguments Torn {A}.

(** The report file holds a list of reports ([fim-agent.py]) or a single
    report object (Prometheus). *)
Inductive ReportJson :=
| RList (l : list Report)
| RSingle (r : Report).

(** The configuration keys the scan cycle reads. *)
Record Config := mkConfig {
  monitored_paths : list string;
  excluded_paths : list string;
  alert_on_change : bool;
  alert_threshold : Z
}.

(** The monitored file population as one cycle observes it.  Each field
    is the answer of the corresponding call; the answers are independent
    of each other, so a file may exist and yet be unreadable. *)
Record FileSystem := mkFileSystem {
  fs_exists : string -> bool;            (* os.path.exists *)
  fs_isfile : string -> bool;            (* os.path.isfile *)
  fs_walk : string -> list string;       (* os.path.join(root, file) over os.walk *)
  fs_digest : string -> option string;   (* hexdigest, None when reading fails *)
  fs_getsize : string -> option Z;       (* os.path.getsize, None when it raises *)
  fs_getmtime : string -> option Z       (* os.path.getmtime, None when it raises *)
}.

(** The read-only surroundings of a cycle. *)
Record Env := mkEnv {
  config : Config;
  fs : FileSystem;
  clock : nat -> string                  (* successive datetime.now().isoformat() *)
}.

(* ================================================================== *)
(** * Log *)

Inductive Level := INFO | WARNING | ERROR | CRITICAL.

Inductive Message :=
| MsgHashError (path : string)
| MsgScanningDirectory (directory : string)
| MsgErrorScanning (directory : string)
| MsgBaselineSaved
| MsgErrorSavingBaseline
| MsgErrorLoadingBaseline
| MsgDetected (n : nat)
| MsgChange (t : ChangeType) (file : string)
| MsgErrorSavingReport
| MsgStartingScan
| MsgPathMissing (path : string)
| MsgScanCompleted (n : nat)
| MsgAlert (n : nat)
| MsgCreatingBaseline
| MsgBaselineCreated (n : nat)
| MsgLoadedBaseline (n : nat)
| MsgNoBaselineFound
| MsgErrorProcessing (path : string)
| MsgErrorChecking (path : string)
| MsgUpdatingBaseline
| MsgBaselineUpdated.

Definition LogRecord := (Level * Message)%type.

Definition is_alert (r : LogRecord) : bool :=
  match r with
  | (CRITICAL, MsgAlert _) => true
  | _ => false
  end.

Definition is_creating_baseline (r : LogRecord) : bool :=
  match r with
  | (INFO, MsgCreatingBaseline) => true
  | _ => false
  end.

Definition is_save_baseline (r : LogRecord) : bool :=
  match r with
  | (INFO, MsgBaselineSaved) | (ERROR, MsgErrorSavingBaseline) => true
  | _ => false
  end.

Definition count_log (f : LogRecord -> bool) (l : list LogRecord) : nat :=
  List.length (filter f l).

(* ================================================================== *)
(** * The world and the monad of methods *)

(** [faults] lists the outcome of the write steps to come (creating a
    directory, opening a file for writing, dumping JSON into it): [true]
    makes the step raise; an exhausted list means success. *)
Record World := mkWorld {
  baseline_file : option (Stored Snapshot);
  report_file : option (Stored ReportJson);
  log : list LogRecord;
  ticks : nat;
  faults : list bool
}.

Definition set_baseline_file (b : option (Stored Snapshot)) (w : World) : World :=
  mkWorld b (report_file w) (log w) (ticks w) (faults w).
Definition set_report_file (r : option (Stored ReportJson)) (w : World) : World :=
  mkWorld (baseline_file w) r (log w) (ticks w) (faults w).
Definition set_log (l : list LogRecord) (w : World) : World :=
  mkWorld (baseline_file w) (report_file w) l (ticks w) (faults w).
Definition set_ticks (n : nat) (w : World) : World :=
  mkWorld (baseline_file w) (report_file w) (log w) n (faults w).
Definition set_faults (f : list bool) (w : World) : World :=
  mkWorld (baseline_file w) (report_file w) (log w) (ticks w) f.

Inductive Exn := OSError | JSONDecodeError | AttributeError | KeyError.

Inductive Result (A : Type) :=
| Ok (a : A)
| Raise (e : Exn).
Arguments Raise {A} e.

Definition M (A : Type) := World -> Result A * World.

Definition ret {A} (a : A) : M A := fun w => (Ok a, w).

Definition bind {A B} (m : M A) (k : A -> M B) : M B :=
  fun w =>
    match m w with
    | (Ok a, w') => k a w'
    | (Raise e, w') => (Raise e, w')
    end.

Definition raise {A} (e : Exn) : M A := fun w => (Raise e, w).

(** [try: m  except Exception as e: h e] *)
Definition try_except {A} (m : M A) (h : Exn -> M A) : M A :=
  fun w =>
    match m w with
    | (Ok a, w') => (Ok a, w')
    | (Raise e, w') => h e w'
    end.

Declare Scope py_scope.
Delimit Scope py_scope with py.
Notation "x <- m ;; k" := (bind m (fun x => k))
  (at level 100, m at next level, right associativity) : py_scope.
Notation "m ;; k" := (bind m (fun _ => k))
  (at level 100, right associativity) : py_scope.
Open Scope py_scope.

(** [self.logger.<level>(msg)] *)
Definition logger (lvl : Level) (msg : Message) : M unit :=
  fun w => (Ok tt, set_log (log w ++ [(lvl, msg)]) w).

(** [datetime.now().isoformat()] *)
Definition now (env : Env) : M string :=
  fun w => (Ok (clock env (ticks w)), set_ticks (S (ticks w)) w).

(** Outcome of the next write step. *)
Definition next_fault : M bool :=
  fun w =>
    match faults w with
    | [] => (Ok false, w)
    | f :: r => (Ok f, set_faults r w)
    end.

(** [os.makedirs(os.path.dirname(file), exist_ok=True)] *)
Definition makedirs : M unit :=
  f <- next_fault ;;
  if f : bool then raise OSError else ret tt.

(** [open(baseline_file, 'w')]: truncates the file unless opening raises. *)
Definition open_w_baseline : M unit :=
  f <- next_fault ;;
  if f : bool then raise OSError
  else fun w => (Ok tt, set_baseline_file (Some Torn) w).

(** [json.dump(data, f)] into the baseline file just opened. *)
Definition json_dump_baseline (data : Snapshot) : M unit :=
  f <- next_fault ;;
  if f : bool then raise OSError
  else fun w => (Ok tt, set_baseline_file (Some (Complete data)) w).

(** [open(report_file, 'w')] *)
Definition open_w_report : M unit :=
  f <- next_fault ;;
  if f : bool then raise OSError
  else fun w => (Ok tt, set_report_file (Some Torn) w).

(** [json.dump(data, f)] into the report file just opened. *)
Definition json_dump_report (data : ReportJson) : M unit :=
  f <- next_fault ;;
  if f : bool then raise OSError
  else fun w => (Ok tt, set_report_file (Some (Complete data)) w).

(** [for x in l: acc = body x acc], an exception leaving the loop. *)
Fixpoint for_each {A B} (body : A -> B -> M B) (l : list A) (acc : B) : M B :=
  match l with
  | [] => ret acc
  | x :: r => acc' <- body x acc ;; for_each body r acc'
  end.

(** [calculate_file_hash]: the digest, or [None] with an error logged. *)
Definition calculate_file_hash (env : Env) (file_path : string) : M (option string) :=
  match fs_digest (fs env) file_path with
  | Some h => ret (Some h)
  | None => logger ERROR (MsgHashError file_path) ;; ret None
  end.

(** The exclusion test of one configured entry, shared by
    [should_monitor_path] and [is_excluded_path]. *)
Definition excluded_by (excluded path : string) : bool :=
  if PyStr.endswith excluded "*" then
    PyStr.startswith path (PyStr.drop_last excluded)
  else
    (path =? excluded) || PyStr.startswith path (excluded ++ "/").

(* ================================================================== *)
(** * [fim-agent.py] *)

Module Agent.

(** [should_monitor_path]: exclusions first, then inclusions. *)
Definition should_monitor_path (cfg : Config) (path_str : string) : bool :=
  if existsb (fun excluded => excluded_by excluded path_str) (excluded_paths cfg)
  then false
  else existsb (fun included => PyStr.startswith path_str included)
               (monitored_paths cfg).

(** The loop of [scan_directory] over the files that [os.walk] yields.
    It returns [file_hashes] as it stands when the loop ends, together
    with the exception that ended it, if any: the dictionary is filled
    in place, so what was stored before the exception stays. *)
Fixpoint scan_directory_loop (env : Env) (files : list string)
    (file_hashes : Snapshot) : M (Snapshot * option Exn) :=
  match files with
  | [] => ret (file_hashes, None)
  | file_path :: rest =>
      if should_monitor_path (config env) file_path then
        file_hash <- calculate_file_hash env file_path ;;
        if PyStr.truthy file_hash then
          match file_hash, fs_getsize (fs env) file_path,
                fs_getmtime (fs env) file_path with
          | Some h, Some size, Some mtime =>
              scanned_at <- now env ;;
              scan_directory_loop env rest
                (dict_set file_path
                   (mkFileInfo h size mtime (Some scanned_at) None)
                   file_hashes)
          | _, _, _ => ret (file_hashes, Some OSError)
          end
        else scan_directory_loop env rest file_hashes
      else scan_directory_loop env rest file_hashes
  end.

(** [scan_directory] *)
Definition scan_directory (env : Env) (directory : string) : M Snapshot :=
  logger INFO (MsgScanningDirectory directory) ;;
  r <- scan_directory_loop env (fs_walk (fs env) directory) [] ;;
  match snd r with
  | Some _ => logger ERROR (MsgErrorScanning directory) ;; ret (fst r)
  | None => ret (fst r)
  end.

(** [save_baseline]: the directory is created before the [try], so an
    exception of [os.makedirs] leaves the method. *)
Definition save_baseline (baseline_data : Snapshot) : M unit :=
  makedirs ;;
  try_except
    (open_w_baseline ;;
     json_dump_baseline baseline_data ;;
     logger INFO MsgBaselineSaved)
    (fun _ => logger ERROR MsgErrorSavingBaseline).

(** [json.load] of the baseline file when it exists. *)
Definition read_baseline_file : M Snapshot :=
  fun w =>
    match baseline_file w with
    | Some (Complete s) => (Ok s, w)
    | Some Torn => (Raise JSONDecodeError, w)
    | None => (Ok [], w)
    end.

(** [load_baseline] *)
Definition load_baseline : M Snapshot :=
  try_except read_baseline_file
    (fun _ => logger ERROR MsgErrorLoadingBaseline ;; ret []).

(** Body of the first loop of [compare_with_baseline]. *)
Definition compare_current (env : Env) (baseline : Snapshot)
    (item : string * FileInfo) (changes : list Change) : M (list Change) :=
  let (file_path, current_info) := item in
  match dict_get file_path baseline with
  | Some baseline_info =>
      if negb (fi_hash current_info =? fi_hash baseline_info) then
        timestamp <- now env ;;
        ret (changes ++ [mkChange MODIFIED file_path None
                           (Some (fi_hash baseline_info))
                           (Some (fi_hash current_info)) timestamp])
      else ret changes
  | None =>
      timestamp <- now env ;;
      ret (changes ++ [mkChange NEW file_path
                         (Some (fi_hash current_info)) None None timestamp])
  end.

(** Body of the second loop of [compare_with_baseline]; the loop runs
    over the keys of [baseline] and reads [baseline[file_path]]. *)
Definition compare_deleted (env : Env) (baseline current_hashes : Snapshot)
    (file_path : string) (changes : list Change) : M (list Change) :=
  if negb (dict_mem file_path current_hashes) then
    match dict_get file_path baseline with
    | Some baseline_info =>
        timestamp <- now env ;;
        ret (changes ++ [mkChange DELETED file_path None
                           (Some (fi_hash baseline_info)) None timestamp])
    | None => raise KeyError
    end
  else ret changes.

(** [compare_with_baseline] *)
Definition compare_with_baseline (env : Env) (current_hashes : Snapshot)
    : M (list Change) :=
  baseline <- load_baseline ;;
  changes <- for_each (compare_current env baseline) current_hashes [] ;;
  for_each (compare_deleted env baseline current_hashes)
           (dict_keys baseline) changes.

(** [reports.append(report_data)]: only a list has [append]. *)
Definition append_report (reports : ReportJson) (report_data : Report)
    : M ReportJson :=
  match reports with
  | RList l => ret (RList (l ++ [report_data]))
  | RSingle _ => raise AttributeError
  end.

(** [json.load] of the report file when it exists, [[]] otherwise. *)
Definition read_report_file : M ReportJson :=
  fun w =>
    match report_file w with
    | Some (Complete j) => (Ok j, w)
    | Some Torn => (Raise JSONDecodeError, w)
    | None => (Ok (RList []), w)
    end.

(** The [try] block of [report_changes], which appends the report. *)
Definition append_to_reports (env : Env) (changes : list Change) : M unit :=
  try_except
    (timestamp <- now env ;;
     let report_data := mkReport timestamp changes (List.length changes) in
     reports <- read_report_file ;;
     reports' <- append_report reports report_data ;;
     open_w_report ;;
     json_dump_report reports')
    (fun _ => logger ERROR MsgErrorSavingReport).

(** [report_changes] *)
Definition report_changes (env : Env) (changes : list Change) : M unit :=
  match changes with
  | [] => ret tt
  | _ :: _ =>
      logger WARNING (MsgDetected (List.length changes)) ;;
      for_each (fun change (_ : unit) =>
                  logger WARNING (MsgChange (c_type change) (c_file change)))
               changes tt ;;
      append_to_reports env changes
  end.

(** [send_alert] *)
Definition send_alert (changes : list Change) : M unit :=
  logger CRITICAL (MsgAlert (List.length changes)).

(** Body of the loop of [perform_scan] over the monitored paths. *)
Definition scan_monitored (env : Env) (path : string) (all_hashes : Snapshot)
    : M Snapshot :=
  if fs_exists (fs env) path then
    path_hashes <- scan_directory env path ;;
    ret (dict_update all_hashes path_hashes)
  else
    logger WARNING (MsgPathMissing path) ;; ret all_hashes.

(** The snapshot [all_hashes] that [perform_scan] builds. *)
Definition build_all_hashes (env : Env) : M Snapshot :=
  for_each (scan_monitored env) (monitored_paths (config env)) [].

(** [perform_scan] *)
Definition perform_scan (env : Env) : M unit :=
  logger INFO MsgStartingScan ;;
  all_hashes <- build_all_hashes env ;;
  changes <- compare_with_baseline env all_hashes ;;
  match changes with
  | [] => ret tt
  | _ :: _ =>
      report_changes env changes ;;
      if alert_on_change (config env) then send_alert changes else ret tt
  end ;;
  save_baseline all_hashes ;;
  logger INFO (MsgScanCompleted (List.length all_hashes)).

End Agent.

(* ================================================================== *)
(** * [fim-agent-prometheus.py]

    The Prometheus counters and gauges, and the lists [new_files],
    [modified_files] and [deleted_files] that only feed them, are left
    out. *)

Module Prometheus.

(** [is_excluded_path] *)
Definition is_excluded_path (cfg : Config) (path : string) : bool :=
  existsb (fun excluded => excluded_by excluded path) (excluded_paths cfg).

(** The entry stored for a file by [create_baseline]; [getsize] or
    [getmtime] may raise. *)
Definition baseline_entry (env : Env) (path file_hash : string)
    : M FileInfo :=
  match fs_getsize (fs env) path, fs_getmtime (fs env) path with
  | Some size, Some mtime =>
      ret (mkFileInfo file_hash size mtime None (Some "file"))
  | _, _ => raise OSError
  end.

(** [file_hash = ...; if file_hash: baseline[path] = {...}] *)
Definition record_file (env : Env) (path : string) (baseline : Snapshot)
    : M Snapshot :=
  file_hash <- calculate_file_hash env path ;;
  match file_hash with
  | Some h =>
      if PyStr.truthy file_hash then
        info <- baseline_entry env path h ;;
        ret (dict_set path info baseline)
      else ret baseline
  | None => ret baseline
  end.

(** Body of the loop of [create_baseline] over the files of a
    directory: an exception is logged and the file skipped. *)
Definition baseline_walk (env : Env) (file_path : string) (baseline : Snapshot)
    : M Snapshot :=
  if negb (is_excluded_path (config env) file_path) then
    try_except (record_file env file_path baseline)
      (fun _ => logger ERROR (MsgErrorProcessing file_path) ;; ret baseline)
  else ret baseline.

(** Body of the loop of [create_baseline] over the monitored paths. *)
Definition baseline_monitored (env : Env) (path : string) (baseline : Snapshot)
    : M Snapshot :=
  if negb (fs_exists (fs env) path) then
    logger WARNING (MsgPathMissing path) ;; ret baseline
  else if fs_isfile (fs env) path then
    if negb (is_excluded_path (config env) path) then
      record_file env path baseline
    else ret baseline
  else
    for_each (baseline_walk env) (fs_walk (fs env) path) baseline.

(** [create_baseline]: neither the creation of the directory nor the
    write is guarded. *)
Definition create_baseline (env : Env) : M Snapshot :=
  logger INFO MsgCreatingBaseline ;;
  baseline <- for_each (baseline_monitored env)
                       (monitored_paths (config env)) [] ;;
  makedirs ;;
  open_w_baseline ;;
  json_dump_baseline baseline ;;
  logger INFO (MsgBaselineCreated (List.length baseline)) ;;
  ret baseline.

(** [load_baseline] *)
Definition load_baseline (env : Env) : M Snapshot :=
  fun w =>
    match baseline_file w with
    | Some content =>
        try_except
          (match content with
           | Complete baseline =>
               logger INFO (MsgLoadedBaseline (List.length baseline)) ;;
               ret baseline
           | Torn => raise JSONDecodeError
           end)
          (fun _ => logger ERROR MsgErrorLoadingBaseline ;; ret [])
          w
    | None =>
        (logger INFO MsgNoBaselineFound ;; create_baseline env) w
    end.

(** [check_file] *)
Definition check_file (env : Env) (baseline : Snapshot) (file_path : string)
    (changes : list Change) : M (list Change) :=
  try_except
    (match dict_get file_path baseline with
     | Some baseline_info =>
         current_hash <- calculate_file_hash env file_path ;;
         match current_hash with
         | Some h =>
             if PyStr.truthy current_hash
                && negb (h =? fi_hash baseline_info) then
               timestamp <- now env ;;
               ret (changes ++ [mkChange MODIFIED file_path None
                                  (Some (fi_hash baseline_info)) (Some h)
                                  timestamp])
             else ret changes
         | None => ret changes
         end
     | None =>
         file_hash <- calculate_file_hash env file_path ;;
         match file_hash with
         | Some h =>
             if PyStr.truthy file_hash then
               timestamp <- now env ;;
               ret (changes ++ [mkChange NEW file_path (Some h) None None
                                  timestamp])
             else ret changes
         | None => ret changes
         end
     end)
    (fun _ => logger ERROR (MsgErrorChecking file_path) ;; ret changes).

(** Body of the inner loop of [scan_files] over the files of a
    directory. *)
Definition scan_walk (env : Env) (baseline : Snapshot) (file_path : string)
    (changes : list Change) : M (list Change) :=
  if negb (is_excluded_path (config env) file_path) then
    check_file env baseline file_path changes
  else ret changes.

(** Body of the loop of [scan_files] over the monitored paths. *)
Definition scan_monitored (env : Env) (baseline : Snapshot) (path : string)
    (changes : list Change) : M (list Change) :=
  if negb (fs_exists (fs env) path) then ret changes
  else if fs_isfile (fs env) path then
    if negb (is_excluded_path (config env) path) then
      check_file env baseline path changes
    else ret changes
  else
    for_each (scan_walk env baseline) (fs_walk (fs env) path) changes.

(** Body of the loop of [scan_files] over the baseline: a baseline
    path that no longer exists is reported, with no fingerprint. *)
Definition scan_deleted (env : Env) (file_path : string)
    (changes : list Change) : M (list Change) :=
  if negb (fs_exists (fs env) file_path) then
    timestamp <- now env ;;
    ret (changes ++ [mkChange DELETED file_path None None None timestamp])
  else ret changes.

(** The two loops of [scan_files], run on the baseline that was loaded;
    the result pairs the baseline with the list [changes]. *)
Definition detect_loops (env : Env) (baseline : Snapshot)
    : M (Snapshot * list Change) :=
  changes <- for_each (scan_monitored env baseline)
                      (monitored_paths (config env)) [] ;;
  changes <- for_each (scan_deleted env) (dict_keys baseline) changes ;;
  ret (baseline, changes).

(** The first part of [scan_files]: the baseline that was loaded and
    the list [changes] as it stands after the two loops. *)
Definition scan_files_detect (env : Env) : M (Snapshot * list Change) :=
  baseline <- load_baseline env ;;
  detect_loops env baseline.

(** [save_report] *)
Definition save_report (env : Env) (changes : list Change) : M unit :=
  timestamp <- now env ;;
  let report := mkReport timestamp changes (List.length changes) in
  try_except
    (open_w_report ;;
     json_dump_report (RSingle report))
    (fun _ => logger ERROR MsgErrorSavingReport).

(** [update_baseline] *)
Definition update_baseline (env : Env) : M unit :=
  logger INFO MsgUpdatingBaseline ;;
  _ <- create_baseline env ;;
  logger INFO MsgBaselineUpdated.

(** The second part of [scan_files], from [if changes:] on. *)
Definition scan_files_react (env : Env) (baseline : Snapshot)
    (changes : list Change) : M unit :=
  match changes with
  | [] => ret tt
  | _ :: _ =>
      logger WARNING (MsgDetected (List.length changes)) ;;
      for_each (fun change (_ : unit) =>
                  logger WARNING (MsgChange (c_type change) (c_file change)))
               changes tt ;;
      (if (Z.of_nat (List.length changes) >=? alert_threshold (config env))%Z
       then logger CRITICAL (MsgAlert (List.length changes))
       else ret tt) ;;
      save_report env changes ;;
      update_baseline env
  end ;;
  logger INFO (MsgScanCompleted (List.length baseline)).

(** [scan_files] *)
Definition scan_files (env : Env) : M unit :=
  r <- scan_files_detect env ;;
  scan_files_react env (fst r) (snd r).

End Prometheus.

(* ================================================================== *)
(** * Change lists and the diff, record by record *)

(** The records of a change list that are about one path. *)
Definition records_for (p : string) (changes : list Change) : list Change :=
  filter (fun r => c_file r =? p) changes.

(** A record with its timestamp blanked. *)
Definition erase (r : Change) : Change :=
  mkChange (c_type r) (c_file r) (c_hash r) (c_old_hash r) (c_new_hash r) EmptyString.

Definition is_new_record (p h : string) (r : Change) : Prop :=
  c_type r = NEW /\ c_file r = p /\ c_hash r = Some h.

Definition is_modified_record (p old new : string) (r : Change) : Prop :=
  c_type r = MODIFIED /\ c_file r = p /\
  c_old_hash r = Some old /\ c_new_hash r = Some new.

Definition is_deleted_record (p old : string) (r : Change) : Prop :=
  c_type r = DELETED /\ c_file r = p /\ c_old_hash r = Some old.

(** What the first loop of [compare_with_baseline] emits for one item of
    the current snapshot, timestamps blanked. *)
Definition diff_current (baseline : Snapshot) (item : string * FileInfo)
    : list Change :=
  match dict_get (fst item) baseline with
  | Some b =>
      if negb (fi_hash (snd item) =? fi_hash b)
      then [mkChange MODIFIED (fst item) None (Some (fi_hash b))
              (Some (fi_hash (snd item))) EmptyString]
      else []
  | None => [mkChange NEW (fst item) (Some (fi_hash (snd item))) None None EmptyString]
  end.

(** What the second loop emits for one key of the baseline. *)
Definition diff_deleted (baseline current : Snapshot) (p : string)
    : list Change :=
  if negb (dict_mem p current) then
    match dict_get p baseline with
    | Some b => [mkChange DELETED p None (Some (fi_hash b)) None EmptyString]
    | None => []
    end
  else [].

(** The whole diff, timestamps blanked. *)
Definition diff_erased (baseline current : Snapshot) : list Change :=
  flat_map (diff_current baseline) current ++
  flat_map (diff_deleted baseline current) (dict_keys baseline).

(** Membership in a list of at most one explicit record. *)
Ltac in_singleton H :=
  repeat (destruct H as [<-|H]; [reflexivity|]); contradiction.

(* ================================================================== *)
(** * Observations on worlds and methods *)

(** Number of high-severity alerts logged so far. *)
Definition alerts (w : World) : nat := count_log is_alert (log w).

(** Number of times [create_baseline] was entered so far. *)
Definition creations (w : World) : nat := count_log is_creating_baseline (log w).

(** Number of times [save_baseline] got past the creation of the
    directory so far, whether the write then succeeded or not. *)
Definition saves (w : World) : nat := count_log is_save_baseline (log w).

(** [w] differs from [w0] at most by clock readings and by log records
    that are neither alerts nor traces of a baseline write: both files
    are as they were and no write step was attempted. *)
Definition untouched (w0 w : World) : Prop :=
  baseline_file w = baseline_file w0 /\
  report_file w = report_file w0 /\
  faults w = faults w0 /\
  alerts w = alerts w0 /\
  creations w = creations w0 /\
  saves w = saves w0.

(** The report records that a reader finds in the report file. *)
Definition reports_of (file : option (Stored ReportJson)) : list Report :=
  match file with
  | Some (Complete (RList l)) => l
  | Some (Complete (RSingle r)) => [r]
  | Some Torn | None => []
  end.

(** The method keeps the property [I] of the world, however it ends. *)
Definition preserves {A} (I : World -> Prop) (m : M A) : Prop :=
  forall w, I w -> I (snd (m w)).

(** The method never raises. *)
Definition total {A} (m : M A) : Prop :=
  forall w, exists a w', m w = (Ok a, w').

(** The next [n] write steps succeed. *)
Definition writes_succeed (n : nat) (w : World) : bool :=
  forallb negb (firstn n (faults w)).

(* ================================================================== *)
(** * Exclusion rules, as the specification words them *)

Open Scope string_scope.

(** A rule written [pre*] matches the paths that start with [pre]; any
    other rule matches its own path and the paths below it. *)
Definition rule_matches (rule path : string) : Prop :=
  (exists pre, rule = pre ++ "*" /\ exists rest, path = pre ++ rest) \/
  ((forall pre, rule <> pre ++ "*") /\
   (path = rule \/ exists rest, path = (rule ++ "/") ++ rest)).

(** Some configured exclusion rule matches the path. *)
Definition excluded_by_rule (cfg : Config) (path : string) : Prop :=
  exists rule, In rule (excluded_paths cfg) /\ rule_matches rule path.

Open Scope list_scope.

(* ================================================================== *)
(** * Sample configurations, file populations and worlds *)

Module Sample.

Definition info (h : string) : FileInfo := mkFileInfo h 5 1700000000 None None.

(** Clock readings "t0", "t1", ... for the first ten calls. *)
Definition clock (n : nat) : string :=
  String "t" (String (ascii_of_nat (48 + n)) EmptyString).

Definition cfg : Config :=
  mkConfig ["/data"] ["/data/tmp*"; "/data/cache"] true 10.

(** [/data] holds [a.txt], [b.txt] and [d.txt]; every file is readable. *)
Definition files : FileSystem :=
  mkFileSystem
    (fun p => (p =? "/data") || (p =? "/data/a.txt") || (p =? "/data/b.txt")
              || (p =? "/data/d.txt"))
    (fun p => negb (p =? "/data"))
    (fun d => if d =? "/data"
              then ["/data/a.txt"; "/data/b.txt"; "/data/d.txt"] else [])
    (fun p => if p =? "/data/a.txt" then Some "h1x"
              else if p =? "/data/b.txt" then Some "h2"
              else if p =? "/data/d.txt" then Some "h4" else None)
    (fun _ => Some 5%Z)
    (fun _ => Some 1700000000%Z).

Definition env : Env := mkEnv cfg files clock.

Definition baseline : Snapshot :=
  [("/data/a.txt", info "h1"); ("/data/b.txt", info "h2");
   ("/data/c.txt", info "h3")].

Definition current : Snapshot :=
  [("/data/a.txt", info "h1x"); ("/data/b.txt", info "h2");
   ("/data/d.txt", info "h4")].

Definition empty_world : World := mkWorld None None [] 0 [].

Definition world : World :=
  mkWorld (Some (Complete baseline)) None [] 0 [].

(** The same population with [a.txt] present but unreadable. *)
Definition unreadable_files : FileSystem :=
  mkFileSystem (fs_exists files) (fs_isfile files) (fs_walk files)
    (fun p => if p =? "/data/a.txt" then None else fs_digest files p)
    (fs_getsize files) (fs_getmtime files).

Definition unreadable_env : Env := mkEnv cfg unreadable_files clock.


Definition earlier_report : Report :=
  mkReport "t" [mkChange NEW "/data/a.txt" (Some "h1") None None "t"] 1.

(** A world whose report file holds the report of an earlier cycle. *)
Definition reported_world : World :=
  mkWorld (Some (Complete baseline)) (Some (Complete (RSingle earlier_report)))
          [] 0 [].

(** A world whose baseline is the population of [files], as the
    Prometheus agent stores it. *)
Definition settled : Snapshot :=
  [("/data/a.txt", mkFileInfo "h1x" 5 1700000000 None (Some "file"));
   ("/data/b.txt", mkFileInfo "h2" 5 1700000000 None (Some "file"));
   ("/data/d.txt", mkFileInfo "h4" 5 1700000000 None (Some "file"))].

Definition settled_world : World :=
  mkWorld (Some (Complete settled)) None [] 0 [].

(** The sample configuration with the alert threshold set to zero. *)
Definition zero_threshold_env : Env :=
  mkEnv (mkConfig ["/data"] ["/data/tmp*"; "/data/cache"] true 0) files clock.

(** [/data] holding [n] readable files [fA], [fB], ... *)
Definition crowd_name (i : nat) : string :=
  "/data/f" ++ String (ascii_of_nat (65 + i)) EmptyString.

Definition crowd_files (n : nat) : FileSystem :=
  mkFileSystem
    (fun _ => true)
    (fun p => negb (p =? "/data"))
    (fun d => if d =? "/data" then map crowd_name (seq 0 n) else [])
    (fun _ => Some "h")
    (fun _ => Some 5%Z)
    (fun _ => Some 1700000000%Z).

Definition crowd_clock (n : nat) : string :=
  String "t" (String (ascii_of_nat (65 + n)) EmptyString).

(** Threshold 10 over [n] files. *)
Definition crowd_env (n : nat) : Env :=
  mkEnv cfg (crowd_files n) crowd_clock.

(** A world whose persisted baseline is empty. *)
Definition blank_world : World :=
  mkWorld (Some (Complete [])) None [] 0 [].

End Sample.

(* ================================================================== *)
(** * [load_config] *)

(** The JSON values a configuration holds: strings, integers, booleans
    and lists of strings.  A configuration file that parses is taken to
    hold a JSON object. *)
Inductive JValue :=
| JString (s : string)
| JInt (n : Z)
| JBool (b : bool)
| JStrings (l : list string).

Definition Settings := dict JValue.

(** [for key, value in default_config.items():
       if key not in config: config[key] = value] *)
Definition merge_defaults (default_config config : Settings) : Settings :=
  fold_left
    (fun config kv =>
       if dict_mem (fst kv) config then config
       else dict_set (fst kv) (snd kv) config)
    default_config config.

Module AgentConfig.

(** [default_config] of [fim-agent.py]. *)
Definition default_config : Settings :=
  [("monitored_paths",
    JStrings ["/etc"; "/usr/bin"; "/usr/sbin"; "/var/log"; "/home"; "/opt"]);
   ("excluded_paths",
    JStrings ["/tmp"; "/var/tmp"; "/var/cache"; "/var/log/*.log"; "/proc";
              "/sys"; "/dev"]);
   ("scan_interval", JInt 300);
   ("report_interval", JInt 3600);
   ("alert_on_change", JBool true);
   ("log_file", JString "/var/log/fim-agent.log");
   ("report_file", JString "/var/log/fim-reports.json");
   ("hash_algorithm", JString "sha256")].

(** [load_config]: the configuration, and the exception that was
    printed, if any.  The file is only read. *)
Definition load_config (config_file : option (Stored Settings))
    : Settings * option Exn :=
  match config_file with
  | Some (Complete config) => (merge_defaults default_config config, None)
  | Some Torn => (default_config, Some JSONDecodeError)
  | None => (default_config, None)
  end.

End AgentConfig.

Module PrometheusConfig.

(** [default_config] of [fim-agent-prometheus.py]. *)
Definition default_config : Settings :=
  [("monitored_paths",
    JStrings ["/etc"; "/usr/bin"; "/usr/sbin"; "/var/log"; "/home"; "/opt"]);
   ("excluded_paths",
    JStrings ["/tmp"; "/var/tmp"; "/var/cache"; "/var/log/*.log"; "/proc";
              "/sys"; "/dev"]);
   ("log_file", JString "/var/log/fim-agent.log");
   ("baseline_file", JString "/var/lib/fim/baseline.json");
   ("report_file", JString "/var/log/fim-reports.json");
   ("scan_interval", JInt 300);
   ("alert_threshold", JInt 10)].

(** The configuration file and the outcome of the write steps to come,
    as [faults] in a [World]. *)
Record ConfigStore := mkConfigStore {
  config_file : option (Stored Settings);
  config_faults : list bool
}.

(** Outcome of the next write step on the configuration file. *)
Definition next_config_fault (st : ConfigStore) : bool * ConfigStore :=
  match config_faults st with
  | [] => (false, st)
  | f :: rest => (f, mkConfigStore (config_file st) rest)
  end.

(** One write step: it raises or it leaves the file as [after] says. *)
Definition config_step
    (after : option (Stored Settings) -> option (Stored Settings))
    (st : ConfigStore) : Result unit * ConfigStore :=
  let (f, st') := next_config_fault st in
  if f : bool then (Raise OSError, st')
  else (Ok tt, mkConfigStore (after (config_file st')) (config_faults st')).

(** The [else] branch of [load_config]:
    [os.makedirs(...); with open(config_file, 'w') as f: json.dump(...)] *)
Definition write_defaults (st : ConfigStore) : Result unit * ConfigStore :=
  match config_step (fun file => file) st with
  | (Raise e, st1) => (Raise e, st1)
  | (Ok _, st1) =>
      match config_step (fun _ => Some Torn) st1 with
      | (Raise e, st2) => (Raise e, st2)
      | (Ok _, st2) =>
          config_step (fun _ => Some (Complete default_config)) st2
      end
  end.

(** [load_config]: as in [fim-agent.py] when the file exists; when it
    does not, the defaults are written to it first.  Any exception is
    printed and the defaults are returned. *)
Definition load_config (st : ConfigStore)
    : (Settings * option Exn) * ConfigStore :=
  match config_file st with
  | Some (Complete config) => ((merge_defaults default_config config, None), st)
  | Some Torn => ((default_config, Some JSONDecodeError), st)
  | None =>
      match write_defaults st with
      | (Ok _, st') => ((default_config, None), st')
      | (Raise e, st') => ((default_config, Some e), st')
      end
  end.

End PrometheusConfig.

(* ================================================================== *)
(** * What a scan visits and stores *)

(** [fim-agent.py]: the file is in scope and its digest was computed. *)
Definition storable (env : Env) (f : string) : bool :=
  Agent.should_monitor_path (config env) f
  && PyStr.truthy (fs_digest (fs env) f).

(** [fim-agent.py]: the file would be stored but its size or its
    modification time cannot be read. *)
Definition stat_fails (env : Env) (f : string) : bool :=
  storable env f &&
  match fs_getsize (fs env) f, fs_getmtime (fs env) f with
  | Some _, Some _ => false
  | _, _ => true
  end.

(** The files of a directory listing that come before the first one
    whose size or modification time cannot be read. *)
Fixpoint scanned_prefix (env : Env) (files : list string) : list string :=
  match files with
  | [] => []
  | f :: rest =>
      if stat_fails env f then [] else f :: scanned_prefix env rest
  end.

(** [fim-agent.py]: the monitored root exists and its listing yields
    the file, in scope and digested, before any failure. *)
Definition root_yields (env : Env) (root k : string) : Prop :=
  fs_exists (fs env) root = true /\
  In k (scanned_prefix env (fs_walk (fs env) root)) /\
  storable env k = true.

(** The [if changes:] block of [perform_scan]. *)
Definition cycle_reaction (env : Env) (changes : list Change) : M unit :=
  match changes with
  | [] => ret tt
  | _ :: _ =>
      Agent.report_changes env changes ;;
      if alert_on_change (config env) then Agent.send_alert changes else ret tt
  end.

(** What [scan_directory] guarantees of an entry it stores. *)
Definition agent_entry_ok (env : Env) (item : string * FileInfo) : Prop :=
  Agent.should_monitor_path (config env) (fst item) = true /\
  fs_digest (fs env) (fst item) = Some (fi_hash (snd item)) /\
  fi_hash (snd item) <> EmptyString /\
  fs_getsize (fs env) (fst item) = Some (fi_size (snd item)) /\
  fs_getmtime (fs env) (fst item) = Some (fi_mtime (snd item)) /\
  fi_scanned_at (snd item) <> None /\
  fi_type (snd item) = None.

(** Prometheus agent: the files that one monitored path makes the scan
    and [create_baseline] look at. *)
Definition visit_one (env : Env) (path : string) : list string :=
  if negb (fs_exists (fs env) path) then []
  else if fs_isfile (fs env) path then
    if negb (Prometheus.is_excluded_path (config env) path) then [path] else []
  else
    filter (fun f => negb (Prometheus.is_excluded_path (config env) f))
           (fs_walk (fs env) path).

(** Prometheus agent: all the files looked at, in order. *)
Definition visited (env : Env) : list string :=
  flat_map (visit_one env) (monitored_paths (config env)).

(** What [create_baseline] guarantees of an entry it stores. *)
Definition prometheus_entry_ok (env : Env) (item : string * FileInfo) : Prop :=
  Prometheus.is_excluded_path (config env) (fst item) = false /\
  fs_digest (fs env) (fst item) = Some (fi_hash (snd item)) /\
  fi_hash (snd item) <> EmptyString /\
  fs_getsize (fs env) (fst item) = Some (fi_size (snd item)) /\
  fs_getmtime (fs env) (fst item) = Some (fi_mtime (snd item)) /\
  fi_scanned_at (snd item) = None /\
  fi_type (snd item) = Some "file".

(** The baseline [b] is what [create_baseline] should hold once it has
    looked at the files [vis]. *)
Definition baseline_holds (env : Env) (vis : list string) (b : Snapshot) : Prop :=
  dict_wf b /\
  Forall (prometheus_entry_ok env) b /\
  (forall k, In k (dict_keys b) -> In k vis) /\
  (forall k, In k vis ->
             PyStr.truthy (fs_digest (fs env) k) = true ->
             fs_getsize (fs env) k <> None ->
             fs_getmtime (fs env) k <> None ->
             In k (dict_keys b)).

(** What [check_file] emits for one file, timestamps blanked. *)
Definition check_erased (env : Env) (baseline : Snapshot) (x : string)
    : list Change :=
  match dict_get x baseline, fs_digest (fs env) x with
  | Some b, Some h =>
      if PyStr.truthy (Some h) && negb (h =? fi_hash b)
      then [mkChange MODIFIED x None (Some (fi_hash b)) (Some h) EmptyString]
      else []
  | None, Some h =>
      if PyStr.truthy (Some h)
      then [mkChange NEW x (Some h) None None EmptyString]
      else []
  | _, None => []
  end.

(** What the deleted loop of [scan_files] emits for one baseline key. *)
Definition deleted_erased (env : Env) (k : string) : list Change :=
  if negb (fs_exists (fs env) k)
  then [mkChange DELETED k None None None EmptyString]
  else [].

(** The changes of a scan of the Prometheus agent, timestamps blanked. *)
Definition scan_erased (env : Env) (baseline : Snapshot) : list Change :=
  flat_map (check_erased env baseline) (visited env) ++
  flat_map (deleted_erased env) (dict_keys baseline).

(** Prometheus agent: the scan looks at the file. *)
Definition is_visited (env : Env) (p : string) : bool :=
  existsb (String.eqb p) (visited env).

(** A DELETED record as the Prometheus agent writes it, with no
    fingerprint. *)
Definition is_bare_deleted_record (p : string) (r : Change) : Prop :=
  c_type r = DELETED /\ c_file r = p /\
  c_hash r = None /\ c_old_hash r = None /\ c_new_hash r = None.

(* ================================================================== *)
(** * Further sample populations and worlds *)

Module Cases.

(** The sample population with the size of [b.txt] unreadable. *)
Definition stat_files : FileSystem :=
  mkFileSystem (fs_exists Sample.files) (fs_isfile Sample.files)
    (fs_walk Sample.files) (fs_digest Sample.files)
    (fun p => if p =? "/data/b.txt" then None else Some 5%Z)
    (fs_getmtime Sample.files).

Definition stat_env : Env := mkEnv Sample.cfg stat_files Sample.clock.

(** The snapshot that [fim-agent.py] builds of the sample population
    with the clock at its first reading. *)
Definition first_snapshot : Snapshot :=
  [("/data/a.txt", mkFileInfo "h1x" 5 1700000000 (Some "t0") None);
   ("/data/b.txt", mkFileInfo "h2" 5 1700000000 (Some "t1") None);
   ("/data/d.txt", mkFileInfo "h4" 5 1700000000 (Some "t2") None)].

(** A world that holds that snapshot as its baseline, later on. *)
Definition later_world : World :=
  mkWorld (Some (Complete first_snapshot)) None [] 7 [].

(** A world whose baseline file is torn. *)
Definition torn_world : World := mkWorld (Some Torn) None [] 0 [].

(** A world whose report file was written by the Prometheus agent. *)
Definition foreign_report_world : World :=
  mkWorld None (Some (Complete (RSingle Sample.earlier_report))) [] 0 [].

(** The sample population monitored through two roots that overlap:
    the directory and one of its files. *)
Definition overlap_env : Env :=
  mkEnv (mkConfig ["/data"; "/data/a.txt"] ["/data/tmp*"; "/data/cache"] true 10)
        Sample.files Sample.clock.

(** A configuration file that sets two keys, one of them unknown to
    the defaults. *)
Definition user_settings : Settings :=
  [("scan_interval", JInt 60); ("site", JString "lab")].

End Cases.

(* ================================================================== *)
(** * Dictionaries: lookup, keys and update *)

Section DictFacts.
Variable V : Type.
Implicit Types (d : dict V) (k : string) (v : V).

Lemma dict_get_in_keys k d v :
  dict_get k d = Some v -> In k (dict_keys d).
Proof.
  induction d as [|[k' v'] r IH]; simpl; [discriminate|].
  destruct (String.eqb_spec k k') as [->|Hne]; auto.
Qed.

Lemma dict_get_none k d :
  dict_get k d = None <-> ~ In k (dict_keys d).
Proof.
  induction d as [|[k' v'] r IH]; simpl.
  - tauto.
  - destruct (String.eqb_spec k k') as [->|Hne].
    + split; [discriminate | tauto].
    + rewrite IH. split; [intros H [E|I]; congruence | tauto].
Qed.

Lemma dict_keys_get k d :
  In k (dict_keys d) -> exists v, dict_get k d = Some v.
Proof.
  intros Hin. destruct (dict_get k d) as [v|] eqn:E; [eauto|].
  apply dict_get_none in E. contradiction.
Qed.

Lemma dict_mem_true k d :
  dict_mem k d = true <-> In k (dict_keys d).
Proof.
  unfold dict_mem. split.
  - destruct (dict_get k d) eqn:E; [|discriminate].
    intros _. eapply dict_get_in_keys; eauto.
  - intros Hin. apply dict_keys_get in Hin as [v ->]. reflexivity.
Qed.

Lemma dict_mem_false k d :
  dict_mem k d = false <-> dict_get k d = None.
Proof.
  unfold dict_mem. destruct (dict_get k d); split; congruence.
Qed.

(** In a well-formed dictionary every listed item is the one found. *)
Lemma dict_get_item k v d :
  dict_wf d -> In (k, v) d -> dict_get k d = Some v.
Proof.
  unfold dict_wf, dict_keys.
  induction d as [|[k' v'] r IH]; simpl; [tauto|].
  intros Hnd [E|Hin].
  - inversion E; subst. rewrite String.eqb_refl. reflexivity.
  - inversion Hnd as [|? ? Hnotin Hnd']; subst.
    destruct (String.eqb_spec k k') as [->|Hne]; auto.
    exfalso. apply Hnotin. apply (in_map fst) in Hin. exact Hin.
Qed.

Lemma dict_set_keys k v d k' :
  In k' (dict_keys (dict_set k v d)) <-> k' = k \/ In k' (dict_keys d).
Proof.
  induction d as [|[k0 v0] r IH]; simpl.
  - intuition.
  - destruct (String.eqb_spec k k0) as [->|Hne]; simpl.
    + intuition.
    + rewrite IH. intuition.
Qed.

Lemma dict_update_keys other : forall d k,
  In k (dict_keys (dict_update d other)) <->
  In k (dict_keys d) \/ In k (dict_keys other).
Proof.
  unfold dict_update.
  induction other as [|[k0 v0] r IH]; simpl; intros d k.
  - tauto.
  - rewrite IH, dict_set_keys. intuition.
Qed.

End DictFacts.

(* ================================================================== *)
(** * Change lists *)

Lemma records_for_app p l1 l2 :
  records_for p (l1 ++ l2) = records_for p l1 ++ records_for p l2.
Proof. apply filter_app. Qed.

Lemma records_for_erase p l :
  records_for p (map erase l) = map erase (records_for p l).
Proof.
  unfold records_for. induction l as [|r l IH]; simpl; [reflexivity|].
  destruct (c_file r =? p); simpl; congruence.
Qed.

(** Records that are all about another path. *)
Lemma records_for_other (p k : string) (l : list Change) :
  (forall r, In r l -> c_file r = k) -> k <> p -> records_for p l = [].
Proof.
  intros Hl Hne. unfold records_for.
  induction l as [|r l IH]; simpl; [reflexivity|].
  destruct (String.eqb_spec (c_file r) p) as [Hp|_].
  - exfalso. apply Hne. rewrite <- Hp. symmetry. apply Hl. left. reflexivity.
  - apply IH. intros r' Hr'. apply Hl. right. exact Hr'.
Qed.

(** Records produced item by item, each about the key of its item: the
    records about [p] are those of the item with key [p]. *)
Lemma records_for_items (V : Type) (f : string * V -> list Change)
    (items : dict V) (p : string) :
  (forall k v r, In r (f (k, v)) -> c_file r = k) ->
  dict_wf items ->
  records_for p (flat_map f items) =
  match dict_get p items with
  | Some v => f (p, v)
  | None => []
  end.
Proof.
  intros Hf. unfold dict_wf, dict_keys.
  assert (Hkeep : forall v, records_for p (f (p, v)) = f (p, v)).
  { intros v. unfold records_for. apply forallb_filter_id.
    apply forallb_forall. intros r Hr. apply Hf in Hr. rewrite Hr.
    apply String.eqb_refl. }
  assert (Hdrop : forall k v, k <> p -> records_for p (f (k, v)) = []).
  { intros k v Hne. apply records_for_other with (k := k); [|exact Hne].
    intros r Hr. eapply Hf; eauto. }
  induction items as [|[k v] rest IH]; simpl; intros Hnd; [reflexivity|].
  inversion Hnd as [|? ? Hnotin Hnd']; subst.
  rewrite records_for_app, (IH Hnd').
  destruct (String.eqb_spec p k) as [->|Hne].
  - rewrite Hkeep.
    assert (dict_get k rest = None) as -> by (apply dict_get_none; exact Hnotin).
    apply app_nil_r.
  - rewrite Hdrop by congruence. reflexivity.
Qed.

(** A change list with at most one record per path names no path twice. *)
Lemma NoDup_files (l : list Change) :
  (forall p, (List.length (records_for p l) <= 1)%nat) ->
  NoDup (map c_file l).
Proof.
  induction l as [|r l IH]; simpl; intros H; [constructor|].
  constructor.
  - intros Hin. apply in_map_iff in Hin as [r' [E Hr']].
    specialize (H (c_file r)). unfold records_for in H. simpl in H.
    rewrite String.eqb_refl in H. simpl in H.
    assert (Hin' : In r' (filter (fun r0 => c_file r0 =? c_file r) l)).
    { apply filter_In. split; [exact Hr'|]. rewrite E. apply String.eqb_refl. }
    destruct (filter (fun r0 => c_file r0 =? c_file r) l); simpl in *; [contradiction|lia].
  - apply IH. intros p. specialize (H p). unfold records_for in *. simpl in H.
    destruct (c_file r =? p); simpl in H; lia.
Qed.

Lemma map_erase_singleton (l : list Change) (x : Change) :
  map erase l = [x] -> exists r, l = [r] /\ erase r = x.
Proof.
  destruct l as [|r [|r' l]]; simpl; try discriminate.
  intros E. inversion E. eauto.
Qed.

Lemma map_erase_nil (l : list Change) : map erase l = [] -> l = [].
Proof. destruct l; simpl; [reflexivity | discriminate]. Qed.

(* ================================================================== *)
(** * The diff of [fim-agent.py] *)

Section AgentDiff.
Variable env : Env.

Lemma run_compare_current (baseline : Snapshot) (items : list (string * FileInfo)) :
  forall changes w, exists added w',
    for_each (Agent.compare_current env baseline) items changes w
      = (Ok (changes ++ added), w') /\
    map erase added = flat_map (diff_current baseline) items.
Proof.
  induction items as [|[p info] rest IH]; intros changes w; simpl.
  - exists [], w. rewrite app_nil_r. split; reflexivity.
  - unfold bind at 1. unfold Agent.compare_current, diff_current. simpl.
    destruct (dict_get p baseline) as [b|].
    + destruct (negb (fi_hash info =? fi_hash b)).
      * unfold bind at 1, now, ret. simpl.
        edestruct IH as (added & w' & Hrun & Hsh). rewrite Hrun.
        eexists (_ :: added), w'. rewrite <- app_assoc. simpl.
        split; [reflexivity|]. rewrite Hsh. reflexivity.
      * unfold ret at 1.
        edestruct IH as (added & w' & Hrun & Hsh). rewrite Hrun.
        exists added, w'. split; [reflexivity | exact Hsh].
    + unfold bind at 1, now, ret. simpl.
      edestruct IH as (added & w' & Hrun & Hsh). rewrite Hrun.
      eexists (_ :: added), w'. rewrite <- app_assoc. simpl.
      split; [reflexivity|]. rewrite Hsh. reflexivity.
Qed.

Lemma run_compare_deleted (baseline current : Snapshot) (ks : list string) :
  (forall k, In k ks -> In k (dict_keys baseline)) ->
  forall changes w, exists added w',
    for_each (Agent.compare_deleted env baseline current) ks changes w
      = (Ok (changes ++ added), w') /\
    map erase added = flat_map (diff_deleted baseline current) ks.
Proof.
  induction ks as [|p rest IH]; intros Hks changes w; simpl.
  - exists [], w. rewrite app_nil_r. split; reflexivity.
  - assert (Hrest : forall k, In k rest -> In k (dict_keys baseline))
      by (intros k Hk; apply Hks; right; exact Hk).
    specialize (IH Hrest).
    unfold bind at 1. unfold Agent.compare_deleted, diff_deleted.
    destruct (negb (dict_mem p current)).
    + destruct (dict_keys_get p baseline (Hks p (or_introl eq_refl))) as [b Hb].
      rewrite Hb. unfold bind at 1, now, ret. simpl.
      edestruct IH as (added & w' & Hrun & Hsh). rewrite Hrun.
      eexists (_ :: added), w'. rewrite <- app_assoc. simpl.
      split; [reflexivity|]. rewrite Hsh. reflexivity.
    + unfold ret at 1.
      edestruct IH as (added & w' & Hrun & Hsh). rewrite Hrun.
      exists added, w'. split; [reflexivity | exact Hsh].
Qed.

(** [load_baseline] never raises. *)
Lemma load_baseline_total (w : World) :
  exists baseline w1, Agent.load_baseline w = (Ok baseline, w1).
Proof.
  unfold Agent.load_baseline, try_except, Agent.read_baseline_file.
  destruct (baseline_file w) as [[s|]|]; unfold bind, logger, ret; simpl; eauto.
Qed.

(** [compare_with_baseline] returns the diff of the loaded baseline and
    the current snapshot, up to timestamps. *)
Lemma run_compare_with_baseline (current baseline : Snapshot) (w w1 : World) :
  Agent.load_baseline w = (Ok baseline, w1) ->
  exists changes w',
    Agent.compare_with_baseline env current w = (Ok changes, w') /\
    map erase changes = diff_erased baseline current.
Proof.
  intros Hload. unfold Agent.compare_with_baseline.
  unfold bind at 1. rewrite Hload.
  destruct (run_compare_current baseline current [] w1)
    as (added1 & w2 & Hrun1 & Hsh1).
  unfold bind at 1. rewrite Hrun1. simpl.
  destruct (run_compare_deleted baseline current (dict_keys baseline)
              (fun k H => H) added1 w2) as (added2 & w3 & Hrun2 & Hsh2).
  rewrite Hrun2. exists (added1 ++ added2), w3. split; [reflexivity|].
  unfold diff_erased. rewrite map_app, Hsh1, Hsh2. reflexivity.
Qed.

End AgentDiff.

(** The records of the blanked diff that are about one path. *)
Lemma diff_erased_records (baseline current : Snapshot) (p : string) :
  dict_wf baseline -> dict_wf current ->
  records_for p (diff_erased baseline current) =
  match dict_get p current, dict_get p baseline with
  | Some c, Some b =>
      if fi_hash c =? fi_hash b then []
      else [mkChange MODIFIED p None (Some (fi_hash b)) (Some (fi_hash c)) EmptyString]
  | Some c, None => [mkChange NEW p (Some (fi_hash c)) None None EmptyString]
  | None, Some b => [mkChange DELETED p None (Some (fi_hash b)) None EmptyString]
  | None, None => []
  end.
Proof.
  intros Hb Hc. unfold diff_erased. rewrite records_for_app.
  rewrite (records_for_items (diff_current baseline)); [|
    intros k v r; unfold diff_current; simpl;
    destruct (dict_get k baseline); [destruct (negb _)|]; simpl;
    intros Hin; in_singleton Hin | exact Hc].
  unfold dict_keys. rewrite flat_map_concat_map, map_map, <- flat_map_concat_map.
  rewrite (records_for_items (fun kv => diff_deleted baseline current (fst kv)));
    [| intros k v r; unfold diff_deleted; simpl;
       destruct (negb _); [destruct (dict_get k baseline)|]; simpl;
       intros Hin; in_singleton Hin
     | exact Hb].
  unfold diff_current, diff_deleted, dict_mem. simpl.
  destruct (dict_get p current) as [c|]; destruct (dict_get p baseline) as [b|];
    simpl; try reflexivity.
  - destruct (fi_hash c =? fi_hash b); reflexivity.
Qed.

Lemma records_for_all_nil (l : list Change) :
  (forall p, records_for p l = []) -> l = [].
Proof.
  destruct l as [|r l]; [reflexivity|].
  intros H. specialize (H (c_file r)). unfold records_for in H. simpl in H.
  rewrite String.eqb_refl in H. discriminate.
Qed.

Lemma load_baseline_complete (S : Snapshot) (w : World) :
  baseline_file w = Some (Complete S) -> Agent.load_baseline w = (Ok S, w).
Proof.
  intros H. unfold Agent.load_baseline, try_except, Agent.read_baseline_file.
  rewrite H. reflexivity.
Qed.

(** Concrete dictionaries are well formed by inspection of their keys. *)
Ltac wf_by_keys :=
  unfold dict_wf; simpl; repeat constructor; simpl; intuition discriminate.

(** For well-formed snapshots, [compare_with_baseline] classifies
    every path: present only in the current snapshot, exactly one NEW
    record with the current fingerprint; present in both with different
    fingerprints, exactly one MODIFIED record with the baseline
    fingerprint as old and the current one as new; present in both with
    equal fingerprints, no record, whatever the size and times; present
    only in the baseline, exactly one DELETED record with the baseline
    fingerprint; present in neither, no record.  No path is named by two
    records. *)
Lemma agent_changes_classified
    (env : Env) (w w1 : World) (baseline current : Snapshot) :
  dict_wf baseline -> dict_wf current ->
  Agent.load_baseline w = (Ok baseline, w1) ->
  exists changes w',
    Agent.compare_with_baseline env current w = (Ok changes, w') /\
    NoDup (map c_file changes) /\
    forall p,
      match dict_get p current, dict_get p baseline with
      | Some c, None =>
          exists r, records_for p changes = [r] /\
                    is_new_record p (fi_hash c) r
      | Some c, Some b =>
          if fi_hash c =? fi_hash b then records_for p changes = []
          else exists r, records_for p changes = [r] /\
                         is_modified_record p (fi_hash b) (fi_hash c) r
      | None, Some b =>
          exists r, records_for p changes = [r] /\
                    is_deleted_record p (fi_hash b) r
      | None, None => records_for p changes = []
      end.
Proof.
  intros Hb Hc Hload.
  destruct (run_compare_with_baseline env current w Hload)
    as (changes & w' & Hrun & Hsh).
  exists changes, w'. split; [exact Hrun|].
  assert (Hrec : forall p, map erase (records_for p changes) =
                           records_for p (diff_erased baseline current)).
  { intros p. rewrite <- records_for_erase, Hsh. reflexivity. }
  split.
  - apply NoDup_files. intros p.
    rewrite <- (length_map erase), Hrec, diff_erased_records by assumption.
    destruct (dict_get p current); destruct (dict_get p baseline);
      try destruct (_ =? _); simpl; lia.
  - intros p. specialize (Hrec p).
    rewrite diff_erased_records in Hrec by assumption.
    destruct (dict_get p current) as [c|]; destruct (dict_get p baseline) as [b|].
    + destruct (fi_hash c =? fi_hash b).
      * apply map_erase_nil. exact Hrec.
      * apply map_erase_singleton in Hrec as (r & -> & Hr).
        exists r. split; [reflexivity|].
        unfold is_modified_record. destruct r; inversion Hr; subst; simpl; auto.
    + apply map_erase_singleton in Hrec as (r & -> & Hr).
      exists r. split; [reflexivity|].
      unfold is_new_record. destruct r; inversion Hr; subst; simpl; auto.
    + apply map_erase_singleton in Hrec as (r & -> & Hr).
      exists r. split; [reflexivity|].
      unfold is_deleted_record. destruct r; inversion Hr; subst; simpl; auto.
    + apply map_erase_nil. exact Hrec.
Qed.

(** C5.  Diffing a snapshot against itself yields no change record. *)
Theorem compare_with_itself_empty (env : Env) (S : Snapshot) (w : World) :
  dict_wf S ->
  baseline_file w = Some (Complete S) ->
  fst (Agent.compare_with_baseline env S w) = Ok [].
Proof.
  intros Hwf Hfile.
  destruct (run_compare_with_baseline env S w (load_baseline_complete w Hfile))
    as (changes & w' & Hrun & Hsh).
  rewrite Hrun. simpl. f_equal.
  apply records_for_all_nil. intros p.
  apply map_erase_nil. rewrite <- records_for_erase, Hsh.
  rewrite diff_erased_records by assumption.
  destruct (dict_get p S) as [c|]; [|reflexivity].
  rewrite String.eqb_refl. reflexivity.
Qed.

Lemma compare_with_itself_empty_witness :
  fst (Agent.compare_with_baseline Sample.env Sample.baseline Sample.world)
  = Ok [].
Proof.
  apply (@compare_with_itself_empty Sample.env Sample.baseline Sample.world).
  - wf_by_keys.
  - reflexivity.
Defined.

(* ================================================================== *)
(** * Strings: prefixes and suffixes *)

Open Scope string_scope.

Lemma length_append (a b : string) :
  String.length (a ++ b) = (String.length a + String.length b)%nat.
Proof. induction a as [|c a IH]; simpl; congruence. Qed.

Lemma substring_append_left (a b : string) :
  substring 0 (String.length a) (a ++ b) = a.
Proof.
  induction a as [|c a IH]; simpl.
  - destruct b; reflexivity.
  - rewrite IH. reflexivity.
Qed.

Lemma substring_append_right (a b : string) :
  substring (String.length a) (String.length b) (a ++ b) = b.
Proof.
  induction a as [|c a IH]; simpl; [|exact IH].
  induction b as [|c b IH]; simpl; [reflexivity|]. rewrite IH. reflexivity.
Qed.

Lemma substring_split (n : nat) : forall s : string,
  (n <= String.length s)%nat ->
  s = substring 0 n s ++ substring n (String.length s - n) s.
Proof.
  induction n as [|n IH]; intros s Hle.
  - rewrite Nat.sub_0_r.
    assert (H0 : substring 0 0 s = EmptyString) by (destruct s; reflexivity).
    rewrite H0. simpl.
    clear Hle H0. induction s as [|c s IHs]; simpl; [reflexivity|].
    rewrite <- IHs. reflexivity.
  - destruct s as [|c s]; simpl in *; [lia|].
    rewrite <- IH by lia. reflexivity.
Qed.

Lemma startswith_iff (s p : string) :
  PyStr.startswith s p = true <-> exists rest, s = p ++ rest.
Proof.
  unfold PyStr.startswith. revert s.
  induction p as [|a p IH]; intros s; simpl.
  - destruct s; split; eauto.
  - destruct s as [|b s]; simpl.
    + split; [discriminate | intros [rest H]; discriminate].
    + destruct (ascii_dec a b) as [->|Hne].
      * rewrite IH. split; intros [rest H]; exists rest; congruence.
      * split; [discriminate | intros [rest H]; congruence].
Qed.

Lemma endswith_star_iff (s : string) :
  PyStr.endswith s "*" = true <-> exists pre, s = pre ++ "*".
Proof.
  unfold PyStr.endswith. split.
  - intros H. apply andb_prop in H as [Hlen Heq].
    apply Nat.leb_le in Hlen. apply String.eqb_eq in Heq.
    exists (substring 0 (String.length s - String.length "*") s).
    simpl String.length in *.
    etransitivity; [apply (@substring_split (String.length s - 1)); lia|].
    f_equal.
    replace (String.length s - (String.length s - 1))%nat with 1%nat by lia.
    exact Heq.
  - intros [pre ->]. rewrite length_append.
    replace (String.length pre + String.length "*" - String.length "*")%nat
      with (String.length pre) by lia.
    rewrite substring_append_right, String.eqb_refl.
    apply andb_true_intro. split; [apply Nat.leb_le; lia | reflexivity].
Qed.

Lemma drop_last_star (pre : string) : PyStr.drop_last (pre ++ "*") = pre.
Proof.
  unfold PyStr.drop_last. rewrite length_append. simpl.
  replace (String.length pre + 1 - 1)%nat with (String.length pre) by lia.
  apply substring_append_left.
Qed.

(** The test of the code is the rule of the specification. *)
Lemma excluded_by_iff (rule path : string) :
  excluded_by rule path = true <-> rule_matches rule path.
Proof.
  unfold excluded_by, rule_matches.
  destruct (PyStr.endswith rule "*") eqn:E.
  - apply endswith_star_iff in E as [pre ->]. rewrite drop_last_star.
    rewrite startswith_iff. split.
    + intros H. left. exists pre. split; [reflexivity | exact H].
    + intros [(pre' & Hpre & H) | [Hno _]].
      * assert (pre' = pre) as ->; [|exact H].
        rewrite <- (drop_last_star pre'), <- Hpre. apply drop_last_star.
      * exfalso. apply (Hno pre). reflexivity.
  - assert (Hno : forall pre, rule <> pre ++ "*").
    { intros pre Hpre.
      assert (PyStr.endswith rule "*" = true)
        by (apply endswith_star_iff; eauto).
      congruence. }
    rewrite orb_true_iff, String.eqb_eq, startswith_iff. split.
    + intros H. right. split; assumption.
    + intros [(pre & Hpre & _) | [_ H]]; [|exact H].
      exfalso. apply (Hno pre Hpre).
Qed.

Lemma excluded_by_rule_iff (cfg : Config) (path : string) :
  excluded_by_rule cfg path <->
  existsb (fun excluded => excluded_by excluded path) (excluded_paths cfg) = true.
Proof.
  unfold excluded_by_rule. rewrite existsb_exists.
  split; intros (rule & Hin & H); exists rule; split; try assumption;
    apply excluded_by_iff; exact H.
Qed.

Open Scope list_scope.

(* ================================================================== *)
(** * Running methods *)

Lemma bind_ok {A B} (m : M A) (k : A -> M B) (w w' : World) (b : B) :
  bind m k w = (Ok b, w') ->
  exists a w1, m w = (Ok a, w1) /\ k a w1 = (Ok b, w').
Proof.
  unfold bind. destruct (m w) as [[a|e] w1]; [eauto | discriminate].
Qed.

Lemma try_except_ok {A} (m : M A) (h : Exn -> M A) (w w' : World) (a : A) :
  try_except m h w = (Ok a, w') ->
  m w = (Ok a, w') \/ exists e w1, m w = (Raise e, w1) /\ h e w1 = (Ok a, w').
Proof.
  unfold try_except. destruct (m w) as [[a0|e] w1]; eauto.
Qed.

(** A property of the accumulator that every iteration keeps holds when
    the loop ends. *)
Lemma for_each_inv {A B} (body : A -> B -> M B) (P : B -> Prop) :
  (forall x acc w acc' w', P acc -> body x acc w = (Ok acc', w') -> P acc') ->
  forall l acc w acc' w',
    P acc -> for_each body l acc w = (Ok acc', w') -> P acc'.
Proof.
  intros Hbody. induction l as [|x l IH]; simpl; intros acc w acc' w' HP Hrun.
  - inversion Hrun; subst. exact HP.
  - apply bind_ok in Hrun as (acc1 & w1 & Hx & Hrest).
    eapply IH; [|exact Hrest]. eapply Hbody; eauto.
Qed.

(* ================================================================== *)
(** * Exclusion precedence *)

Section Exclusion.
Variable env : Env.

Lemma should_monitor_path_excluded (path : string) :
  excluded_by_rule (config env) path ->
  Agent.should_monitor_path (config env) path = false.
Proof.
  intros H. apply excluded_by_rule_iff in H.
  unfold Agent.should_monitor_path. rewrite H. reflexivity.
Qed.

Lemma is_excluded_path_excluded (path : string) :
  excluded_by_rule (config env) path ->
  Prometheus.is_excluded_path (config env) path = true.
Proof. intros H. apply excluded_by_rule_iff in H. exact H. Qed.

(** Every key that [scan_directory] stores passed [should_monitor_path]. *)
Lemma scan_directory_loop_keys (files : list string) :
  forall file_hashes w r w',
    Agent.scan_directory_loop env files file_hashes w = (Ok r, w') ->
    forall k, In k (dict_keys (fst r)) ->
      In k (dict_keys file_hashes) \/
      Agent.should_monitor_path (config env) k = true.
Proof.
  induction files as [|file_path rest IH]; simpl; intros fh w r w' Hrun k Hk.
  - inversion Hrun; subst. left. exact Hk.
  - destruct (Agent.should_monitor_path (config env) file_path) eqn:Hm;
      [|eapply IH; eauto].
    apply bind_ok in Hrun as (file_hash & w1 & Hhash & Hrun).
    destruct (PyStr.truthy file_hash); [|eapply IH; eauto].
    destruct file_hash as [h|];
      [destruct (fs_getsize (fs env) file_path) as [size|];
       [destruct (fs_getmtime (fs env) file_path) as [mtime|]|]|];
      try (inversion Hrun; subst; left; exact Hk).
    apply bind_ok in Hrun as (scanned_at & w2 & _ & Hrun).
    destruct (IH _ _ _ _ Hrun k Hk) as [Hin|Hok]; [|right; exact Hok].
    apply dict_set_keys in Hin as [->|Hin]; [right; exact Hm | left; exact Hin].
Qed.

Lemma scan_directory_keys (directory : string) (w w' : World) (s : Snapshot) :
  Agent.scan_directory env directory w = (Ok s, w') ->
  forall k, In k (dict_keys s) ->
    Agent.should_monitor_path (config env) k = true.
Proof.
  unfold Agent.scan_directory. intros Hrun k Hk.
  apply bind_ok in Hrun as (_ & w1 & _ & Hrun).
  apply bind_ok in Hrun as (r & w2 & Hloop & Hrun).
  assert (s = fst r) as ->.
  { destruct (snd r).
    - apply bind_ok in Hrun as (_ & w3 & _ & Hrun). inversion Hrun. reflexivity.
    - inversion Hrun. reflexivity. }
  destruct (scan_directory_loop_keys _ _ _ Hloop k Hk) as [[]|Hok]. exact Hok.
Qed.

Lemma build_all_hashes_keys (w w' : World) (s : Snapshot) :
  Agent.build_all_hashes env w = (Ok s, w') ->
  forall k, In k (dict_keys s) ->
    Agent.should_monitor_path (config env) k = true.
Proof.
  unfold Agent.build_all_hashes. intros Hrun.
  set (P := fun s : Snapshot =>
              forall k, In k (dict_keys s) ->
                Agent.should_monitor_path (config env) k = true).
  assert (Hinit : P []) by (intros k Hk; destruct Hk).
  refine (for_each_inv (Agent.scan_monitored env) P _ _ _ _ Hinit Hrun).
  intros path acc w0 acc' w0' Hacc Hbody k Hk.
  unfold Agent.scan_monitored in Hbody.
  destruct (fs_exists (fs env) path).
  - apply bind_ok in Hbody as (path_hashes & w1 & Hscan & Hret).
    inversion Hret; subst.
    apply dict_update_keys in Hk as [Hk|Hk]; [auto|].
    eapply scan_directory_keys; eauto.
  - apply bind_ok in Hbody as (_ & w1 & _ & Hret). inversion Hret; subst. auto.
Qed.

(** [record_file] adds at most the key of its file. *)
Lemma record_file_keys (path : string) (baseline b' : Snapshot) (w w' : World) :
  Prometheus.record_file env path baseline w = (Ok b', w') ->
  forall k, In k (dict_keys b') -> k = path \/ In k (dict_keys baseline).
Proof.
  unfold Prometheus.record_file. intros Hrun k Hk.
  apply bind_ok in Hrun as (file_hash & w1 & _ & Hrun).
  destruct file_hash as [h|]; [|inversion Hrun; subst; auto].
  destruct (PyStr.truthy (Some h)); [|inversion Hrun; subst; auto].
  apply bind_ok in Hrun as (info & w2 & _ & Hret). inversion Hret; subst.
  apply dict_set_keys in Hk. exact Hk.
Qed.

Lemma create_baseline_keys (w w' : World) (s : Snapshot) :
  Prometheus.create_baseline env w = (Ok s, w') ->
  forall k, In k (dict_keys s) ->
    Prometheus.is_excluded_path (config env) k = false.
Proof.
  unfold Prometheus.create_baseline. intros Hrun.
  apply bind_ok in Hrun as (_ & w1 & _ & Hrun).
  apply bind_ok in Hrun as (baseline & w2 & Hloop & Hrun).
  apply bind_ok in Hrun as (_ & w3 & _ & Hrun).
  apply bind_ok in Hrun as (_ & w4 & _ & Hrun).
  apply bind_ok in Hrun as (_ & w5 & _ & Hrun).
  inversion Hrun; subst. clear Hrun.
  set (P := fun b : Snapshot =>
              forall k, In k (dict_keys b) ->
                Prometheus.is_excluded_path (config env) k = false).
  assert (Hwalk : forall x acc w0 acc' w0',
             P acc -> Prometheus.baseline_walk env x acc w0 = (Ok acc', w0') ->
             P acc').
  { intros x acc w0 acc' w0' Hacc Hbody k Hk.
    unfold Prometheus.baseline_walk in Hbody.
    destruct (Prometheus.is_excluded_path (config env) x) eqn:Hx; simpl in Hbody.
    - inversion Hbody; subst. auto.
    - apply try_except_ok in Hbody as [Hrec | (e & w6 & _ & Hh)].
      + destruct (record_file_keys _ _ _ Hrec k Hk) as [->|Hin]; auto.
      + apply bind_ok in Hh as (_ & w7 & _ & Hret). inversion Hret; subst. auto. }
  assert (Hinit : P []) by (intros k Hk; destruct Hk).
  refine (for_each_inv (Prometheus.baseline_monitored env) P _ _ _ _ Hinit Hloop).
  intros path acc w0 acc' w0' Hacc Hbody.
  unfold Prometheus.baseline_monitored in Hbody.
  destruct (fs_exists (fs env) path); simpl in Hbody.
  - destruct (fs_isfile (fs env) path).
    + destruct (Prometheus.is_excluded_path (config env) path) eqn:Hx;
        simpl in Hbody.
      * inversion Hbody; subst. exact Hacc.
      * intros k Hk.
        destruct (record_file_keys _ _ _ Hbody k Hk) as [->|Hin]; auto.
    + exact (for_each_inv _ P Hwalk _ _ _ Hacc Hbody).
  - apply bind_ok in Hbody as (_ & w6 & _ & Hret). inversion Hret; subst.
    exact Hacc.
Qed.

End Exclusion.

(** C4.  A path matched by an exclusion rule is out of scope for both
    agents, whatever the monitored roots are, and is a key of no
    snapshot that a scan builds: neither of [all_hashes] in
    [perform_scan] nor of the baseline that [create_baseline] builds. *)
Theorem excluded_path_never_in_snapshot (env : Env) (path : string) :
  excluded_by_rule (config env) path ->
  Agent.should_monitor_path (config env) path = false /\
  Prometheus.is_excluded_path (config env) path = true /\
  (forall w s w', Agent.build_all_hashes env w = (Ok s, w') ->
                  ~ In path (dict_keys s)) /\
  (forall w s w', Prometheus.create_baseline env w = (Ok s, w') ->
                  ~ In path (dict_keys s)).
Proof.
  intros Hex.
  pose proof (should_monitor_path_excluded env Hex) as Ha.
  pose proof (is_excluded_path_excluded env Hex) as Hp.
  repeat split; try assumption.
  - intros w s w' Hrun Hin.
    rewrite (build_all_hashes_keys env w Hrun path Hin) in Ha. discriminate.
  - intros w s w' Hrun Hin.
    rewrite (create_baseline_keys env w Hrun path Hin) in Hp. discriminate.
Qed.

Lemma excluded_path_never_in_snapshot_witness :
  Agent.should_monitor_path (config Sample.env) "/data/tmp/x.log" = false /\
  Prometheus.is_excluded_path (config Sample.env) "/data/tmp/x.log" = true /\
  (forall w s w', Agent.build_all_hashes Sample.env w = (Ok s, w') ->
                  ~ In "/data/tmp/x.log" (dict_keys s)) /\
  (forall w s w', Prometheus.create_baseline Sample.env w = (Ok s, w') ->
                  ~ In "/data/tmp/x.log" (dict_keys s)).
Proof.
  apply (@excluded_path_never_in_snapshot Sample.env "/data/tmp/x.log").
  exists "/data/tmp*". split.
  - simpl. left. reflexivity.
  - left. exists "/data/tmp". split; [reflexivity|].
    exists "/x.log". reflexivity.
Defined.

(* ================================================================== *)
(** * The scan of the Prometheus agent, record by record *)

Section PrometheusScan.
Variable env : Env.

(** [check_file] appends nothing, or one record about its file, and only
    when the digest of the file could be computed. *)
Lemma check_file_added (baseline : Snapshot) (x : string)
    (changes changes' : list Change) (w w' : World) :
  Prometheus.check_file env baseline x changes w = (Ok changes', w') ->
  changes' = changes \/
  exists r h, changes' = changes ++ [r] /\ c_file r = x /\
              fs_digest (fs env) x = Some h.
Proof.
  unfold Prometheus.check_file, calculate_file_hash. intros Hrun.
  apply try_except_ok in Hrun as [Hrun | (e & w1 & _ & Hh)].
  - destruct (dict_get x baseline) as [b|];
      destruct (fs_digest (fs env) x) as [h|] eqn:Hd;
      apply bind_ok in Hrun as (o & w1 & Hc & Hrun);
      try (apply bind_ok in Hc as (_ & w2 & _ & Hc));
      inversion Hc; subst; clear Hc;
      try (inversion Hrun; subst; left; reflexivity).
    + destruct (PyStr.truthy (Some h) && negb (h =? fi_hash b)).
      * apply bind_ok in Hrun as (ts & w2 & _ & Hret). inversion Hret; subst.
        right. eexists _, h. repeat split.
      * inversion Hrun; subst. left. reflexivity.
    + destruct (PyStr.truthy (Some h)).
      * apply bind_ok in Hrun as (ts & w2 & _ & Hret). inversion Hret; subst.
        right. eexists _, h. repeat split.
      * inversion Hrun; subst. left. reflexivity.
  - apply bind_ok in Hh as (_ & w2 & _ & Hret). inversion Hret; subst.
    left. reflexivity.
Qed.

(** [scan_deleted] appends nothing, or one record about a path that no
    longer exists. *)
Lemma scan_deleted_added (x : string) (changes changes' : list Change)
    (w w' : World) :
  Prometheus.scan_deleted env x changes w = (Ok changes', w') ->
  changes' = changes \/
  exists r, changes' = changes ++ [r] /\ c_file r = x /\
            fs_exists (fs env) x = false.
Proof.
  unfold Prometheus.scan_deleted. intros Hrun.
  destruct (fs_exists (fs env) x); simpl in Hrun.
  - inversion Hrun; subst. left. reflexivity.
  - apply bind_ok in Hrun as (ts & w1 & _ & Hret). inversion Hret; subst.
    right. eexists. repeat split.
Qed.

Lemma records_for_snoc_other (p : string) (changes : list Change) (r : Change) :
  c_file r <> p -> records_for p (changes ++ [r]) = records_for p changes.
Proof.
  intros Hne. rewrite records_for_app. unfold records_for at 2. simpl.
  destruct (String.eqb_spec (c_file r) p); [contradiction | apply app_nil_r].
Qed.

(** A path that exists and cannot be digested gets no record. *)
Lemma scan_files_detect_silent (p : string) (w w' : World)
    (baseline : Snapshot) (changes : list Change) :
  fs_exists (fs env) p = true ->
  fs_digest (fs env) p = None ->
  Prometheus.scan_files_detect env w = (Ok (baseline, changes), w') ->
  records_for p changes = [].
Proof.
  intros Hex Hdig Hrun. unfold Prometheus.scan_files_detect in Hrun.
  apply bind_ok in Hrun as (b & w1 & _ & Hrun).
  unfold Prometheus.detect_loops in Hrun.
  apply bind_ok in Hrun as (ch1 & w2 & Hloop1 & Hrun).
  apply bind_ok in Hrun as (ch2 & w3 & Hloop2 & Hret).
  inversion Hret; subst. clear Hret.
  set (P := fun l : list Change => records_for p l = []).
  assert (Hcheck : forall x acc w0 acc' w0',
             P acc -> Prometheus.check_file env baseline x acc w0 = (Ok acc', w0')
             -> P acc').
  { intros x acc w0 acc' w0' Hacc Hbody.
    apply check_file_added in Hbody as [->|(r & h & -> & Hr & Hh)]; [exact Hacc|].
    unfold P. rewrite records_for_snoc_other; [exact Hacc|].
    intros E. rewrite Hr in E. subst x. congruence. }
  assert (Hwalk : forall x acc w0 acc' w0',
             P acc -> Prometheus.scan_walk env baseline x acc w0 = (Ok acc', w0')
             -> P acc').
  { intros x acc w0 acc' w0' Hacc Hbody. unfold Prometheus.scan_walk in Hbody.
    destruct (negb (Prometheus.is_excluded_path (config env) x)).
    - eapply Hcheck; eauto.
    - inversion Hbody; subst. exact Hacc. }
  assert (Hmon : forall x acc w0 acc' w0',
             P acc ->
             Prometheus.scan_monitored env baseline x acc w0 = (Ok acc', w0')
             -> P acc').
  { intros x acc w0 acc' w0' Hacc Hbody.
    unfold Prometheus.scan_monitored in Hbody.
    destruct (negb (fs_exists (fs env) x)); [inversion Hbody; subst; exact Hacc|].
    destruct (fs_isfile (fs env) x).
    - destruct (negb (Prometheus.is_excluded_path (config env) x)).
      + eapply Hcheck; eauto.
      + inversion Hbody; subst. exact Hacc.
    - exact (for_each_inv _ P Hwalk _ _ _ Hacc Hbody). }
  assert (Hdel : forall x acc w0 acc' w0',
             P acc -> Prometheus.scan_deleted env x acc w0 = (Ok acc', w0')
             -> P acc').
  { intros x acc w0 acc' w0' Hacc Hbody.
    apply scan_deleted_added in Hbody as [->|(r & -> & Hr & He)]; [exact Hacc|].
    unfold P. rewrite records_for_snoc_other; [exact Hacc|].
    intros E. rewrite Hr in E. subst x. congruence. }
  assert (H1 : P ch1).
  { exact (for_each_inv _ P Hmon _ _ _ (eq_refl : P []) Hloop1). }
  exact (for_each_inv _ P Hdel _ _ _ H1 Hloop2).
Qed.

End PrometheusScan.

(** C10.  In the scan of the Prometheus agent, a path of the baseline
    that still exists and whose digest cannot be computed gets no
    change record: neither MODIFIED nor DELETED nor any other. *)
Theorem unreadable_present_file_unreported
    (env : Env) (p : string) (w w' : World)
    (baseline : Snapshot) (changes : list Change) :
  In p (dict_keys baseline) ->
  fs_exists (fs env) p = true ->
  fs_digest (fs env) p = None ->
  Prometheus.scan_files_detect env w = (Ok (baseline, changes), w') ->
  records_for p changes = [].
Proof.
  intros _ Hex Hdig Hrun. eapply scan_files_detect_silent; eauto.
Qed.

Lemma unreadable_present_file_unreported_witness :
  exists changes w',
    Prometheus.scan_files_detect Sample.unreadable_env Sample.world
      = (Ok (Sample.baseline, changes), w') /\
    records_for "/data/a.txt" changes = [].
Proof.
  eexists _, _. split; [reflexivity|].
  eapply (@unreadable_present_file_unreported Sample.unreadable_env
            "/data/a.txt" Sample.world _ Sample.baseline _).
  - simpl. left. reflexivity.
  - reflexivity.
  - reflexivity.
  - reflexivity.
Defined.

(* ================================================================== *)
(** * What methods keep, and which never raise *)

Section Preserves.
Variable I : World -> Prop.

Lemma preserves_ret {A} (a : A) : preserves I (ret a).
Proof. intros w H. exact H. Qed.

Lemma preserves_raise {A} (e : Exn) : preserves I (@raise A e).
Proof. intros w H. exact H. Qed.

Lemma preserves_bind {A B} (m : M A) (k : A -> M B) :
  preserves I m -> (forall a, preserves I (k a)) -> preserves I (bind m k).
Proof.
  intros Hm Hk w H. unfold bind. specialize (Hm w H).
  destruct (m w) as [[a|e] w1]; simpl in *; [apply Hk; exact Hm | exact Hm].
Qed.

Lemma preserves_try_except {A} (m : M A) (h : Exn -> M A) :
  preserves I m -> (forall e, preserves I (h e)) -> preserves I (try_except m h).
Proof.
  intros Hm Hh w H. unfold try_except. specialize (Hm w H).
  destruct (m w) as [[a|e] w1]; simpl in *; [exact Hm | apply Hh; exact Hm].
Qed.

Lemma preserves_for_each {A B} (body : A -> B -> M B) (l : list A) :
  (forall x acc, preserves I (body x acc)) ->
  forall acc, preserves I (for_each body l acc).
Proof.
  intros Hbody. induction l as [|x l IH]; intros acc; simpl.
  - apply preserves_ret.
  - apply preserves_bind; [apply Hbody | intros a; apply IH].
Qed.

End Preserves.

(** Sequencing after a method that never raises. *)
Lemma run_bind_total {A B} (m : M A) (k : A -> M B) (P R Q : World -> Prop) :
  total m ->
  (forall w, P w -> R (snd (m w))) ->
  (forall a w, R w -> Q (snd (k a w))) ->
  forall w, P w -> Q (snd (bind m k w)).
Proof.
  intros Ht Hm Hk w HP. unfold bind.
  destruct (Ht w) as (a & w1 & E). specialize (Hm w HP).
  rewrite E in *. apply Hk. exact Hm.
Qed.

(** Sequencing before a method that keeps the property reached. *)
Lemma run_bind_then {A B} (m : M A) (k : A -> M B) (Q : World -> Prop) (w : World) :
  Q (snd (m w)) -> (forall a, preserves Q (k a)) -> Q (snd (bind m k w)).
Proof.
  intros Hm Hk. unfold bind.
  destruct (m w) as [[a|e] w1]; simpl in *; [apply Hk; exact Hm | exact Hm].
Qed.

Lemma total_ret {A} (a : A) : total (ret a).
Proof. intros w. exists a, w. reflexivity. Qed.

Lemma total_bind {A B} (m : M A) (k : A -> M B) :
  total m -> (forall a, total (k a)) -> total (bind m k).
Proof.
  intros Hm Hk w. destruct (Hm w) as (a & w1 & E).
  destruct (Hk a w1) as (b & w2 & E2). exists b, w2.
  unfold bind. rewrite E. exact E2.
Qed.

Lemma total_try_except {A} (m : M A) (h : Exn -> M A) :
  (forall e, total (h e)) -> total (try_except m h).
Proof.
  intros Hh w. unfold try_except.
  destruct (m w) as [[a|e] w1]; [eauto | apply Hh].
Qed.

Lemma total_for_each {A B} (body : A -> B -> M B) (l : list A) :
  (forall x acc, total (body x acc)) -> forall acc, total (for_each body l acc).
Proof.
  intros Hbody. induction l as [|x l IH]; intros acc; simpl.
  - apply total_ret.
  - apply total_bind; [apply Hbody | intros a; apply IH].
Qed.

Lemma total_logger (lvl : Level) (msg : Message) : total (logger lvl msg).
Proof. intros w. eexists _, _. reflexivity. Qed.

Lemma total_now (env : Env) : total (now env).
Proof. intros w. eexists _, _. reflexivity. Qed.

Lemma total_calculate_file_hash (env : Env) (path : string) :
  total (calculate_file_hash env path).
Proof.
  unfold calculate_file_hash. destruct (fs_digest (fs env) path).
  - apply total_ret.
  - apply total_bind; [apply total_logger | intros _; apply total_ret].
Qed.

Lemma count_log_snoc (f : LogRecord -> bool) (l : list LogRecord) (r : LogRecord) :
  count_log f (l ++ [r]) = (count_log f l + (if f r then 1 else 0))%nat.
Proof.
  unfold count_log. rewrite filter_app, length_app. simpl.
  destruct (f r); reflexivity.
Qed.

Lemma untouched_refl (w : World) : untouched w w.
Proof. repeat split. Qed.

(** A step that only appends benign records to the log, or reads the
    clock, keeps the observation at hand. *)
Ltac keep_log :=
  let w := fresh "w" in
  let H := fresh "H" in
  intros w H; unfold untouched, alerts, creations, saves in *; simpl;
  rewrite ?count_log_snoc; simpl; rewrite ?Nat.add_0_r; exact H.

Ltac preserve :=
  repeat first
    [ apply preserves_ret
    | apply preserves_raise
    | match goal with
      | |- preserves _ (logger _ _) => solve [keep_log]
      | |- preserves _ (now _) => solve [keep_log]
      | |- preserves _ (bind _ _) => apply preserves_bind; [|intros ?]
      | |- preserves _ (try_except _ _) => apply preserves_try_except; [|intros ?]
      | |- preserves _ (for_each _ _ _) => apply preserves_for_each; intros ? ?
      | |- preserves _ (if ?c then _ else _) => destruct c
      | |- preserves _ (match ?x with _ => _ end) => destruct x
      end ].

Ltac totality :=
  repeat first
    [ apply total_ret
    | apply total_logger
    | apply total_now
    | apply total_calculate_file_hash
    | match goal with
      | |- total (bind _ _) => apply total_bind; [|intros ?]
      | |- total (try_except _ _) => apply total_try_except; intros ?
      | |- total (for_each _ _ _) => apply total_for_each; intros ? ?
      | |- total (if ?c then _ else _) => destruct c
      | |- total (match ?x with _ => _ end) => destruct x
      end ].

Section Quiet.
Variable env : Env.
Variable w0 : World.

Lemma calculate_file_hash_quiet (path : string) :
  preserves (untouched w0) (calculate_file_hash env path).
Proof. unfold calculate_file_hash. preserve. Qed.

Lemma scan_directory_loop_quiet (files : list string) :
  forall file_hashes,
    preserves (untouched w0) (Agent.scan_directory_loop env files file_hashes).
Proof.
  induction files as [|file_path rest IH]; intros fh; simpl.
  - preserve.
  - destruct (Agent.should_monitor_path (config env) file_path); [|apply IH].
    apply preserves_bind; [apply calculate_file_hash_quiet|].
    intros file_hash. destruct (PyStr.truthy file_hash); [|apply IH].
    destruct file_hash; [|preserve].
    destruct (fs_getsize (fs env) file_path); [|preserve].
    destruct (fs_getmtime (fs env) file_path); [|preserve].
    apply preserves_bind; [preserve | intros ts; apply IH].
Qed.

Lemma build_all_hashes_quiet :
  preserves (untouched w0) (Agent.build_all_hashes env).
Proof.
  unfold Agent.build_all_hashes. apply preserves_for_each. intros path acc.
  unfold Agent.scan_monitored, Agent.scan_directory.
  destruct (fs_exists (fs env) path); [|preserve].
  apply preserves_bind; [|intros ?; preserve].
  apply preserves_bind; [preserve|]. intros _.
  apply preserves_bind; [apply scan_directory_loop_quiet|].
  intros r. preserve.
Qed.

Lemma agent_load_baseline_quiet : preserves (untouched w0) Agent.load_baseline.
Proof.
  unfold Agent.load_baseline. apply preserves_try_except; [|intros e; preserve].
  intros w H. unfold Agent.read_baseline_file.
  destruct (baseline_file w) as [[s|]|]; exact H.
Qed.

Lemma compare_with_baseline_quiet (current : Snapshot) :
  preserves (untouched w0) (Agent.compare_with_baseline env current).
Proof.
  unfold Agent.compare_with_baseline.
  apply preserves_bind; [apply agent_load_baseline_quiet|]. intros baseline.
  apply preserves_bind.
  - apply preserves_for_each. intros [p info] acc.
    unfold Agent.compare_current. preserve.
  - intros changes. apply preserves_for_each. intros p acc.
    unfold Agent.compare_deleted. preserve.
Qed.

Lemma check_file_quiet (baseline : Snapshot) (x : string) (changes : list Change) :
  preserves (untouched w0) (Prometheus.check_file env baseline x changes).
Proof.
  unfold Prometheus.check_file.
  apply preserves_try_except; [|intros e; preserve].
  destruct (dict_get x baseline);
    (apply preserves_bind; [apply calculate_file_hash_quiet | intros ?; preserve]).
Qed.

Lemma scan_monitored_quiet (baseline : Snapshot) (x : string) (changes : list Change) :
  preserves (untouched w0) (Prometheus.scan_monitored env baseline x changes).
Proof.
  unfold Prometheus.scan_monitored.
  destruct (negb (fs_exists (fs env) x)); [preserve|].
  destruct (fs_isfile (fs env) x).
  - destruct (negb (Prometheus.is_excluded_path (config env) x));
      [apply check_file_quiet | preserve].
  - apply preserves_for_each. intros p acc. unfold Prometheus.scan_walk.
    destruct (negb (Prometheus.is_excluded_path (config env) p));
      [apply check_file_quiet | preserve].
Qed.

Lemma scan_deleted_quiet (x : string) (changes : list Change) :
  preserves (untouched w0) (Prometheus.scan_deleted env x changes).
Proof. unfold Prometheus.scan_deleted. preserve. Qed.

End Quiet.

(* ================================================================== *)
(** * Fingerprints carried by the records *)

(** In [fim-agent.py] every record carries the fingerprints of its
    kind, read from the baseline and from the current snapshot. *)
Lemma agent_records_carry_fingerprints
    (env : Env) (current baseline : Snapshot) (w w1 w' : World)
    (changes : list Change) :
  Agent.load_baseline w = (Ok baseline, w1) ->
  Agent.compare_with_baseline env current w = (Ok changes, w') ->
  forall r, In r changes ->
    match c_type r with
    | NEW =>
        exists c, In (c_file r, c) current /\ c_hash r = Some (fi_hash c)
    | MODIFIED =>
        exists b c, dict_get (c_file r) baseline = Some b /\
                    In (c_file r, c) current /\
                    c_old_hash r = Some (fi_hash b) /\
                    c_new_hash r = Some (fi_hash c)
    | DELETED =>
        exists b, dict_get (c_file r) baseline = Some b /\
                  c_old_hash r = Some (fi_hash b)
    end.
Proof.
  intros Hload Hrun r Hr.
  destruct (run_compare_with_baseline env current w Hload)
    as (changes' & w'' & Hrun' & Hsh).
  rewrite Hrun in Hrun'. inversion Hrun'; subst changes' w''. clear Hrun'.
  apply (in_map erase) in Hr. rewrite Hsh in Hr. unfold diff_erased in Hr.
  apply in_app_or in Hr as [Hr|Hr]; apply in_flat_map in Hr as (x & Hx & Hr).
  - destruct x as [p c]. unfold diff_current in Hr. simpl in Hr.
    destruct (dict_get p baseline) as [b|] eqn:Hb.
    + destruct (negb (fi_hash c =? fi_hash b)); [|contradiction].
      destruct Hr as [Hr|[]]. destruct r; inversion Hr; subst; simpl.
      exists b, c. auto.
    + destruct Hr as [Hr|[]]. destruct r; inversion Hr; subst; simpl.
      exists c. auto.
  - unfold diff_deleted in Hr. destruct (negb (dict_mem x current)); [|contradiction].
    destruct (dict_get x baseline) as [b|] eqn:Hb; [|contradiction].
    destruct Hr as [Hr|[]]. destruct r; inversion Hr; subst; simpl.
    exists b. auto.
Qed.

(** C7.  On a baseline of [a.txt], [b.txt], [c.txt] and a file
    population where [a.txt] changed, [d.txt] appeared and [c.txt] is
    gone, the Prometheus agent reports [c.txt] as DELETED with no
    fingerprint at all, where [fim-agent.py] reports it with the
    fingerprint the baseline held; the MODIFIED records of both carry
    the old and the new fingerprint. *)
Theorem prometheus_deleted_record_lacks_fingerprint :
  fst (Prometheus.scan_files_detect Sample.env Sample.world) =
    Ok (Sample.baseline,
        [mkChange MODIFIED "/data/a.txt" None (Some "h1") (Some "h1x") "t0";
         mkChange NEW "/data/d.txt" (Some "h4") None None "t1";
         mkChange DELETED "/data/c.txt" None None None "t2"]) /\
  fst (Agent.compare_with_baseline Sample.env Sample.current Sample.world) =
    Ok [mkChange MODIFIED "/data/a.txt" None (Some "h1") (Some "h1x") "t0";
        mkChange NEW "/data/d.txt" (Some "h4") None None "t1";
        mkChange DELETED "/data/c.txt" None (Some "h3") None "t2"].
Proof. split; reflexivity. Qed.

(* ================================================================== *)
(** * Replacing the baseline *)

Lemma save_baseline_run (s : Snapshot) (w : World) :
  fst (Agent.save_baseline s w) =
    match faults w with
    | true :: _ => Raise OSError
    | _ => Ok tt
    end /\
  baseline_file (snd (Agent.save_baseline s w)) =
    match faults w with
    | true :: _ | false :: true :: _ => baseline_file w
    | false :: false :: true :: _ => Some Torn
    | _ => Some (Complete s)
    end.
Proof.
  unfold Agent.save_baseline, try_except, makedirs, bind, open_w_baseline,
    json_dump_baseline, next_fault, bind, raise, ret, logger.
  destruct w as [b r l t f]. simpl.
  destruct f as [|[] [|[] [|[] f]]]; simpl; split; reflexivity.
Qed.

Lemma create_baseline_persists (env : Env) (w w' : World) (s : Snapshot) :
  Prometheus.create_baseline env w = (Ok s, w') ->
  baseline_file w' = Some (Complete s).
Proof.
  unfold Prometheus.create_baseline. intros Hrun.
  apply bind_ok in Hrun as (_ & w1 & _ & Hrun).
  apply bind_ok in Hrun as (baseline & w2 & _ & Hrun).
  apply bind_ok in Hrun as (_ & wd & _ & Hrun).
  apply bind_ok in Hrun as (_ & w3 & _ & Hrun).
  apply bind_ok in Hrun as (u & w4 & Hdump & Hrun).
  apply bind_ok in Hrun as (u' & w5 & Hlog & Hret).
  unfold ret in Hret. injection Hret as Hs Hw'.
  unfold logger in Hlog. injection Hlog as _ Hw5.
  unfold json_dump_baseline in Hdump.
  apply bind_ok in Hdump as (f & w6 & _ & Hdump).
  destruct f; [discriminate|]. injection Hdump as _ Hw4.
  rewrite <- Hw', <- Hw5, <- Hw4, Hs. reflexivity.
Qed.




(* ================================================================== *)
(** * The report file *)

(** The loggers that open [report_changes] leave the files, the pending
    write outcomes and the clock as they are. *)
Lemma report_changes_announce (changes : list Change) (w : World) :
  exists w1,
    (logger WARNING (MsgDetected (List.length changes)) ;;
     for_each (fun change (_ : unit) =>
                 logger WARNING (MsgChange (c_type change) (c_file change)))
              changes tt) w = (Ok tt, w1) /\
    baseline_file w1 = baseline_file w /\ report_file w1 = report_file w /\
    faults w1 = faults w /\ ticks w1 = ticks w /\
    alerts w1 = alerts w /\ saves w1 = saves w /\ creations w1 = creations w.
Proof.
  set (m := (logger WARNING (MsgDetected (List.length changes)) ;;
             for_each (fun change (_ : unit) =>
                 logger WARNING (MsgChange (c_type change) (c_file change)))
              changes tt)).
  assert (Ht : total m) by (unfold m; totality).
  destruct (Ht w) as ([] & w1 & Hrun). exists w1. split; [exact Hrun|].
  assert (Hp : preserves (fun w' =>
                 baseline_file w' = baseline_file w /\
                 report_file w' = report_file w /\
                 faults w' = faults w /\ ticks w' = ticks w /\
                 alerts w' = alerts w /\ saves w' = saves w /\
                 creations w' = creations w) m)
    by (unfold m; preserve).
  specialize (Hp w). rewrite Hrun in Hp. apply Hp. repeat split.
Qed.

(** [report_changes] announces the changes, then appends the report. *)
Lemma report_changes_split (env : Env) (c : Change) (cs : list Change) (w : World) :
  exists w1,
    Agent.report_changes env (c :: cs) w
      = Agent.append_to_reports env (c :: cs) w1 /\
    baseline_file w1 = baseline_file w /\ report_file w1 = report_file w /\
    faults w1 = faults w /\ ticks w1 = ticks w /\
    alerts w1 = alerts w /\ saves w1 = saves w /\ creations w1 = creations w.
Proof.
  destruct (report_changes_announce (c :: cs) w) as (w1 & Hrun & Hkeep).
  exists w1. split; [|exact Hkeep].
  unfold Agent.report_changes. unfold bind at 1. unfold bind at 1 in Hrun.
  destruct (logger WARNING (MsgDetected (List.length (c :: cs))) w)
    as [[[]|e] w0]; [|discriminate].
  unfold bind at 1. rewrite Hrun. reflexivity.
Qed.

Lemma agent_report_appended (env : Env) (changes : list Change) (w : World)
    (earlier : list Report) :
  changes <> [] ->
  writes_succeed 2 w = true ->
  report_file w = Some (Complete (RList earlier)) \/
    (report_file w = None /\ earlier = []) ->
  report_file (snd (Agent.report_changes env changes w)) =
    Some (Complete (RList (earlier ++
            [mkReport (clock env (ticks w)) changes (List.length changes)]))).
Proof.
  intros Hne Hw Hfile.
  destruct changes as [|c cs]; [congruence|]. clear Hne.
  destruct (report_changes_split env c cs w)
    as (w1 & -> & _ & Hrep & Hf & Ht & _).
  unfold writes_succeed in Hw. rewrite <- Hf in Hw. rewrite <- Ht.
  rewrite <- Hrep in Hfile.
  unfold Agent.append_to_reports, try_except, bind, now,
    Agent.read_report_file, Agent.append_report,
    open_w_report, json_dump_report, next_fault, bind, raise, ret.
  destruct w1 as [b r l t f]. simpl in *.
  destruct Hfile as [-> | [-> ->]];
    destruct f as [|[] [|[] f]]; simpl in Hw; try discriminate; reflexivity.
Qed.

Lemma prometheus_report_replaced (env : Env) (changes : list Change) (w : World) :
  writes_succeed 2 w = true ->
  report_file (snd (Prometheus.save_report env changes w)) =
    Some (Complete (RSingle
            (mkReport (clock env (ticks w)) changes (List.length changes)))).
Proof.
  intros Hw. unfold writes_succeed in Hw.
  unfold Prometheus.save_report, try_except, bind, now, open_w_report,
    json_dump_report, next_fault, bind, raise, ret.
  destruct w as [b r l t f]. simpl in *.
  destruct f as [|[] [|[] f]]; simpl in Hw; try discriminate; reflexivity.
Qed.

(** C8, as the code has it.  When the report of a cycle with changes is
    written: in [fim-agent.py] the report file, read as a list of
    earlier reports (none when the file does not exist), is written back
    with the earlier reports unchanged and the new report after them; in
    the Prometheus agent the file then holds the new report only,
    whatever it held before. *)
Theorem report_appended_or_replaced
    (env : Env) (changes : list Change) (w : World) (earlier : list Report) :
  changes <> [] ->
  writes_succeed 2 w = true ->
  (report_file w = Some (Complete (RList earlier)) \/
     (report_file w = None /\ earlier = []) ->
   report_file (snd (Agent.report_changes env changes w)) =
     Some (Complete (RList (earlier ++
             [mkReport (clock env (ticks w)) changes (List.length changes)])))) /\
  report_file (snd (Prometheus.save_report env changes w)) =
    Some (Complete (RSingle
            (mkReport (clock env (ticks w)) changes (List.length changes)))).
Proof.
  intros Hne Hw. split.
  - intros Hfile. apply agent_report_appended; assumption.
  - apply prometheus_report_replaced. exact Hw.
Qed.

Lemma report_appended_or_replaced_witness :
  report_file
    (snd (Agent.report_changes Sample.env Sample.earlier_report.(r_changes)
            (set_report_file (Some (Complete (RList [Sample.earlier_report])))
                             Sample.world))) =
  Some (Complete (RList
          [Sample.earlier_report;
           mkReport "t0" Sample.earlier_report.(r_changes) 1])).
Proof.
  destruct (@report_appended_or_replaced Sample.env
              Sample.earlier_report.(r_changes)
              (set_report_file (Some (Complete (RList [Sample.earlier_report])))
                               Sample.world)
              [Sample.earlier_report]) as [Happend _].
  - discriminate.
  - reflexivity.
  - apply Happend. left. reflexivity.
Defined.

(** C8 as stated fails: the Prometheus agent writes the report of a
    cycle over the report of the earlier cycle, which is then gone. *)
Lemma save_report_drops_earlier_report :
  In Sample.earlier_report (reports_of (report_file Sample.reported_world)) /\
  reports_of
    (report_file
       (snd (Prometheus.save_report Sample.env
               [mkChange DELETED "/data/c.txt" None None None "t2"]
               Sample.reported_world)))
    = [mkReport "t0" [mkChange DELETED "/data/c.txt" None None None "t2"] 1] /\
  ~ In Sample.earlier_report
      (reports_of
         (report_file
            (snd (Prometheus.save_report Sample.env
                    [mkChange DELETED "/data/c.txt" None None None "t2"]
                    Sample.reported_world)))).
Proof.
  split; [left; reflexivity|]. split; [reflexivity|].
  simpl. intros [H|[]]. discriminate.
Qed.

(* ================================================================== *)
(** * Loading when no baseline is persisted *)

Lemma agent_load_without_baseline (w : World) :
  baseline_file w = None -> Agent.load_baseline w = (Ok [], w).
Proof.
  intros H. unfold Agent.load_baseline, try_except, Agent.read_baseline_file.
  rewrite H. reflexivity.
Qed.

Lemma diff_erased_bootstrap (current : Snapshot) :
  diff_erased [] current =
  map (fun item => mkChange NEW (fst item) (Some (fi_hash (snd item)))
                     None None EmptyString) current.
Proof.
  unfold diff_erased. simpl. rewrite app_nil_r.
  induction current as [|[p c] rest IH]; simpl; [reflexivity|].
  rewrite IH. reflexivity.
Qed.

(** Against an absent baseline every current path is NEW, in order. *)
Lemma agent_compare_without_baseline (env : Env) (current : Snapshot) (w : World) :
  baseline_file w = None ->
  exists changes w',
    Agent.compare_with_baseline env current w = (Ok changes, w') /\
    map c_file changes = dict_keys current /\
    Forall (fun r => c_type r = NEW) changes.
Proof.
  intros Hnone.
  destruct (run_compare_with_baseline env current w
              (agent_load_without_baseline w Hnone))
    as (changes & w' & Hrun & Hsh).
  exists changes, w'. split; [exact Hrun|].
  rewrite diff_erased_bootstrap in Hsh. split.
  - assert (E : map c_file changes = map c_file (map erase changes))
      by (rewrite map_map; reflexivity).
    rewrite E, Hsh, map_map. reflexivity.
  - apply Forall_forall. intros r Hr.
    apply (in_map erase) in Hr. rewrite Hsh in Hr.
    apply in_map_iff in Hr as (item & Hitem & _).
    destruct r; inversion Hitem; reflexivity.
Qed.

Lemma prometheus_load_without_baseline (env : Env) (w : World) :
  baseline_file w = None ->
  Prometheus.load_baseline env w =
  Prometheus.create_baseline env (snd (logger INFO MsgNoBaselineFound w)).
Proof.
  intros H. unfold Prometheus.load_baseline. rewrite H. reflexivity.
Qed.

(** C3, as the code has it.  With no baseline persisted:
    [load_baseline] of [fim-agent.py] returns the empty snapshot and
    leaves the world as it is, and [compare_with_baseline] then reports
    every path of the current snapshot as NEW and none as DELETED;
    [load_baseline] of the Prometheus agent instead runs
    [create_baseline], and the baseline it returns is the one it has
    just persisted. *)
Theorem load_without_baseline (env : Env) (w : World) :
  baseline_file w = None ->
  Agent.load_baseline w = (Ok [], w) /\
  (forall current, exists changes w',
      Agent.compare_with_baseline env current w = (Ok changes, w') /\
      map c_file changes = dict_keys current /\
      Forall (fun r => c_type r = NEW) changes) /\
  Prometheus.load_baseline env w =
    Prometheus.create_baseline env (snd (logger INFO MsgNoBaselineFound w)) /\
  (forall s w', Prometheus.load_baseline env w = (Ok s, w') ->
                baseline_file w' = Some (Complete s)).
Proof.
  intros Hnone. split; [apply agent_load_without_baseline; exact Hnone|].
  split; [intros current; apply agent_compare_without_baseline; exact Hnone|].
  split; [apply prometheus_load_without_baseline; exact Hnone|].
  intros s w' Hrun. rewrite prometheus_load_without_baseline in Hrun by exact Hnone.
  eapply create_baseline_persists; eauto.
Qed.

Lemma load_without_baseline_witness :
  Agent.load_baseline Sample.empty_world = (Ok [], Sample.empty_world) /\
  (forall current, exists changes w',
      Agent.compare_with_baseline Sample.env current Sample.empty_world
        = (Ok changes, w') /\
      map c_file changes = dict_keys current /\
      Forall (fun r => c_type r = NEW) changes) /\
  Prometheus.load_baseline Sample.env Sample.empty_world =
    Prometheus.create_baseline Sample.env
      (snd (logger INFO MsgNoBaselineFound Sample.empty_world)) /\
  (forall s w', Prometheus.load_baseline Sample.env Sample.empty_world = (Ok s, w') ->
                baseline_file w' = Some (Complete s)).
Proof.
  apply (@load_without_baseline Sample.env Sample.empty_world). reflexivity.
Defined.

(** C3 as stated fails: with no baseline persisted and three readable
    files under the monitored root, [load_baseline] of the Prometheus
    agent returns a baseline of the three files, not the empty one, and
    has written it to the baseline file. *)
Lemma prometheus_load_builds_baseline :
  baseline_file Sample.empty_world = None /\
  fst (Prometheus.load_baseline Sample.env Sample.empty_world) =
    Ok [("/data/a.txt", mkFileInfo "h1x" 5 1700000000 None (Some "file"));
        ("/data/b.txt", mkFileInfo "h2" 5 1700000000 None (Some "file"));
        ("/data/d.txt", mkFileInfo "h4" 5 1700000000 None (Some "file"))] /\
  fst (Prometheus.load_baseline Sample.env Sample.empty_world) <> Ok [] /\
  baseline_file (snd (Prometheus.load_baseline Sample.env Sample.empty_world)) =
    Some (Complete
      [("/data/a.txt", mkFileInfo "h1x" 5 1700000000 None (Some "file"));
       ("/data/b.txt", mkFileInfo "h2" 5 1700000000 None (Some "file"));
       ("/data/d.txt", mkFileInfo "h4" 5 1700000000 None (Some "file"))]).
Proof. repeat split; try reflexivity. discriminate. Qed.

(* ================================================================== *)
(** * A cycle of [fim-agent.py] *)

Section AgentCycle.
Variable env : Env.

Lemma scan_directory_loop_total (files : list string) :
  forall file_hashes, total (Agent.scan_directory_loop env files file_hashes).
Proof.
  induction files as [|file_path rest IH]; intros fh; simpl.
  - totality.
  - destruct (Agent.should_monitor_path (config env) file_path); [|apply IH].
    apply total_bind; [totality|]. intros file_hash.
    destruct (PyStr.truthy file_hash); [|apply IH].
    destruct file_hash; [|totality].
    destruct (fs_getsize (fs env) file_path); [|totality].
    destruct (fs_getmtime (fs env) file_path); [|totality].
    apply total_bind; [totality | intros ts; apply IH].
Qed.

Lemma build_all_hashes_total : total (Agent.build_all_hashes env).
Proof.
  unfold Agent.build_all_hashes. apply total_for_each. intros path acc.
  unfold Agent.scan_monitored, Agent.scan_directory.
  destruct (fs_exists (fs env) path); [|totality].
  apply total_bind; [|intros ?; totality].
  apply total_bind; [totality|]. intros _.
  apply total_bind; [apply scan_directory_loop_total|].
  intros r. totality.
Qed.

Lemma compare_with_baseline_total (current : Snapshot) :
  total (Agent.compare_with_baseline env current).
Proof.
  intros w. destruct (load_baseline_total w) as (baseline & w1 & Hload).
  destruct (run_compare_with_baseline env current w Hload)
    as (changes & w' & Hrun & _).
  eauto.
Qed.

Lemma report_changes_total (changes : list Change) :
  total (Agent.report_changes env changes).
Proof. unfold Agent.report_changes, Agent.append_to_reports. totality. Qed.

(** Writing the report touches neither the baseline file nor the counts
    of alerts and baseline writes. *)
Lemma report_changes_keeps (changes : list Change) (w w' : World) :
  snd (Agent.report_changes env changes w) = w' ->
  baseline_file w' = baseline_file w /\
  alerts w' = alerts w /\ saves w' = saves w /\ creations w' = creations w.
Proof.
  destruct changes as [|c cs]; [intros <-; repeat split|].
  destruct (report_changes_split env c cs w)
    as (w1 & -> & Hb & _ & _ & _ & Ha & Hs & Hc).
  rewrite <- Hb, <- Ha, <- Hs, <- Hc. intros <-. clear.
  unfold Agent.append_to_reports, try_except, bind, now,
    Agent.read_report_file, Agent.append_report,
    open_w_report, json_dump_report, next_fault, bind, raise, ret, logger,
    alerts, saves, creations.
  destruct w1 as [b r l t f]. simpl.
  destruct r as [[[rl|rs]|]|]; simpl;
    try (destruct f as [|[] [|[] f]]; simpl);
    rewrite ?count_log_snoc; simpl; rewrite ?Nat.add_0_r; repeat split.
Qed.

(** [save_baseline] leaves its trace in the log, once, unless the
    directory cannot be created. *)
Lemma save_baseline_trace (s : Snapshot) (w : World) :
  let w' := snd (Agent.save_baseline s w) in
  alerts w' = alerts w /\
  saves w' = match faults w with
             | true :: _ => saves w
             | _ => S (saves w)
             end /\
  report_file w' = report_file w.
Proof.
  unfold Agent.save_baseline, try_except, makedirs, bind, open_w_baseline,
    json_dump_baseline, next_fault, bind, raise, ret, logger, alerts, saves.
  destruct w as [b r l t f]. simpl.
  destruct f as [|[] [|[] [|[] f]]]; simpl; rewrite ?count_log_snoc; simpl;
    repeat split; lia.
Qed.

(** The end of a cycle, from [save_baseline] on: the cycle raises
    exactly when the directory of the baseline file cannot be created. *)
Lemma perform_scan_end (s : Snapshot) (w : World) :
  let r := (Agent.save_baseline s ;;
            logger INFO (MsgScanCompleted (List.length s))) w in
  fst r = match faults w with
          | true :: _ => Raise OSError
          | _ => Ok tt
          end /\
  baseline_file (snd r) =
    match faults w with
    | true :: _ | false :: true :: _ => baseline_file w
    | false :: false :: true :: _ => Some Torn
    | _ => Some (Complete s)
    end /\
  alerts (snd r) = alerts w /\
  saves (snd r) = match faults w with
                  | true :: _ => saves w
                  | _ => S (saves w)
                  end /\
  report_file (snd r) = report_file w.
Proof.
  pose proof (save_baseline_run s w) as [Hok Hfile].
  pose proof (save_baseline_trace s w) as (Ha & Hs & Hr).
  simpl in Ha, Hs, Hr. simpl. unfold bind.
  destruct (Agent.save_baseline s w) as [[[]|e] w4]; simpl in *.
  - unfold alerts, saves in *. simpl. rewrite !count_log_snoc. simpl.
    rewrite !Nat.add_0_r. repeat split; assumption.
  - repeat split; assumption.
Qed.

(** One cycle up to [save_baseline]: the snapshot built, the changes
    found, and the world in which the baseline is about to be saved. *)
Lemma perform_scan_run (w : World) :
  exists (all_hashes : Snapshot) (changes : list Change) (w1 w2 w3 : World),
    Agent.build_all_hashes env (snd (logger INFO MsgStartingScan w))
      = (Ok all_hashes, w1) /\
    Agent.compare_with_baseline env all_hashes w1 = (Ok changes, w2) /\
    cycle_reaction env changes w2 = (Ok tt, w3) /\
    Agent.perform_scan env w =
      (Agent.save_baseline all_hashes ;;
       logger INFO (MsgScanCompleted (List.length all_hashes))) w3 /\
    untouched w w2 /\
    baseline_file w3 = baseline_file w /\
    alerts w3 =
      (alerts w + if negb (Nat.eqb (List.length changes) 0)
                     && alert_on_change (config env) then 1 else 0)%nat /\
    saves w3 = saves w /\
    (changes = [] -> w3 = w2).
Proof.
  set (w0 := snd (logger INFO MsgStartingScan w)).
  assert (H0 : untouched w w0).
  { unfold w0, untouched, alerts, creations, saves. simpl.
    rewrite !count_log_snoc. simpl. rewrite !Nat.add_0_r. repeat split. }
  destruct (build_all_hashes_total w0) as (s & w1 & Hbuild).
  assert (H1 : untouched w w1).
  { pose proof (@build_all_hashes_quiet env w w0 H0) as H.
    rewrite Hbuild in H. exact H. }
  destruct (compare_with_baseline_total s w1) as (changes & w2 & Hcmp).
  assert (H2 : untouched w w2).
  { pose proof (@compare_with_baseline_quiet env w s w1 H1) as H.
    rewrite Hcmp in H. exact H. }
  assert (Hreact : exists w3,
             cycle_reaction env changes w2 = (Ok tt, w3) /\
             baseline_file w3 = baseline_file w2 /\
             alerts w3 =
               (alerts w2 + if negb (Nat.eqb (List.length changes) 0)
                               && alert_on_change (config env)
                            then 1 else 0)%nat /\
             saves w3 = saves w2 /\
             (changes = [] -> w3 = w2)).
  { unfold cycle_reaction. destruct changes as [|c cs].
    - exists w2. simpl. rewrite Nat.add_0_r. repeat split.
    - destruct (report_changes_total (c :: cs) w2) as ([] & w3 & Hrep).
      assert (Hk : snd (Agent.report_changes env (c :: cs) w2) = w3)
        by (rewrite Hrep; reflexivity).
      apply report_changes_keeps in Hk as (Hb & Ha & Hs & _).
      unfold bind. rewrite Hrep. simpl negb. simpl andb.
      destruct (alert_on_change (config env)).
      + eexists. split; [reflexivity|].
        unfold alerts, saves in *. simpl. rewrite !count_log_snoc. simpl.
        rewrite Ha, Hs. repeat split; try lia; try assumption. discriminate.
      + exists w3. unfold ret. rewrite Nat.add_0_r.
        repeat split; try assumption. discriminate. }
  destruct Hreact as (w3 & Hreact & Hb3 & Ha3 & Hs3 & Hsame).
  destruct H2 as (Hb2 & Hr2 & Hf2 & Ha2 & Hc2 & Hs2).
  exists s, changes, w1, w2, w3.
  split; [exact Hbuild|]. split; [exact Hcmp|]. split; [exact Hreact|]. split.
  { unfold Agent.perform_scan. unfold bind at 1.
    change (logger INFO MsgStartingScan w) with (Ok tt, w0).
    unfold bind at 1. rewrite Hbuild.
    unfold bind at 1. rewrite Hcmp.
    unfold bind at 1. unfold cycle_reaction in Hreact. rewrite Hreact.
    reflexivity. }
  split; [repeat split; assumption|].
  split; [congruence|]. split; [rewrite Ha3, Ha2; reflexivity|].
  split; [congruence | exact Hsame].
Qed.

End AgentCycle.

(* ================================================================== *)
(** * A cycle of the Prometheus agent *)

(** A write step leaves the log as it is. *)
Ltac keep_write :=
  let w := fresh "w" in
  let H := fresh "H" in
  intros w H;
  unfold makedirs, open_w_baseline, json_dump_baseline, open_w_report,
    json_dump_report, next_fault, bind, raise, ret, alerts, creations, saves in *;
  destruct w as [? ? ? ? [|[] ?]]; simpl in *; exact H.

Section PrometheusCycle.
Variable env : Env.

Lemma create_baseline_keeps_alerts (n : nat) :
  preserves (fun w => alerts w = n) (Prometheus.create_baseline env).
Proof.
  unfold Prometheus.create_baseline.
  apply preserves_bind; [preserve|]. intros _.
  apply preserves_bind.
  - apply preserves_for_each. intros path acc.
    assert (Hrec : forall p b,
               preserves (fun w => alerts w = n) (Prometheus.record_file env p b)).
    { intros p b. unfold Prometheus.record_file, calculate_file_hash,
        Prometheus.baseline_entry. preserve. }
    unfold Prometheus.baseline_monitored.
    destruct (negb (fs_exists (fs env) path)); [preserve|].
    destruct (fs_isfile (fs env) path).
    + destruct (negb (Prometheus.is_excluded_path (config env) path));
        [apply Hrec | preserve].
    + apply preserves_for_each. intros p b. unfold Prometheus.baseline_walk.
      destruct (negb (Prometheus.is_excluded_path (config env) p)); [|preserve].
      apply preserves_try_except; [apply Hrec | intros e; preserve].
  - intros baseline.
    apply preserves_bind; [keep_write|]. intros _.
    apply preserves_bind; [keep_write|]. intros _.
    apply preserves_bind; [keep_write|]. intros _.
    preserve.
Qed.

Lemma load_baseline_keeps_alerts (n : nat) :
  preserves (fun w => alerts w = n) (Prometheus.load_baseline env).
Proof.
  intros w H. unfold Prometheus.load_baseline.
  destruct (baseline_file w) as [[b|]|].
  - unfold try_except, bind, logger, ret, alerts in *. simpl.
    rewrite count_log_snoc. simpl. lia.
  - unfold try_except, bind, logger, ret, raise, alerts in *. simpl.
    rewrite count_log_snoc. simpl. lia.
  - revert w H.
    change (preserves (fun w => alerts w = n)
              (logger INFO MsgNoBaselineFound ;; Prometheus.create_baseline env)).
    apply preserves_bind; [preserve | intros _; apply create_baseline_keeps_alerts].
Qed.

(** With a baseline file in place, loading it leaves the store alone. *)
Lemma load_baseline_existing (w : World) (content : Stored Snapshot) :
  baseline_file w = Some content ->
  exists baseline w1,
    Prometheus.load_baseline env w = (Ok baseline, w1) /\ untouched w w1.
Proof.
  intros H. unfold Prometheus.load_baseline. rewrite H.
  destruct content as [b|];
    unfold try_except, bind, logger, ret, raise; simpl;
    eexists _, _; (split; [reflexivity|]);
    unfold untouched, alerts, creations, saves; simpl;
    rewrite !count_log_snoc; simpl; rewrite !Nat.add_0_r; repeat split.
Qed.

Lemma detect_loops_quiet (w0 : World) (baseline : Snapshot) :
  preserves (untouched w0) (Prometheus.detect_loops env baseline).
Proof.
  unfold Prometheus.detect_loops.
  apply preserves_bind.
  - apply preserves_for_each. intros x acc. apply scan_monitored_quiet.
  - intros changes. apply preserves_bind; [|intros ?; preserve].
    apply preserves_for_each. intros x acc. apply scan_deleted_quiet.
Qed.

Lemma scan_files_detect_quiet (w : World) (content : Stored Snapshot) :
  baseline_file w = Some content ->
  untouched w (snd (Prometheus.scan_files_detect env w)).
Proof.
  intros H. destruct (load_baseline_existing w H) as (b & w1 & Hload & Hu).
  unfold Prometheus.scan_files_detect. unfold bind at 1. rewrite Hload.
  apply (@detect_loops_quiet w b w1 Hu).
Qed.

Lemma scan_files_detect_keeps_alerts (n : nat) :
  preserves (fun w => alerts w = n) (Prometheus.scan_files_detect env).
Proof.
  unfold Prometheus.scan_files_detect.
  apply preserves_bind; [apply load_baseline_keeps_alerts|]. intros baseline.
  intros w H.
  pose proof (@detect_loops_quiet w baseline w (untouched_refl w)) as Hq.
  destruct Hq as (_ & _ & _ & Ha & _).
  rewrite Ha. exact H.
Qed.

Lemma save_and_update_keep_alerts (changes : list Change) (n : nat) :
  preserves (fun w => alerts w = n)
    (Prometheus.save_report env changes ;; Prometheus.update_baseline env).
Proof.
  apply preserves_bind.
  - unfold Prometheus.save_report.
    apply preserves_bind; [preserve|]. intros ts.
    apply preserves_try_except; [|intros e; preserve].
    apply preserves_bind; [keep_write | intros _; keep_write].
  - intros _. unfold Prometheus.update_baseline.
    apply preserves_bind; [preserve|]. intros _.
    apply preserves_bind; [apply create_baseline_keeps_alerts|].
    intros _. preserve.
Qed.

(** What [scan_files] does with the changes it found: one alert when
    there is a change and the number of changes reaches the threshold. *)
Lemma scan_files_react_alerts (baseline : Snapshot) (changes : list Change)
    (w : World) :
  alerts (snd (Prometheus.scan_files_react env baseline changes w)) =
  (alerts w +
   if negb (Nat.eqb (List.length changes) 0)
      && (Z.of_nat (List.length changes) >=? alert_threshold (config env))%Z
   then 1 else 0)%nat.
Proof.
  unfold Prometheus.scan_files_react. destruct changes as [|c cs].
  - unfold bind, ret, logger, alerts. simpl. rewrite count_log_snoc. reflexivity.
  - simpl negb. simpl andb.
    set (cond := (Z.of_nat (List.length (c :: cs))
                    >=? alert_threshold (config env))%Z).
    set (Q := fun w' : World =>
                alerts w' = (alerts w + if cond then 1 else 0)%nat).
    set (P := fun w' : World => alerts w' = alerts w).
    apply (@run_bind_then _ _ _ _ Q); [|intros a; unfold Q; preserve].
    apply (@run_bind_total _ _ _ _ P P Q);
      [totality | unfold P; keep_log | | reflexivity].
    intros _ w1 H1.
    apply (@run_bind_total _ _ _ _ P P Q); [totality | | | exact H1].
    { apply preserves_for_each. intros change u. unfold P. preserve. }
    intros _ w2 H2.
    apply (@run_bind_total _ _ _ _ P Q Q); [destruct cond; totality | | | exact H2].
    { intros w3 H3. unfold P, Q in *. destruct cond.
      - unfold logger, alerts in *. simpl. rewrite count_log_snoc. simpl. lia.
      - unfold ret. simpl. lia. }
    intros _ w3 H3.
    exact (@save_and_update_keep_alerts (c :: cs) _ w3 H3).
Qed.

(** The alerts of a cycle whose detection phase returned. *)
Lemma scan_files_alerts (w w1 : World) (baseline : Snapshot)
    (changes : list Change) :
  Prometheus.scan_files_detect env w = (Ok (baseline, changes), w1) ->
  alerts (snd (Prometheus.scan_files env w)) =
  (alerts w +
   if negb (Nat.eqb (List.length changes) 0)
      && (Z.of_nat (List.length changes) >=? alert_threshold (config env))%Z
   then 1 else 0)%nat.
Proof.
  intros Hdet.
  assert (Ha : alerts w1 = alerts w).
  { pose proof (@scan_files_detect_keeps_alerts (alerts w) w eq_refl) as H.
    rewrite Hdet in H. exact H. }
  unfold Prometheus.scan_files, bind. rewrite Hdet. simpl fst. simpl snd.
  rewrite scan_files_react_alerts, Ha. reflexivity.
Qed.

(** A cycle that finds the baseline file and no change leaves the store
    alone. *)
Lemma scan_files_untouched (w w1 : World) (content : Stored Snapshot)
    (baseline : Snapshot) :
  baseline_file w = Some content ->
  Prometheus.scan_files_detect env w = (Ok (baseline, []), w1) ->
  exists w', Prometheus.scan_files env w = (Ok tt, w') /\ untouched w w'.
Proof.
  intros Hfile Hdet.
  pose proof (scan_files_detect_quiet w Hfile) as Hq. rewrite Hdet in Hq.
  simpl in Hq.
  unfold Prometheus.scan_files, bind. rewrite Hdet. simpl.
  eexists. split; [reflexivity|].
  destruct Hq as (Hb & Hr & Hf & Ha & Hc & Hs).
  unfold untouched, alerts, creations, saves in *. simpl.
  rewrite !count_log_snoc. simpl. rewrite !Nat.add_0_r. repeat split; assumption.
Qed.

End PrometheusCycle.

(* ================================================================== *)
(** * Alerts *)

(** C6, as the code has it.  In the Prometheus agent a cycle whose
    detection phase returned logs the high-severity alert exactly when
    it found at least one change and the number of changes is at least
    the configured threshold; in [fim-agent.py], which has no threshold,
    every cycle, whether it completes or is ended by the exception of
    [save_baseline], logs the alert exactly when it found at least one
    change and [alert_on_change] is set. *)
Theorem alert_when_changes_reach_threshold (env : Env) (w : World) :
  (forall baseline changes w1,
      Prometheus.scan_files_detect env w = (Ok (baseline, changes), w1) ->
      alerts (snd (Prometheus.scan_files env w)) =
      (alerts w +
       if negb (Nat.eqb (List.length changes) 0)
          && (Z.of_nat (List.length changes) >=? alert_threshold (config env))%Z
       then 1 else 0)%nat) /\
  (exists all_hashes changes w1 w2,
      Agent.build_all_hashes env (snd (logger INFO MsgStartingScan w))
        = (Ok all_hashes, w1) /\
      Agent.compare_with_baseline env all_hashes w1 = (Ok changes, w2) /\
      alerts (snd (Agent.perform_scan env w)) =
      (alerts w +
       if negb (Nat.eqb (List.length changes) 0) && alert_on_change (config env)
       then 1 else 0)%nat).
Proof.
  split.
  - intros baseline changes w1 Hdet. eapply scan_files_alerts; eauto.
  - destruct (perform_scan_run env w)
      as (s & changes & w1 & w2 & w3 & Hb & Hc & _ & Hrun & _ & _ & Ha & _).
    exists s, changes, w1, w2.
    split; [exact Hb|]. split; [exact Hc|].
    destruct (perform_scan_end s w3) as (_ & _ & Hend & _).
    rewrite Hrun. simpl in Hend. rewrite Hend. exact Ha.
Qed.

(** With threshold 10, a cycle with 11 changes logs the alert and a
    cycle with 9 changes does not. *)
Lemma alert_when_changes_reach_threshold_witness :
  alerts (snd (Prometheus.scan_files (Sample.crowd_env 11) Sample.blank_world)) = 1%nat /\
  alerts (snd (Prometheus.scan_files (Sample.crowd_env 9) Sample.blank_world)) = 0%nat.
Proof.
  split.
  - destruct (alert_when_changes_reach_threshold (Sample.crowd_env 11)
                Sample.blank_world) as [H _].
    erewrite H; [|reflexivity]. reflexivity.
  - destruct (alert_when_changes_reach_threshold (Sample.crowd_env 9)
                Sample.blank_world) as [H _].
    erewrite H; [|reflexivity]. reflexivity.
Defined.

(** C6 as stated fails on both sides: with threshold 0 a cycle of the
    Prometheus agent without changes has a change count that reaches
    the threshold and logs no alert; with threshold 10 configured a
    cycle of [fim-agent.py] that reports 9 changes logs the alert. *)
Lemma alert_not_decided_by_threshold_alone :
  (fst (Prometheus.scan_files_detect Sample.zero_threshold_env
          Sample.settled_world) = Ok (Sample.settled, []) /\
   (Z.of_nat (List.length (@nil Change))
      >=? alert_threshold (config Sample.zero_threshold_env))%Z = true /\
   alerts (snd (Prometheus.scan_files Sample.zero_threshold_env
                  Sample.settled_world)) = 0%nat) /\
  (map r_total_changes
     (reports_of
        (report_file
           (snd (Agent.perform_scan (Sample.crowd_env 9) Sample.empty_world))))
     = [9%nat] /\
   (Z.of_nat 9 >=? alert_threshold (config (Sample.crowd_env 9)))%Z = false /\
   alerts (snd (Agent.perform_scan (Sample.crowd_env 9) Sample.empty_world))
     = 1%nat).
Proof. repeat split; vm_compute; reflexivity. Qed.

(* ================================================================== *)
(** * The baseline after a cycle without changes *)

(** C2, as the code has it.  A cycle of the Prometheus agent that finds
    a baseline file and no change completes and leaves the store alone:
    both files are as they were, no write step was attempted and
    [create_baseline] was not entered.  A cycle of [fim-agent.py]
    reaches [save_baseline], changes or not, with the baseline file as
    the cycle found it and, when there is no change, with the write
    steps still to come.  It raises exactly when the directory of the
    baseline file cannot be created, and then leaves the file as it was
    and no trace of a save; otherwise it completes with one more save
    in the log, and the file holds the fresh snapshot when the write
    succeeds, is torn when the dump fails, and is as it was when the
    file cannot be opened. *)
Theorem baseline_after_cycle (env : Env) (w : World) :
  (forall content baseline w1,
      baseline_file w = Some content ->
      Prometheus.scan_files_detect env w = (Ok (baseline, []), w1) ->
      exists w', Prometheus.scan_files env w = (Ok tt, w') /\ untouched w w') /\
  (exists all_hashes changes w1 w2 w3,
      Agent.build_all_hashes env (snd (logger INFO MsgStartingScan w))
        = (Ok all_hashes, w1) /\
      Agent.compare_with_baseline env all_hashes w1 = (Ok changes, w2) /\
      cycle_reaction env changes w2 = (Ok tt, w3) /\
      baseline_file w3 = baseline_file w /\
      (changes = [] -> faults w3 = faults w) /\
      fst (Agent.perform_scan env w) =
        match faults w3 with
        | true :: _ => Raise OSError
        | _ => Ok tt
        end /\
      saves (snd (Agent.perform_scan env w)) =
        match faults w3 with
        | true :: _ => saves w
        | _ => S (saves w)
        end /\
      baseline_file (snd (Agent.perform_scan env w)) =
        match faults w3 with
        | true :: _ | false :: true :: _ => baseline_file w
        | false :: false :: true :: _ => Some Torn
        | _ => Some (Complete all_hashes)
        end).
Proof.
  split.
  - intros content baseline w1 Hfile Hdet. eapply scan_files_untouched; eauto.
  - destruct (perform_scan_run env w)
      as (s & changes & w1 & w2 & w3 & Hb & Hc & Hreact & Hrun & Hu & Hb3 & _
          & Hs3 & Hsame).
    exists s, changes, w1, w2, w3.
    split; [exact Hb|]. split; [exact Hc|]. split; [exact Hreact|].
    split; [exact Hb3|]. split.
    { intros Hnil. rewrite (Hsame Hnil). apply Hu. }
    destruct (perform_scan_end s w3) as (Hok & Hfile & _ & Hsaves & _).
    simpl in Hok, Hfile, Hsaves. rewrite Hrun.
    split; [exact Hok|]. split.
    + rewrite Hsaves, Hs3. reflexivity.
    + rewrite Hfile, Hb3. reflexivity.
Qed.

Lemma baseline_after_cycle_witness :
  exists w',
    Prometheus.scan_files Sample.env Sample.settled_world = (Ok tt, w') /\
    untouched Sample.settled_world w'.
Proof.
  destruct (baseline_after_cycle Sample.env Sample.settled_world) as [H _].
  eapply H; reflexivity.
Defined.

(** C2 as stated fails on both sides.  In [fim-agent.py] the cycle that
    follows a first cycle on an unchanged population finds no change and
    still runs [save_baseline], which rewrites the baseline file with
    the new scan times.  In the Prometheus agent a cycle that starts
    with no baseline file finds no change either, and leaves a baseline
    file behind. *)
Lemma zero_change_cycle_touches_baseline :
  (let w1 := snd (Agent.perform_scan Sample.env Sample.empty_world) in
   exists all_hashes w2,
     Agent.build_all_hashes Sample.env (snd (logger INFO MsgStartingScan w1))
       = (Ok all_hashes, w2) /\
     fst (Agent.compare_with_baseline Sample.env all_hashes w2) = Ok [] /\
     baseline_file (snd (Agent.perform_scan Sample.env w1)) <> baseline_file w1 /\
     saves (snd (Agent.perform_scan Sample.env w1)) = S (saves w1)) /\
  (baseline_file Sample.empty_world = None /\
   fst (Prometheus.scan_files_detect Sample.env Sample.empty_world)
     = Ok (Sample.settled, []) /\
   baseline_file (snd (Prometheus.scan_files Sample.env Sample.empty_world))
     = Some (Complete Sample.settled) /\
   creations (snd (Prometheus.scan_files Sample.env Sample.empty_world)) = 1%nat).
Proof.
  split.
  - eexists _, _. split; [reflexivity|]. split; [reflexivity|].
    split; [|reflexivity]. intros H. vm_compute in H. discriminate H.
  - repeat split; reflexivity.
Qed.

(* ================================================================== *)
(** * Dictionaries: assignment *)

Section DictSet.
Variable V : Type.
Implicit Types (d : dict V) (k : string) (v : V).

Lemma dict_get_set_same k v d : dict_get k (dict_set k v d) = Some v.
Proof.
  induction d as [|[k' v'] r IH]; simpl.
  - rewrite String.eqb_refl. reflexivity.
  - destruct (String.eqb_spec k k') as [->|Hne]; simpl.
    + rewrite String.eqb_refl. reflexivity.
    + destruct (String.eqb_spec k k'); [contradiction | exact IH].
Qed.

Lemma dict_get_set_other k k' v d :
  k' <> k -> dict_get k' (dict_set k v d) = dict_get k' d.
Proof.
  intros Hne. induction d as [|[k0 v0] r IH]; simpl.
  - destruct (String.eqb_spec k' k); [contradiction | reflexivity].
  - destruct (String.eqb_spec k k0) as [->|Hk]; simpl.
    + destruct (String.eqb_spec k' k0); [contradiction | reflexivity].
    + destruct (k' =? k0); [reflexivity | exact IH].
Qed.

Lemma dict_get_in k v d : dict_get k d = Some v -> In (k, v) d.
Proof.
  induction d as [|[k' v'] r IH]; simpl; [discriminate|].
  destruct (String.eqb_spec k k') as [->|Hne].
  - intros E. inversion E. left. reflexivity.
  - intros E. right. apply IH. exact E.
Qed.

Lemma dict_set_in k v d k' v' :
  In (k', v') (dict_set k v d) -> (k', v') = (k, v) \/ In (k', v') d.
Proof.
  induction d as [|[k0 v0] r IH]; simpl.
  - intros [E|[]]. left. symmetry. exact E.
  - destruct (String.eqb_spec k k0) as [->|Hne]; simpl.
    + intros [E|Hin]; [left; symmetry; exact E | right; right; exact Hin].
    + intros [E|Hin]; [right; left; exact E|].
      destruct (IH Hin) as [E|Hr]; [left; exact E | right; right; exact Hr].
Qed.

Lemma dict_set_wf k v d : dict_wf d -> dict_wf (dict_set k v d).
Proof.
  unfold dict_wf. induction d as [|[k0 v0] r IH]; simpl; intros Hnd.
  - constructor; [intros [] | constructor].
  - inversion Hnd as [|? ? Hnotin Hnd']; subst.
    destruct (String.eqb_spec k k0) as [->|Hne]; simpl.
    + constructor; assumption.
    + constructor; [|apply IH; exact Hnd'].
      intros Hin. apply dict_set_keys in Hin as [E|Hin]; [congruence|].
      apply Hnotin. exact Hin.
Qed.

Lemma dict_set_Forall (P : string * V -> Prop) k v d :
  P (k, v) -> Forall P d -> Forall P (dict_set k v d).
Proof.
  intros Hkv Hd. apply Forall_forall. intros [k' v'] Hin.
  apply dict_set_in in Hin as [E|Hin]; [rewrite E; exact Hkv|].
  rewrite Forall_forall in Hd. apply Hd. exact Hin.
Qed.

Lemma dict_update_wf other : forall d, dict_wf d -> dict_wf (dict_update d other).
Proof.
  unfold dict_update. induction other as [|[k v] r IH]; simpl; intros d Hd.
  - exact Hd.
  - apply IH. apply dict_set_wf. exact Hd.
Qed.

Lemma dict_update_Forall (P : string * V -> Prop) other :
  Forall P other -> forall d, Forall P d -> Forall P (dict_update d other).
Proof.
  unfold dict_update. induction other as [|[k v] r IH]; simpl; intros Ho d Hd.
  - exact Hd.
  - inversion Ho; subst. apply IH; [assumption|].
    apply dict_set_Forall; assumption.
Qed.

(** Assigning to a key that is absent appends it. *)
Lemma dict_set_absent k v d :
  dict_get k d = None -> dict_set k v d = d ++ [(k, v)].
Proof.
  induction d as [|[k0 v0] r IH]; simpl; [reflexivity|].
  destruct (k =? k0); [discriminate|]. intros H. rewrite IH by exact H.
  reflexivity.
Qed.

End DictSet.

(* ================================================================== *)
(** * Loops *)

(** An invariant that relates the accumulator to the items already
    processed. *)
Lemma for_each_inv_prefix {A B} (body : A -> B -> M B)
    (P : list A -> B -> Prop) :
  (forall done x acc w acc' w',
      P done acc -> body x acc w = (Ok acc', w') -> P (done ++ [x]) acc') ->
  forall l done acc w acc' w',
    P done acc -> for_each body l acc w = (Ok acc', w') -> P (done ++ l) acc'.
Proof.
  intros Hbody. induction l as [|x l IH]; simpl; intros done acc w acc' w' HP Hrun.
  - inversion Hrun; subst. rewrite app_nil_r. exact HP.
  - apply bind_ok in Hrun as (acc1 & w1 & Hx & Hrest).
    replace (done ++ x :: l) with ((done ++ [x]) ++ l)
      by (rewrite <- app_assoc; reflexivity).
    eapply IH; [|exact Hrest]. eapply Hbody; eauto.
Qed.

(** A loop whose body appends the records of one item appends the
    records of all the items, in order. *)
Lemma for_each_emits {A} (body : A -> list Change -> M (list Change))
    (f : A -> list Change) :
  (forall x changes w, exists added w',
      body x changes w = (Ok (changes ++ added), w') /\ map erase added = f x) ->
  forall l changes w, exists added w',
    for_each body l changes w = (Ok (changes ++ added), w') /\
    map erase added = flat_map f l.
Proof.
  intros Hbody. induction l as [|x l IH]; simpl; intros changes w.
  - exists [], w. rewrite app_nil_r. split; reflexivity.
  - destruct (Hbody x changes w) as (a1 & w1 & Hx & H1).
    destruct (IH (changes ++ a1) w1) as (a2 & w2 & Hrest & H2).
    exists (a1 ++ a2), w2. unfold bind. rewrite Hx, Hrest.
    rewrite app_assoc, map_app, H1, H2. split; reflexivity.
Qed.

Lemma flat_map_flat_map {A B C} (f : A -> list B) (g : B -> list C) (l : list A) :
  flat_map g (flat_map f l) = flat_map (fun x => flat_map g (f x)) l.
Proof.
  induction l as [|x l IH]; simpl; [reflexivity|].
  rewrite flat_map_app, IH. reflexivity.
Qed.

Lemma flat_map_filter {A B} (p : A -> bool) (g : A -> list B) (l : list A) :
  flat_map g (filter p l) = flat_map (fun x => if p x then g x else []) l.
Proof.
  induction l as [|x l IH]; simpl; [reflexivity|].
  destruct (p x); simpl; rewrite IH; reflexivity.
Qed.

(* ================================================================== *)
(** * The snapshot of [fim-agent.py] *)

Section AgentSnapshot.
Variable env : Env.

Lemma scan_directory_loop_spec (files : list string) :
  forall acc w, exists r w',
    Agent.scan_directory_loop env files acc w = (Ok r, w') /\
    snd r = (if existsb (stat_fails env) files then Some OSError else None) /\
    (forall k, In k (dict_keys (fst r)) <->
               In k (dict_keys acc) \/
               (In k (scanned_prefix env files) /\ storable env k = true)) /\
    (dict_wf acc -> dict_wf (fst r)) /\
    (Forall (agent_entry_ok env) acc -> Forall (agent_entry_ok env) (fst r)).
Proof.
  induction files as [|f rest IH]; intros acc w.
  - exists (acc, None), w. simpl. repeat split; try tauto.
  - assert (Hsame : forall w1,
              storable env f = false ->
              exists r w',
                Agent.scan_directory_loop env rest acc w1 = (Ok r, w') /\
                snd r = (if existsb (stat_fails env) (f :: rest)
                         then Some OSError else None) /\
                (forall k, In k (dict_keys (fst r)) <->
                           In k (dict_keys acc) \/
                           (In k (scanned_prefix env (f :: rest)) /\
                            storable env k = true)) /\
                (dict_wf acc -> dict_wf (fst r)) /\
                (Forall (agent_entry_ok env) acc ->
                 Forall (agent_entry_ok env) (fst r))).
    { intros w1 Hst.
      destruct (IH acc w1) as (r & w' & Hrun & Hflag & Hkeys & Hwf & Hok).
      exists r, w'. split; [exact Hrun|].
      assert (Hsf : stat_fails env f = false)
        by (unfold stat_fails; rewrite Hst; reflexivity).
      simpl. rewrite Hsf. simpl. split; [exact Hflag|].
      split; [|split; assumption].
      intros k. rewrite Hkeys. simpl. split.
      - intros [H|[H1 H2]]; [left; exact H | right; split; [right|]; assumption].
      - intros [H|[[E|H1] H2]]; [left; exact H | | right; split; assumption].
        subst k. congruence. }
    simpl.
    destruct (Agent.should_monitor_path (config env) f) eqn:Hm;
      [|apply Hsame; unfold storable; rewrite Hm; reflexivity].
    unfold bind at 1. unfold calculate_file_hash.
    destruct (fs_digest (fs env) f) as [h|] eqn:Hd.
    2:{ unfold bind, logger, ret. simpl. apply Hsame.
        unfold storable. rewrite Hm, Hd. reflexivity. }
    unfold ret at 1.
    destruct (PyStr.truthy (Some h)) eqn:Ht;
      [|apply Hsame; unfold storable; rewrite Hm, Hd, Ht; reflexivity].
    assert (Hst : storable env f = true)
      by (unfold storable; rewrite Hm, Hd, Ht; reflexivity).
    destruct (fs_getsize (fs env) f) as [size|] eqn:Hsz;
      [destruct (fs_getmtime (fs env) f) as [mtime|] eqn:Hmt|].
    + unfold bind at 1, now.
      destruct (IH (dict_set f (mkFileInfo h size mtime
                                  (Some (clock env (ticks w))) None) acc)
                   (set_ticks (S (ticks w)) w))
        as (r & w' & Hrun & Hflag & Hkeys & Hwf & Hok).
      exists r, w'. split; [exact Hrun|].
      assert (Hsf : stat_fails env f = false)
        by (unfold stat_fails; rewrite Hst, Hsz, Hmt; reflexivity).
      simpl existsb. simpl scanned_prefix. rewrite Hsf. simpl orb.
      split; [exact Hflag|]. split; [|split].
      * intros k. rewrite Hkeys, dict_set_keys. simpl. split.
        -- intros [[E|H]|[H1 H2]].
           ++ right. subst k. split; [left; reflexivity | exact Hst].
           ++ left. exact H.
           ++ right. split; [right|]; assumption.
        -- intros [H|[[E|H1] H2]].
           ++ left. right. exact H.
           ++ left. left. symmetry. exact E.
           ++ right. split; assumption.
      * intros Hacc. apply Hwf. apply dict_set_wf. exact Hacc.
      * intros Hacc. apply Hok. apply dict_set_Forall; [|exact Hacc].
        unfold agent_entry_ok. simpl.
        repeat split; try assumption; try discriminate.
        intros E. subst h. discriminate Ht.
    + exists (acc, Some OSError), w.
      assert (Hsf : stat_fails env f = true)
        by (unfold stat_fails; rewrite Hst, Hsz, Hmt; reflexivity).
      simpl. rewrite Hsf. simpl. repeat split; tauto.
    + exists (acc, Some OSError), w.
      assert (Hsf : stat_fails env f = true)
        by (unfold stat_fails; rewrite Hst, Hsz; reflexivity).
      simpl. rewrite Hsf. simpl. repeat split; tauto.
Qed.

Lemma scan_directory_spec (directory : string) (w : World) :
  exists s w',
    Agent.scan_directory env directory w = (Ok s, w') /\
    (forall k, In k (dict_keys s) <->
               In k (scanned_prefix env (fs_walk (fs env) directory)) /\
               storable env k = true) /\
    dict_wf s /\
    Forall (agent_entry_ok env) s /\
    (existsb (stat_fails env) (fs_walk (fs env) directory) = true ->
     In (ERROR, MsgErrorScanning directory) (log w')).
Proof.
  unfold Agent.scan_directory. unfold bind at 1, logger at 1.
  destruct (scan_directory_loop_spec (fs_walk (fs env) directory) []
              (set_log (log w ++ [(INFO, MsgScanningDirectory directory)]) w))
    as ([s flag] & w1 & Hrun & Hflag & Hkeys & Hwf & Hok).
  simpl in Hflag, Hkeys, Hwf, Hok.
  unfold bind at 1. rewrite Hrun. simpl snd. simpl fst.
  assert (Hk : forall k, In k (dict_keys s) <->
                 In k (scanned_prefix env (fs_walk (fs env) directory)) /\
                 storable env k = true).
  { intros k. rewrite Hkeys. tauto. }
  assert (Hw : dict_wf s) by (apply Hwf; constructor).
  assert (Ho : Forall (agent_entry_ok env) s) by (apply Hok; constructor).
  destruct flag as [e|].
  - unfold bind, logger, ret. eexists _, _. split; [reflexivity|].
    split; [exact Hk|]. split; [exact Hw|]. split; [exact Ho|].
    intros _. simpl. apply in_or_app. right. left. reflexivity.
  - unfold ret. exists s, w1. split; [reflexivity|].
    split; [exact Hk|]. split; [exact Hw|]. split; [exact Ho|].
    intros E. rewrite E in Hflag. discriminate.
Qed.

Lemma build_all_hashes_spec (w : World) :
  exists s w',
    Agent.build_all_hashes env w = (Ok s, w') /\
    dict_wf s /\
    Forall (agent_entry_ok env) s /\
    (forall k, In k (dict_keys s) <->
               exists root, In root (monitored_paths (config env)) /\
                            root_yields env root k).
Proof.
  destruct (build_all_hashes_total env w) as (s & w' & Hrun).
  exists s, w'. split; [exact Hrun|].
  set (P := fun (done : list string) (acc : Snapshot) =>
              dict_wf acc /\ Forall (agent_entry_ok env) acc /\
              forall k, In k (dict_keys acc) <->
                        exists root, In root done /\ root_yields env root k).
  assert (Hinit : P [] []).
  { repeat split; try constructor.
    - intros [].
    - intros (root & [] & _). }
  assert (Hstep : forall done x acc w0 acc' w0',
             P done acc -> Agent.scan_monitored env x acc w0 = (Ok acc', w0') ->
             P (done ++ [x]) acc').
  { intros done x acc w0 acc' w0' (Hwf & Hok & Hkeys) Hbody.
    unfold Agent.scan_monitored in Hbody.
    destruct (fs_exists (fs env) x) eqn:Hex.
    - apply bind_ok in Hbody as (ph & w1 & Hscan & Hret).
      inversion Hret; subst acc' w0'. clear Hret.
      destruct (scan_directory_spec x w0) as (s1 & w1' & Hrun1 & Hk1 & Hwf1 & Hok1 & _).
      rewrite Hscan in Hrun1. inversion Hrun1; subst s1 w1'. clear Hrun1.
      repeat split.
      + apply dict_update_wf. exact Hwf.
      + apply dict_update_Forall; assumption.
      + rewrite dict_update_keys, Hkeys, Hk1.
        intros [(root & Hin & Hy) | [H1 H2]].
        * exists root. split; [apply in_or_app; left; exact Hin | exact Hy].
        * exists x. split; [apply in_or_app; right; left; reflexivity|].
          repeat split; assumption.
      + rewrite dict_update_keys, Hkeys, Hk1.
        intros (root & Hin & Hy). apply in_app_or in Hin as [Hin|[<-|[]]].
        * left. exists root. split; assumption.
        * right. destruct Hy as (_ & H1 & H2). split; assumption.
    - apply bind_ok in Hbody as (u & w1 & _ & Hret).
      inversion Hret; subst acc' w0'. clear Hret.
      repeat split; try assumption.
      + rewrite Hkeys. intros (root & Hin & Hy).
        exists root. split; [apply in_or_app; left; exact Hin | exact Hy].
      + rewrite Hkeys. intros (root & Hin & Hy).
        apply in_app_or in Hin as [Hin|[<-|[]]].
        * exists root. split; assumption.
        * destruct Hy as (Hy & _). congruence. }
  unfold Agent.build_all_hashes in Hrun.
  exact (for_each_inv_prefix _ P Hstep _ [] _ _ Hinit Hrun).
Qed.

Lemma scanned_prefix_before (pre rest : list string) (f k : string) :
  stat_fails env f = true ->
  In k (scanned_prefix env (pre ++ f :: rest)) -> In k pre.
Proof.
  intros Hf. induction pre as [|g pre IH]; simpl.
  - rewrite Hf. intros [].
  - destruct (stat_fails env g); [intros []|].
    intros [E|Hin]; [left; exact E | right; apply IH; exact Hin].
Qed.

Lemma scanned_prefix_all (files : list string) :
  existsb (stat_fails env) files = false -> scanned_prefix env files = files.
Proof.
  induction files as [|f rest IH]; simpl; [reflexivity|].
  destruct (stat_fails env f); simpl; [discriminate|].
  intros H. rewrite IH by exact H. reflexivity.
Qed.

End AgentSnapshot.

(** X1.  The snapshot that a cycle of [fim-agent.py] builds names no
    path twice, also when monitored roots overlap, and each of its
    entries is in scope and carries the digest, size and modification
    time that the file population gives for its path, a non-empty
    fingerprint and a scan time. *)
Theorem agent_snapshot_invariant (env : Env) (w : World) :
  exists s w',
    Agent.build_all_hashes env w = (Ok s, w') /\
    dict_wf s /\ Forall (agent_entry_ok env) s.
Proof.
  destruct (build_all_hashes_spec env w) as (s & w' & Hrun & Hwf & Hok & _).
  exists s, w'. auto.
Qed.

(** X2.  The snapshot of [fim-agent.py] holds exactly the files that
    some existing monitored root lists before the first file of that
    listing whose size or modification time cannot be read, and that
    are in scope and have a non-empty digest: an unreadable file is
    left out alone, a file that cannot be sized ends its directory. *)
Theorem agent_snapshot_contents (env : Env) (w : World) :
  exists s w',
    Agent.build_all_hashes env w = (Ok s, w') /\
    forall k, In k (dict_keys s) <->
              exists root, In root (monitored_paths (config env)) /\
                           fs_exists (fs env) root = true /\
                           In k (scanned_prefix env (fs_walk (fs env) root)) /\
                           Agent.should_monitor_path (config env) k = true /\
                           PyStr.truthy (fs_digest (fs env) k) = true.
Proof.
  destruct (build_all_hashes_spec env w) as (s & w' & Hrun & _ & _ & Hkeys).
  exists s, w'. split; [exact Hrun|]. intros k. rewrite Hkeys.
  unfold root_yields, storable.
  split; intros (root & Hin & Hex & Hpre & Hst); exists root;
    repeat split; try assumption.
  - apply andb_prop in Hst. apply Hst.
  - apply andb_prop in Hst. apply Hst.
  - destruct Hst as [H1 H2]. rewrite H1, H2. reflexivity.
Qed.

(** X3.  When the size or the modification time of an in-scope,
    digested file of a directory cannot be read, [scan_directory] logs
    an error and returns what it has stored so far: no file listed
    after that one is in its result, unless it was also listed
    before. *)
Theorem scan_directory_stops_at_stat_failure
    (env : Env) (directory : string) (pre rest : list string) (f : string)
    (w : World) :
  fs_walk (fs env) directory = pre ++ f :: rest ->
  stat_fails env f = true ->
  exists s w',
    Agent.scan_directory env directory w = (Ok s, w') /\
    (forall k, In k (dict_keys s) -> In k pre) /\
    In (ERROR, MsgErrorScanning directory) (log w').
Proof.
  intros Hwalk Hf.
  destruct (scan_directory_spec env directory w)
    as (s & w' & Hrun & Hkeys & _ & _ & Hlog).
  exists s, w'. split; [exact Hrun|]. split.
  - intros k Hk. apply Hkeys in Hk as [Hk _]. rewrite Hwalk in Hk.
    eapply scanned_prefix_before; eauto.
  - apply Hlog. rewrite Hwalk, existsb_app. simpl. rewrite Hf.
    rewrite orb_true_r. reflexivity.
Qed.

Lemma scan_directory_stops_at_stat_failure_witness :
  exists s w',
    Agent.scan_directory Cases.stat_env "/data" Sample.empty_world = (Ok s, w') /\
    (forall k, In k (dict_keys s) -> In k ["/data/a.txt"]) /\
    In (ERROR, MsgErrorScanning "/data") (log w').
Proof.
  apply (@scan_directory_stops_at_stat_failure Cases.stat_env "/data"
           ["/data/a.txt"] ["/data/d.txt"] "/data/b.txt" Sample.empty_world).
  - reflexivity.
  - reflexivity.
Defined.

(** X4.  In [fim-agent.py] a path of the baseline whose digest cannot
    be computed any more is reported as DELETED, with the fingerprint
    of the baseline, whether or not the file still exists. *)
Theorem agent_unreadable_reported_deleted
    (env : Env) (w : World) (baseline : Snapshot) (g : string) (b : FileInfo) :
  dict_wf baseline ->
  baseline_file w = Some (Complete baseline) ->
  dict_get g baseline = Some b ->
  fs_digest (fs env) g = None ->
  exists s w1 changes w2,
    Agent.build_all_hashes env w = (Ok s, w1) /\
    Agent.compare_with_baseline env s w1 = (Ok changes, w2) /\
    exists r, records_for g changes = [r] /\ is_deleted_record g (fi_hash b) r.
Proof.
  intros Hwf Hfile Hg Hdig.
  destruct (build_all_hashes_spec env w) as (s & w1 & Hbuild & Hswf & _ & Hkeys).
  assert (Hfile1 : baseline_file w1 = Some (Complete baseline)).
  { pose proof (@build_all_hashes_quiet env w w (untouched_refl w)) as H.
    rewrite Hbuild in H. destruct H as (Hb & _). simpl in Hb. congruence. }
  destruct (run_compare_with_baseline env s w1 (load_baseline_complete w1 Hfile1))
    as (changes & w2 & Hcmp & Hsh).
  exists s, w1, changes, w2. split; [exact Hbuild|]. split; [exact Hcmp|].
  assert (Hnone : dict_get g s = None).
  { apply dict_get_none. intros Hin. apply Hkeys in Hin as (root & _ & _ & _ & Hst).
    unfold storable in Hst. rewrite Hdig in Hst. simpl in Hst.
    rewrite andb_false_r in Hst. discriminate. }
  assert (Hrec : map erase (records_for g changes) =
                 [mkChange DELETED g None (Some (fi_hash b)) None EmptyString]).
  { rewrite <- records_for_erase, Hsh, diff_erased_records by assumption.
    rewrite Hnone, Hg. reflexivity. }
  apply map_erase_singleton in Hrec as (r & -> & Hr).
  exists r. split; [reflexivity|].
  unfold is_deleted_record. destruct r; inversion Hr; subst; simpl; auto.
Qed.

Lemma agent_unreadable_reported_deleted_witness :
  exists s w1 changes w2,
    Agent.build_all_hashes Sample.unreadable_env Sample.world = (Ok s, w1) /\
    Agent.compare_with_baseline Sample.unreadable_env s w1 = (Ok changes, w2) /\
    exists r, records_for "/data/a.txt" changes = [r] /\
              is_deleted_record "/data/a.txt" "h1" r.
Proof.
  apply (@agent_unreadable_reported_deleted Sample.unreadable_env Sample.world
           Sample.baseline "/data/a.txt" (Sample.info "h1")).
  - wf_by_keys.
  - reflexivity.
  - reflexivity.
  - reflexivity.
Defined.

Lemma rescan_no_change
    (env : Env) (wa wa' w : World) (s1 : Snapshot) :
  Agent.build_all_hashes env wa = (Ok s1, wa') ->
  baseline_file w = Some (Complete s1) ->
  exists s2 w2,
    Agent.build_all_hashes env w = (Ok s2, w2) /\
    fst (Agent.compare_with_baseline env s2 w2) = Ok [].
Proof.
  intros Hfirst Hfile.
  destruct (build_all_hashes_spec env wa) as (s1' & wa'' & H1 & Hwf1 & Hok1 & Hk1).
  rewrite Hfirst in H1. inversion H1; subst s1' wa''. clear H1.
  destruct (build_all_hashes_spec env w) as (s2 & w2 & Hbuild & Hwf2 & Hok2 & Hk2).
  exists s2, w2. split; [exact Hbuild|].
  assert (Hfile2 : baseline_file w2 = Some (Complete s1)).
  { pose proof (@build_all_hashes_quiet env w w (untouched_refl w)) as H.
    rewrite Hbuild in H. destruct H as (Hb & _). simpl in Hb. congruence. }
  destruct (run_compare_with_baseline env s2 w2 (load_baseline_complete w2 Hfile2))
    as (changes & w3 & Hcmp & Hsh).
  rewrite Hcmp. simpl. f_equal.
  apply records_for_all_nil. intros p.
  apply map_erase_nil. rewrite <- records_for_erase, Hsh.
  rewrite diff_erased_records by assumption.
  destruct (dict_get p s2) as [c|] eqn:Hc; destruct (dict_get p s1) as [b|] eqn:Hb.
  - apply dict_get_in in Hc, Hb.
    rewrite Forall_forall in Hok1, Hok2.
    destruct (Hok2 _ Hc) as (_ & Hd2 & _). destruct (Hok1 _ Hb) as (_ & Hd1 & _).
    simpl in Hd1, Hd2. rewrite Hd2 in Hd1. inversion Hd1 as [E].
    rewrite String.eqb_refl. reflexivity.
  - exfalso. apply dict_get_none in Hb. apply Hb, Hk1, Hk2.
    eapply dict_get_in_keys; eauto.
  - exfalso. apply dict_get_none in Hc. apply Hc, Hk2, Hk1.
    eapply dict_get_in_keys; eauto.
  - reflexivity.
Qed.

(** X5.  When the persisted baseline is a snapshot that [fim-agent.py]
    built of the file population, a new snapshot of the same population
    shows no change against it, whatever the clock reads. *)
Theorem agent_rescan_finds_no_change
    (env : Env) (wa wa' w : World) (s1 : Snapshot) :
  Agent.build_all_hashes env wa = (Ok s1, wa') ->
  baseline_file w = Some (Complete s1) ->
  exists s2 w2,
    Agent.build_all_hashes env w = (Ok s2, w2) /\
    fst (Agent.compare_with_baseline env s2 w2) = Ok [].
Proof.
  intros Hfirst Hfile.
  destruct (rescan_no_change env wa w Hfirst Hfile) as (s2 & w2 & Hbuild & Hcmp).
  exists s2, w2. split; assumption.
Qed.

Lemma agent_rescan_finds_no_change_witness :
  exists s2 w2,
    Agent.build_all_hashes Sample.env Cases.later_world = (Ok s2, w2) /\
    fst (Agent.compare_with_baseline Sample.env s2 w2) = Ok [].
Proof.
  apply (@agent_rescan_finds_no_change Sample.env Sample.empty_world
           (snd (Agent.build_all_hashes Sample.env Sample.empty_world))
           Cases.later_world Cases.first_snapshot).
  - reflexivity.
  - reflexivity.
Defined.

(* ================================================================== *)
(** * Order of the records, and the report of a cycle *)

Lemma run_compare_split (env : Env) (current baseline : Snapshot) (w w1 : World) :
  Agent.load_baseline w = (Ok baseline, w1) ->
  exists found gone w',
    Agent.compare_with_baseline env current w = (Ok (found ++ gone), w') /\
    map erase found = flat_map (diff_current baseline) current /\
    map erase gone = flat_map (diff_deleted baseline current) (dict_keys baseline).
Proof.
  intros Hload. unfold Agent.compare_with_baseline.
  unfold bind at 1. rewrite Hload.
  destruct (run_compare_current env baseline current [] w1)
    as (found & w2 & Hrun1 & Hsh1).
  unfold bind at 1. rewrite Hrun1. simpl.
  destruct (run_compare_deleted env baseline current (dict_keys baseline)
              (fun k H => H) found w2) as (gone & w3 & Hrun2 & Hsh2).
  rewrite Hrun2. exists found, gone, w3. auto.
Qed.

Lemma diff_current_files (baseline : Snapshot) (items : list (string * FileInfo)) :
  map c_file (flat_map (diff_current baseline) items) =
  map fst (filter (fun item =>
                     match dict_get (fst item) baseline with
                     | Some b => negb (fi_hash (snd item) =? fi_hash b)
                     | None => true
                     end) items).
Proof.
  induction items as [|[p c] rest IH]; simpl; [reflexivity|].
  rewrite map_app, IH. unfold diff_current. simpl.
  destruct (dict_get p baseline) as [b|]; [|reflexivity].
  destruct (negb (fi_hash c =? fi_hash b)); reflexivity.
Qed.

Lemma diff_deleted_files (baseline current : Snapshot) (ks : list string) :
  (forall k, In k ks -> In k (dict_keys baseline)) ->
  map c_file (flat_map (diff_deleted baseline current) ks) =
  filter (fun k => negb (dict_mem k current)) ks.
Proof.
  induction ks as [|k rest IH]; simpl; intros Hks; [reflexivity|].
  rewrite map_app, IH by (intros k' Hk'; apply Hks; right; exact Hk').
  unfold diff_deleted.
  destruct (negb (dict_mem k current)); [|reflexivity].
  destruct (dict_keys_get k baseline (Hks k (or_introl eq_refl))) as [b ->].
  reflexivity.
Qed.

Lemma map_file_erase (l : list Change) : map c_file (map erase l) = map c_file l.
Proof. rewrite map_map. reflexivity. Qed.

(** X6.  [compare_with_baseline] returns the NEW and MODIFIED records
    first, one for each path of the current snapshot that the baseline
    lacks or holds with another fingerprint, in the order of the
    current snapshot, and then the DELETED records, one for each path
    of the baseline that the current snapshot lacks, in the order of
    the baseline. *)
Theorem compare_with_baseline_order (env : Env) (current : Snapshot) (w : World) :
  exists baseline w1 found gone w',
    Agent.load_baseline w = (Ok baseline, w1) /\
    Agent.compare_with_baseline env current w = (Ok (found ++ gone), w') /\
    Forall (fun r => c_type r <> DELETED) found /\
    Forall (fun r => c_type r = DELETED) gone /\
    map c_file found =
      map fst (filter (fun item =>
                         match dict_get (fst item) baseline with
                         | Some b => negb (fi_hash (snd item) =? fi_hash b)
                         | None => true
                         end) current) /\
    map c_file gone =
      filter (fun k => negb (dict_mem k current)) (dict_keys baseline).
Proof.
  destruct (load_baseline_total w) as (baseline & w1 & Hload).
  destruct (run_compare_split env current w Hload)
    as (found & gone & w' & Hrun & Hf & Hg).
  exists baseline, w1, found, gone, w'.
  split; [exact Hload|]. split; [exact Hrun|]. split; [|split; [|split]].
  - apply Forall_forall. intros r Hr. apply (in_map erase) in Hr.
    rewrite Hf in Hr. apply in_flat_map in Hr as ([p c] & _ & Hr).
    unfold diff_current in Hr. simpl in Hr.
    destruct (dict_get p baseline); [destruct (negb _)|];
      try contradiction; destruct Hr as [Hr|[]];
      destruct r; inversion Hr; subst; simpl; discriminate.
  - apply Forall_forall. intros r Hr. apply (in_map erase) in Hr.
    rewrite Hg in Hr. apply in_flat_map in Hr as (k & _ & Hr).
    unfold diff_deleted in Hr.
    destruct (negb (dict_mem k current)); [|contradiction].
    destruct (dict_get k baseline); [|contradiction].
    destruct Hr as [Hr|[]]. destruct r; inversion Hr; subst; reflexivity.
  - rewrite <- map_file_erase, Hf. apply diff_current_files.
  - rewrite <- map_file_erase, Hg. apply diff_deleted_files. auto.
Qed.

(** X7.  When the report file cannot be read as a list of reports,
    because it is torn or holds a single report object as the
    Prometheus agent writes it, [report_changes] of [fim-agent.py] does
    not raise, attempts no write, leaves the file as it is and logs an
    error: the report of the cycle is lost. *)
Theorem report_changes_unreadable_file
    (env : Env) (changes : list Change) (w : World) :
  changes <> [] ->
  report_file w = Some Torn \/
    (exists r0, report_file w = Some (Complete (RSingle r0))) ->
  exists w',
    Agent.report_changes env changes w = (Ok tt, w') /\
    report_file w' = report_file w /\
    faults w' = faults w /\
    In (ERROR, MsgErrorSavingReport) (log w').
Proof.
  intros Hne Hfile. destruct changes as [|c cs]; [congruence|]. clear Hne.
  destruct (report_changes_split env c cs w)
    as (w1 & -> & _ & Hrep & Hf & _).
  rewrite <- Hrep, <- Hf. rewrite <- Hrep in Hfile. clear Hrep Hf.
  unfold Agent.append_to_reports, try_except, bind, now,
    Agent.read_report_file, Agent.append_report, raise, ret, logger.
  destruct w1 as [b r l t f]. simpl in *.
  destruct Hfile as [-> | [r0 ->]]; simpl;
    (eexists; split; [reflexivity|]; simpl;
     split; [reflexivity|]; split; [reflexivity|];
     apply in_or_app; right; left; reflexivity).
Qed.

Lemma report_changes_unreadable_file_witness :
  exists w',
    Agent.report_changes Sample.env Sample.earlier_report.(r_changes)
      Cases.foreign_report_world = (Ok tt, w') /\
    report_file w' = report_file Cases.foreign_report_world /\
    faults w' = faults Cases.foreign_report_world /\
    In (ERROR, MsgErrorSavingReport) (log w').
Proof.
  apply (@report_changes_unreadable_file Sample.env
           Sample.earlier_report.(r_changes) Cases.foreign_report_world).
  - discriminate.
  - right. exists Sample.earlier_report. reflexivity.
Defined.

Lemma save_baseline_keeps_report (s : Snapshot) (x : option (Stored ReportJson)) :
  preserves (fun w => report_file w = x) (Agent.save_baseline s).
Proof.
  intros w H. destruct (save_baseline_trace s w) as (_ & _ & Hr).
  simpl in Hr. rewrite Hr. exact H.
Qed.

(** X8.  Over a report file that holds a list of reports, or does not
    exist, and with the two write steps of the report succeeding, a
    cycle of [fim-agent.py] leaves the reports as they were when it
    found no change, and otherwise adds after them exactly one report,
    which lists the changes of the cycle and counts them; this holds
    whether the cycle then completes or is ended by the exception of
    [save_baseline]. *)
Theorem agent_cycle_report (env : Env) (w : World) (earlier : list Report) :
  report_file w = Some (Complete (RList earlier)) \/
    (report_file w = None /\ earlier = []) ->
  writes_succeed 2 w = true ->
  exists all_hashes changes w1 w2,
    Agent.build_all_hashes env (snd (logger INFO MsgStartingScan w))
      = (Ok all_hashes, w1) /\
    Agent.compare_with_baseline env all_hashes w1 = (Ok changes, w2) /\
    reports_of (report_file (snd (Agent.perform_scan env w))) =
      earlier ++
      match changes with
      | [] => []
      | _ :: _ => [mkReport (clock env (ticks w2)) changes (List.length changes)]
      end.
Proof.
  intros Hfile Hw.
  destruct (perform_scan_run env w)
    as (s & changes & w1 & w2 & w3 & Hbuild & Hcmp & Hreact & Hrun & Hu & _
        & _ & _ & Hsame).
  exists s, changes, w1, w2.
  split; [exact Hbuild|]. split; [exact Hcmp|].
  destruct Hu as (_ & Hr2 & Hf2 & _).
  destruct (perform_scan_end s w3) as (_ & _ & _ & _ & Htail).
  simpl in Htail. rewrite Hrun, Htail.
  destruct changes as [|c cs].
  - rewrite (Hsame eq_refl), Hr2, app_nil_r.
    destruct Hfile as [-> | [-> ->]]; reflexivity.
  - assert (Hrep : report_file (snd (Agent.report_changes env (c :: cs) w2)) =
                   Some (Complete (RList (earlier ++
                     [mkReport (clock env (ticks w2)) (c :: cs)
                        (List.length (c :: cs))])))).
    { apply agent_report_appended.
      - discriminate.
      - unfold writes_succeed in *. rewrite Hf2. exact Hw.
      - rewrite Hr2. exact Hfile. }
    assert (Hkeep : report_file (snd (cycle_reaction env (c :: cs) w2))
                    = report_file (snd (Agent.report_changes env (c :: cs) w2))).
    { unfold cycle_reaction.
      apply (@run_bind_then _ _ (Agent.report_changes env (c :: cs)) _
               (fun w0 => report_file w0 =
                          report_file (snd (Agent.report_changes env (c :: cs) w2))));
        [reflexivity|].
      intros _. unfold Agent.send_alert. preserve. }
    rewrite Hreact in Hkeep. cbn [snd] in Hkeep. rewrite Hkeep, Hrep. reflexivity.
Qed.

Lemma agent_cycle_report_witness :
  exists all_hashes changes w1 w2,
    Agent.build_all_hashes Sample.env
      (snd (logger INFO MsgStartingScan Sample.world)) = (Ok all_hashes, w1) /\
    Agent.compare_with_baseline Sample.env all_hashes w1 = (Ok changes, w2) /\
    reports_of (report_file (snd (Agent.perform_scan Sample.env Sample.world))) =
      [] ++
      match changes with
      | [] => []
      | _ :: _ =>
          [mkReport (clock Sample.env (ticks w2)) changes (List.length changes)]
      end.
Proof.
  apply (@agent_cycle_report Sample.env Sample.world []).
  - right. split; reflexivity.
  - reflexivity.
Defined.

(* ================================================================== *)
(** * The scan of the Prometheus agent, as a whole *)

Section PrometheusDetect.
Variable env : Env.

Lemma run_check_file (baseline : Snapshot) (x : string)
    (changes : list Change) (w : World) :
  exists added w',
    Prometheus.check_file env baseline x changes w = (Ok (changes ++ added), w') /\
    map erase added = check_erased env baseline x.
Proof.
  unfold Prometheus.check_file, check_erased, try_except, calculate_file_hash.
  destruct (dict_get x baseline) as [b|];
    destruct (fs_digest (fs env) x) as [h|].
  - unfold bind at 1, ret at 1.
    destruct (PyStr.truthy (Some h) && negb (h =? fi_hash b)).
    + unfold bind, now, ret. eexists [_], _. split; reflexivity.
    + unfold ret. exists [], w. rewrite app_nil_r. split; reflexivity.
  - unfold bind, logger, ret. eexists [], _. rewrite app_nil_r.
    split; reflexivity.
  - unfold bind at 1, ret at 1.
    destruct (PyStr.truthy (Some h)).
    + unfold bind, now, ret. eexists [_], _. split; reflexivity.
    + unfold ret. exists [], w. rewrite app_nil_r. split; reflexivity.
  - unfold bind, logger, ret. eexists [], _. rewrite app_nil_r.
    split; reflexivity.
Qed.

Lemma run_scan_monitored (baseline : Snapshot) (path : string)
    (changes : list Change) (w : World) :
  exists added w',
    Prometheus.scan_monitored env baseline path changes w
      = (Ok (changes ++ added), w') /\
    map erase added = flat_map (check_erased env baseline) (visit_one env path).
Proof.
  unfold Prometheus.scan_monitored, visit_one.
  destruct (negb (fs_exists (fs env) path)).
  - exists [], w. rewrite app_nil_r. split; reflexivity.
  - destruct (fs_isfile (fs env) path).
    + destruct (negb (Prometheus.is_excluded_path (config env) path)).
      * simpl. rewrite app_nil_r. apply run_check_file.
      * exists [], w. rewrite app_nil_r. split; reflexivity.
    + rewrite flat_map_filter. apply for_each_emits.
      intros x ch w0. unfold Prometheus.scan_walk.
      destruct (negb (Prometheus.is_excluded_path (config env) x)).
      * apply run_check_file.
      * exists [], w0. rewrite app_nil_r. split; reflexivity.
Qed.

Lemma run_scan_deleted (k : string) (changes : list Change) (w : World) :
  exists added w',
    Prometheus.scan_deleted env k changes w = (Ok (changes ++ added), w') /\
    map erase added = deleted_erased env k.
Proof.
  unfold Prometheus.scan_deleted, deleted_erased.
  destruct (negb (fs_exists (fs env) k)).
  - unfold bind, now, ret. eexists [_], _. split; reflexivity.
  - exists [], w. rewrite app_nil_r. split; reflexivity.
Qed.

(** The two loops never raise, and their records are those of the files
    visited followed by those of the baseline keys. *)
Lemma run_detect_loops (baseline : Snapshot) (w : World) :
  exists changes w',
    Prometheus.detect_loops env baseline w = (Ok (baseline, changes), w') /\
    map erase changes = scan_erased env baseline.
Proof.
  unfold Prometheus.detect_loops.
  destruct (for_each_emits (Prometheus.scan_monitored env baseline)
              (fun path => flat_map (check_erased env baseline) (visit_one env path))
              (run_scan_monitored baseline)
              (monitored_paths (config env)) [] w)
    as (a1 & w1 & Hrun1 & H1).
  destruct (for_each_emits (Prometheus.scan_deleted env)
              (deleted_erased env) run_scan_deleted
              (dict_keys baseline) ([] ++ a1) w1)
    as (a2 & w2 & Hrun2 & H2).
  exists (([] ++ a1) ++ a2), w2. unfold bind. rewrite Hrun1, Hrun2.
  split; [reflexivity|]. simpl. rewrite map_app, H1, H2.
  unfold scan_erased, visited. rewrite flat_map_flat_map. reflexivity.
Qed.

(** With a baseline file in place the detection phase returns. *)
Lemma run_scan_files_detect (w : World) (content : Stored Snapshot) :
  baseline_file w = Some content ->
  exists changes w',
    Prometheus.scan_files_detect env w
      = (Ok (match content with Complete b => b | Torn => [] end, changes), w') /\
    map erase changes =
      scan_erased env (match content with Complete b => b | Torn => [] end).
Proof.
  intros Hfile. unfold Prometheus.scan_files_detect, Prometheus.load_baseline.
  unfold bind at 1. rewrite Hfile.
  destruct content as [b|]; unfold try_except, bind at 1, logger, raise, ret;
    simpl; apply run_detect_loops.
Qed.

End PrometheusDetect.

Lemma scan_files_detect_erased (env : Env) (w w' : World)
    (baseline : Snapshot) (changes : list Change) :
  Prometheus.scan_files_detect env w = (Ok (baseline, changes), w') ->
  map erase changes = scan_erased env baseline.
Proof.
  unfold Prometheus.scan_files_detect. intros Hrun.
  apply bind_ok in Hrun as (b & w1 & _ & Hrun).
  destruct (run_detect_loops env b w1) as (ch & w2 & Hloops & Hsh).
  rewrite Hrun in Hloops. inversion Hloops; subst. exact Hsh.
Qed.

Lemma truthy_some (h : string) :
  PyStr.truthy (Some h) = true <-> h <> EmptyString.
Proof.
  unfold PyStr.truthy. destruct (String.eqb_spec h EmptyString); simpl.
  - split; [discriminate | congruence].
  - split; [intros _; assumption | reflexivity].
Qed.

(** X9.  Every record of a scan of the Prometheus agent is justified:
    a NEW record names a visited file that the baseline lacks and
    carries its digest; a MODIFIED record names a visited file whose
    digest differs from the fingerprint of the baseline and carries
    both; a DELETED record names a path of the baseline that no longer
    exists, and carries no fingerprint. *)
Theorem prometheus_records_justified
    (env : Env) (w w' : World) (baseline : Snapshot) (changes : list Change) :
  Prometheus.scan_files_detect env w = (Ok (baseline, changes), w') ->
  forall r, In r changes ->
    match c_type r with
    | NEW =>
        In (c_file r) (visited env) /\
        dict_get (c_file r) baseline = None /\
        exists h, fs_digest (fs env) (c_file r) = Some h /\
                  h <> EmptyString /\ c_hash r = Some h
    | MODIFIED =>
        In (c_file r) (visited env) /\
        exists b h, dict_get (c_file r) baseline = Some b /\
                    fs_digest (fs env) (c_file r) = Some h /\
                    h <> EmptyString /\ h <> fi_hash b /\
                    c_old_hash r = Some (fi_hash b) /\ c_new_hash r = Some h
    | DELETED =>
        In (c_file r) (dict_keys baseline) /\
        fs_exists (fs env) (c_file r) = false /\
        c_hash r = None /\ c_old_hash r = None /\ c_new_hash r = None
    end.
Proof.
  intros Hrun r Hr. apply scan_files_detect_erased in Hrun.
  apply (in_map erase) in Hr. rewrite Hrun in Hr. unfold scan_erased in Hr.
  apply in_app_or in Hr as [Hr|Hr]; apply in_flat_map in Hr as (x & Hx & Hr).
  - unfold check_erased in Hr.
    destruct (dict_get x baseline) as [b|] eqn:Hb;
      destruct (fs_digest (fs env) x) as [h|] eqn:Hd; try contradiction.
    + destruct (PyStr.truthy (Some h) && negb (h =? fi_hash b)) eqn:Hc;
        [|contradiction].
      apply andb_prop in Hc as [Ht Hne]. apply truthy_some in Ht.
      apply negb_true_iff, String.eqb_neq in Hne.
      destruct Hr as [Hr|[]]. destruct r; inversion Hr; subst; simpl.
      split; [exact Hx|]. exists b, h. auto 10.
    + destruct (PyStr.truthy (Some h)) eqn:Ht; [|contradiction].
      apply truthy_some in Ht.
      destruct Hr as [Hr|[]]. destruct r; inversion Hr; subst; simpl.
      split; [exact Hx|]. split; [exact Hb|]. exists h. auto.
  - unfold deleted_erased in Hr.
    destruct (negb (fs_exists (fs env) x)) eqn:He; [|contradiction].
    apply negb_true_iff in He.
    destruct Hr as [Hr|[]]. destruct r; inversion Hr; subst; simpl. auto.
Qed.

Lemma prometheus_records_justified_witness :
  exists baseline changes w',
    Prometheus.scan_files_detect Sample.env Sample.world
      = (Ok (baseline, changes), w') /\
    forall r, In r changes ->
      match c_type r with
      | NEW =>
          In (c_file r) (visited Sample.env) /\
          dict_get (c_file r) baseline = None /\
          exists h, fs_digest (fs Sample.env) (c_file r) = Some h /\
                    h <> EmptyString /\ c_hash r = Some h
      | MODIFIED =>
          In (c_file r) (visited Sample.env) /\
          exists b h, dict_get (c_file r) baseline = Some b /\
                      fs_digest (fs Sample.env) (c_file r) = Some h /\
                      h <> EmptyString /\ h <> fi_hash b /\
                      c_old_hash r = Some (fi_hash b) /\ c_new_hash r = Some h
      | DELETED =>
          In (c_file r) (dict_keys baseline) /\
          fs_exists (fs Sample.env) (c_file r) = false /\
          c_hash r = None /\ c_old_hash r = None /\ c_new_hash r = None
      end.
Proof.
  eexists _, _, _. split; [reflexivity|].
  eapply (@prometheus_records_justified Sample.env Sample.world).
  reflexivity.
Defined.

Lemma erase_in (l : list Change) (x : Change) :
  In x (map erase l) -> exists r, In r l /\ erase r = x.
Proof.
  intros H. apply in_map_iff in H as (r & E & Hr). eauto.
Qed.

(** X10.  A scan of the Prometheus agent misses nothing it looks at: a
    visited file with a non-empty digest gets a NEW record when the
    baseline lacks it and a MODIFIED record when the baseline holds it
    with another fingerprint, and a path of the baseline that no longer
    exists gets a DELETED record. *)
Theorem prometheus_scan_complete
    (env : Env) (w w' : World) (baseline : Snapshot) (changes : list Change) :
  Prometheus.scan_files_detect env w = (Ok (baseline, changes), w') ->
  (forall x h,
      In x (visited env) -> fs_digest (fs env) x = Some h -> h <> EmptyString ->
      match dict_get x baseline with
      | None => exists r, In r changes /\ is_new_record x h r
      | Some b =>
          fi_hash b <> h ->
          exists r, In r changes /\ is_modified_record x (fi_hash b) h r
      end) /\
  (forall k,
      In k (dict_keys baseline) -> fs_exists (fs env) k = false ->
      exists r, In r changes /\ c_type r = DELETED /\ c_file r = k).
Proof.
  intros Hrun. apply scan_files_detect_erased in Hrun. split.
  - intros x h Hx Hd Hne. apply truthy_some in Hne.
    destruct (dict_get x baseline) as [b|] eqn:Hb.
    + intros Hdiff.
      assert (Hin : In (mkChange MODIFIED x None (Some (fi_hash b)) (Some h)
                          EmptyString) (map erase changes)).
      { rewrite Hrun. unfold scan_erased. apply in_or_app. left.
        apply in_flat_map. exists x. split; [exact Hx|].
        unfold check_erased. rewrite Hb, Hd, Hne.
        assert ((h =? fi_hash b) = false) as ->
          by (apply String.eqb_neq; congruence).
        left. reflexivity. }
      apply erase_in in Hin as (r & Hr & E). exists r. split; [exact Hr|].
      unfold is_modified_record. destruct r; inversion E; subst; simpl; auto.
    + assert (Hin : In (mkChange NEW x (Some h) None None EmptyString)
                       (map erase changes)).
      { rewrite Hrun. unfold scan_erased. apply in_or_app. left.
        apply in_flat_map. exists x. split; [exact Hx|].
        unfold check_erased. rewrite Hb, Hd, Hne. left. reflexivity. }
      apply erase_in in Hin as (r & Hr & E). exists r. split; [exact Hr|].
      unfold is_new_record. destruct r; inversion E; subst; simpl; auto.
  - intros k Hk He.
    assert (Hin : In (mkChange DELETED k None None None EmptyString)
                     (map erase changes)).
    { rewrite Hrun. unfold scan_erased. apply in_or_app. right.
      apply in_flat_map. exists k. split; [exact Hk|].
      unfold deleted_erased. rewrite He. left. reflexivity. }
    apply erase_in in Hin as (r & Hr & E). exists r. split; [exact Hr|].
    destruct r; inversion E; subst; simpl; auto.
Qed.

Lemma prometheus_scan_complete_witness :
  exists r,
    In r (snd (match fst (Prometheus.scan_files_detect Sample.env Sample.world)
               with Ok p => p | Raise _ => ([], []) end)) /\
    c_type r = DELETED /\ c_file r = "/data/c.txt".
Proof.
  destruct (@prometheus_scan_complete Sample.env Sample.world
              (snd (Prometheus.scan_files_detect Sample.env Sample.world))
              Sample.baseline
              (snd (match fst (Prometheus.scan_files_detect Sample.env Sample.world)
                    with Ok p => p | Raise _ => ([], []) end))
              eq_refl) as [_ Hdel].
  apply Hdel.
  - simpl. right. right. left. reflexivity.
  - reflexivity.
Defined.

(* ================================================================== *)
(** * The baseline that the Prometheus agent builds *)

Section PrometheusBaseline.
Variable env : Env.

Lemma holds_skip (vis : list string) (b : Snapshot) (x : string) :
  baseline_holds env vis b ->
  PyStr.truthy (fs_digest (fs env) x) = false \/
    fs_getsize (fs env) x = None \/ fs_getmtime (fs env) x = None ->
  baseline_holds env (vis ++ [x]) b.
Proof.
  intros (Hwf & Hok & Hsub & Hall) Hbad. repeat split; try assumption.
  - intros k Hk. apply in_or_app. left. apply Hsub. exact Hk.
  - intros k Hk Ht Hs Hm. apply in_app_or in Hk as [Hk|[<-|[]]].
    + apply Hall; assumption.
    + destruct Hbad as [H|[H|H]]; congruence.
Qed.

Lemma holds_store (vis : list string) (b : Snapshot) (x h : string)
    (size mtime : Z) :
  baseline_holds env vis b ->
  Prometheus.is_excluded_path (config env) x = false ->
  fs_digest (fs env) x = Some h -> PyStr.truthy (Some h) = true ->
  fs_getsize (fs env) x = Some size -> fs_getmtime (fs env) x = Some mtime ->
  baseline_holds env (vis ++ [x])
    (dict_set x (mkFileInfo h size mtime None (Some "file")) b).
Proof.
  intros (Hwf & Hok & Hsub & Hall) Hx Hd Ht Hs Hm. repeat split.
  - apply dict_set_wf. exact Hwf.
  - apply dict_set_Forall; [|exact Hok].
    unfold prometheus_entry_ok. simpl. repeat split; try assumption.
    apply truthy_some. exact Ht.
  - intros k Hk. apply dict_set_keys in Hk as [->|Hk]; apply in_or_app.
    + right. left. reflexivity.
    + left. apply Hsub. exact Hk.
  - intros k Hk Htk Hsk Hmk. apply dict_set_keys.
    apply in_app_or in Hk as [Hk|[<-|[]]].
    + right. apply Hall; assumption.
    + left. reflexivity.
Qed.

(** [record_file], whatever its outcome, leaves the baseline as it
    should be with its file looked at. *)
Lemma record_file_holds (vis : list string) (b : Snapshot) (x : string) (w : World) :
  baseline_holds env vis b ->
  Prometheus.is_excluded_path (config env) x = false ->
  match fst (Prometheus.record_file env x b w) with
  | Ok b' => baseline_holds env (vis ++ [x]) b'
  | Raise _ => baseline_holds env (vis ++ [x]) b
  end.
Proof.
  intros Hh Hx.
  unfold Prometheus.record_file, calculate_file_hash, Prometheus.baseline_entry.
  destruct (fs_digest (fs env) x) as [h|] eqn:Hd.
  - unfold bind at 1, ret at 1.
    destruct (PyStr.truthy (Some h)) eqn:Ht.
    + destruct (fs_getsize (fs env) x) as [size|] eqn:Hs;
        [destruct (fs_getmtime (fs env) x) as [mtime|] eqn:Hm|].
      * unfold bind, ret. simpl. eapply holds_store; eauto.
      * unfold bind, raise. simpl. apply holds_skip; auto.
      * unfold bind, raise. simpl. apply holds_skip; auto.
    + unfold ret. simpl. apply holds_skip; [exact Hh|]. left. rewrite Hd. exact Ht.
  - unfold bind, logger, ret. simpl. apply holds_skip; [exact Hh|].
    left. rewrite Hd. reflexivity.
Qed.

Lemma filter_snoc {A} (p : A -> bool) (l : list A) (x : A) :
  filter p (l ++ [x]) = filter p l ++ (if p x then [x] else []).
Proof. rewrite filter_app. simpl. destruct (p x); reflexivity. Qed.

Lemma create_baseline_holds (w w' : World) (b : Snapshot) :
  Prometheus.create_baseline env w = (Ok b, w') ->
  baseline_holds env (visited env) b.
Proof.
  unfold Prometheus.create_baseline. intros Hrun.
  apply bind_ok in Hrun as (u0 & w1 & _ & Hrun).
  apply bind_ok in Hrun as (baseline & w2 & Hloop & Hrun).
  apply bind_ok in Hrun as (u1 & w3 & _ & Hrun).
  apply bind_ok in Hrun as (u2 & w4 & _ & Hrun).
  apply bind_ok in Hrun as (u3 & w5 & _ & Hret).
  unfold ret in Hret. injection Hret as Hb _. subst b.
  set (notex := fun f => negb (Prometheus.is_excluded_path (config env) f)).
  assert (Hwalk : forall vis done x acc w0 acc' w0',
             baseline_holds env (vis ++ filter notex done) acc ->
             Prometheus.baseline_walk env x acc w0 = (Ok acc', w0') ->
             baseline_holds env (vis ++ filter notex (done ++ [x])) acc').
  { intros vis done x acc w0 acc' w0' Hh Hbody.
    unfold Prometheus.baseline_walk in Hbody. rewrite filter_snoc. unfold notex at 2.
    destruct (Prometheus.is_excluded_path (config env) x) eqn:Hx; simpl in *.
    - inversion Hbody; subst. rewrite app_nil_r. exact Hh.
    - rewrite app_assoc.
      pose proof (@record_file_holds (vis ++ filter notex done) acc x w0 Hh Hx) as Hr.
      unfold try_except in Hbody.
      destruct (Prometheus.record_file env x acc w0) as [[b'|e] w6]; simpl in Hr.
      + inversion Hbody; subst. exact Hr.
      + apply bind_ok in Hbody as (u & w7 & _ & Hret).
        inversion Hret; subst. exact Hr. }
  assert (Hstep : forall done x acc w0 acc' w0',
             baseline_holds env (flat_map (visit_one env) done) acc ->
             Prometheus.baseline_monitored env x acc w0 = (Ok acc', w0') ->
             baseline_holds env (flat_map (visit_one env) (done ++ [x])) acc').
  { intros done x acc w0 acc' w0' Hh Hbody.
    rewrite flat_map_app. simpl. rewrite app_nil_r.
    unfold Prometheus.baseline_monitored in Hbody. unfold visit_one.
    destruct (fs_exists (fs env) x); simpl in *.
    - destruct (fs_isfile (fs env) x).
      + destruct (Prometheus.is_excluded_path (config env) x) eqn:Hx; simpl in *.
        * inversion Hbody; subst. rewrite app_nil_r. exact Hh.
        * pose proof (@record_file_holds _ acc x w0 Hh Hx) as Hr.
          rewrite Hbody in Hr. exact Hr.
      + assert (H0 : baseline_holds env
                       (flat_map (visit_one env) done ++ filter notex []) acc)
          by (simpl; rewrite app_nil_r; exact Hh).
        exact (for_each_inv_prefix _
                 (fun d a => baseline_holds env
                               (flat_map (visit_one env) done ++ filter notex d) a)
                 (Hwalk _) _ [] _ _ H0 Hbody).
    - apply bind_ok in Hbody as (u & w6 & _ & Hret). inversion Hret; subst.
      rewrite app_nil_r. exact Hh. }
  assert (Hinit : baseline_holds env (flat_map (visit_one env) []) []).
  { repeat split; try constructor; intros k []. }
  exact (for_each_inv_prefix _
           (fun d a => baseline_holds env (flat_map (visit_one env) d) a)
           Hstep _ [] _ _ Hinit Hloop).
Qed.

Lemma create_baseline_spec (w w' : World) (b : Snapshot) :
  Prometheus.create_baseline env w = (Ok b, w') ->
  dict_wf b /\
  Forall (prometheus_entry_ok env) b /\
  forall k, In k (dict_keys b) <->
            In k (visited env) /\
            PyStr.truthy (fs_digest (fs env) k) = true /\
            fs_getsize (fs env) k <> None /\
            fs_getmtime (fs env) k <> None.
Proof.
  intros Hrun.
  destruct (@create_baseline_holds _ _ _ Hrun) as (Hwf & Hok & Hsub & Hall).
  split; [exact Hwf|]. split; [exact Hok|]. intros k. split.
  - intros Hk. split; [apply Hsub; exact Hk|].
    apply dict_keys_get in Hk as [i Hi]. apply dict_get_in in Hi.
    rewrite Forall_forall in Hok. destruct (Hok _ Hi) as (_ & Hd & Hne & Hs & Hm & _).
    simpl in *. rewrite Hd, Hs, Hm.
    split; [apply truthy_some; exact Hne|]. split; discriminate.
  - intros (Hv & Ht & Hs & Hm). apply Hall; assumption.
Qed.

End PrometheusBaseline.

Lemma flat_map_nil {A B} (f : A -> list B) (l : list A) :
  (forall x, In x l -> f x = []) -> flat_map f l = [].
Proof.
  induction l as [|x l IH]; simpl; intros H; [reflexivity|].
  rewrite (H x (or_introl eq_refl)), IH; [reflexivity|].
  intros y Hy. apply H. right. exact Hy.
Qed.

(** X11.  A baseline that [create_baseline] returns names no path
    twice; it holds exactly the visited files that have a non-empty
    digest and whose size and modification time can be read; and each
    entry is not excluded and carries the digest, size and modification
    time of its file. *)
Theorem prometheus_baseline_contents (env : Env) (w w' : World) (b : Snapshot) :
  Prometheus.create_baseline env w = (Ok b, w') ->
  dict_wf b /\
  Forall (prometheus_entry_ok env) b /\
  forall k, In k (dict_keys b) <->
            In k (visited env) /\
            PyStr.truthy (fs_digest (fs env) k) = true /\
            fs_getsize (fs env) k <> None /\
            fs_getmtime (fs env) k <> None.
Proof.
  intros Hrun.
  destruct (create_baseline_spec env w Hrun) as (Hwf & Hok & Hkeys).
  split; [exact Hwf|]. split; [exact Hok | exact Hkeys].
Qed.

Lemma prometheus_baseline_contents_witness :
  dict_wf Sample.settled /\
  Forall (prometheus_entry_ok Sample.env) Sample.settled /\
  forall k, In k (dict_keys Sample.settled) <->
            In k (visited Sample.env) /\
            PyStr.truthy (fs_digest (fs Sample.env) k) = true /\
            fs_getsize (fs Sample.env) k <> None /\
            fs_getmtime (fs Sample.env) k <> None.
Proof.
  apply (@prometheus_baseline_contents Sample.env Sample.empty_world
           (snd (Prometheus.create_baseline Sample.env Sample.empty_world))
           Sample.settled).
  reflexivity.
Defined.

(** X12.  A scan of the Prometheus agent that follows [create_baseline]
    over the same file population finds the baseline just written and
    reports no MODIFIED record; when moreover every visited file exists
    and its size and modification time can be read, it reports no
    change at all. *)
Theorem prometheus_scan_after_baseline (env : Env) (w w1 : World) (b : Snapshot) :
  Prometheus.create_baseline env w = (Ok b, w1) ->
  exists changes w2,
    Prometheus.scan_files_detect env w1 = (Ok (b, changes), w2) /\
    Forall (fun r => c_type r <> MODIFIED) changes /\
    ((forall k, In k (visited env) ->
                fs_exists (fs env) k = true /\
                fs_getsize (fs env) k <> None /\
                fs_getmtime (fs env) k <> None) ->
     changes = []).
Proof.
  intros Hcreate.
  pose proof (create_baseline_persists _ _ Hcreate) as Hfile.
  destruct (create_baseline_spec _ _ Hcreate) as (Hwf & Hok & Hkeys).
  destruct (run_scan_files_detect env w1 Hfile) as (changes & w2 & Hrun & Hsh).
  exists changes, w2. split; [exact Hrun|].
  assert (Hsame : forall x bi h,
             dict_get x b = Some bi -> fs_digest (fs env) x = Some h ->
             (h =? fi_hash bi) = true).
  { intros x bi h Hb Hd. apply dict_get_in in Hb.
    rewrite Forall_forall in Hok. destruct (Hok _ Hb) as (_ & Hd' & _).
    simpl in Hd'. rewrite Hd in Hd'. inversion Hd'. apply String.eqb_refl. }
  split.
  - apply Forall_forall. intros r Hr. apply (in_map erase) in Hr.
    rewrite Hsh in Hr. unfold scan_erased in Hr.
    apply in_app_or in Hr as [Hr|Hr]; apply in_flat_map in Hr as (x & Hx & Hr).
    + unfold check_erased in Hr.
      destruct (dict_get x b) as [bi|] eqn:Hb;
        destruct (fs_digest (fs env) x) as [h|] eqn:Hd; try contradiction.
      * rewrite (Hsame x bi h Hb Hd), andb_false_r in Hr. contradiction.
      * destruct (PyStr.truthy (Some h)); [|contradiction].
        destruct Hr as [Hr|[]]. destruct r; inversion Hr; subst; simpl; discriminate.
    + unfold deleted_erased in Hr.
      destruct (negb (fs_exists (fs env) x)); [|contradiction].
      destruct Hr as [Hr|[]]. destruct r; inversion Hr; subst; simpl; discriminate.
  - intros Hall. apply map_erase_nil. rewrite Hsh. unfold scan_erased.
    rewrite !flat_map_nil; [reflexivity | |].
    + intros k Hk. apply Hkeys in Hk as (Hv & _).
      destruct (Hall k Hv) as (He & _). unfold deleted_erased. rewrite He.
      reflexivity.
    + intros x Hx. unfold check_erased.
      destruct (dict_get x b) as [bi|] eqn:Hb;
        destruct (fs_digest (fs env) x) as [h|] eqn:Hd; try reflexivity.
      * rewrite (Hsame x bi h Hb Hd), andb_false_r. reflexivity.
      * destruct (PyStr.truthy (Some h)) eqn:Ht; [|reflexivity].
        exfalso. apply dict_get_none in Hb. apply Hb, Hkeys.
        destruct (Hall x Hx) as (_ & Hs & Hm).
        rewrite Hd. auto.
Qed.

Lemma prometheus_scan_after_baseline_witness :
  exists changes w2,
    Prometheus.scan_files_detect Sample.env
      (snd (Prometheus.create_baseline Sample.env Sample.world))
      = (Ok (Sample.settled, changes), w2) /\
    Forall (fun r => c_type r <> MODIFIED) changes /\
    ((forall k, In k (visited Sample.env) ->
                fs_exists (fs Sample.env) k = true /\
                fs_getsize (fs Sample.env) k <> None /\
                fs_getmtime (fs Sample.env) k <> None) ->
     changes = []).
Proof.
  apply (@prometheus_scan_after_baseline Sample.env Sample.world).
  reflexivity.
Defined.

(** X13.  Over a baseline file that cannot be parsed, a scan of the
    Prometheus agent does not rebuild the baseline when it loads it: it
    takes the baseline to be empty, leaves the file as it is, and
    reports every visited file that has a non-empty digest as NEW, in
    the order visited, and nothing else. *)
Theorem prometheus_scan_over_torn_baseline (env : Env) (w : World) :
  baseline_file w = Some Torn ->
  exists changes w',
    Prometheus.scan_files_detect env w = (Ok ([], changes), w') /\
    baseline_file w' = Some Torn /\
    creations w' = creations w /\
    Forall (fun r => c_type r = NEW) changes /\
    map c_file changes =
      filter (fun x => PyStr.truthy (fs_digest (fs env) x)) (visited env).
Proof.
  intros Hfile.
  destruct (run_scan_files_detect env w Hfile) as (changes & w' & Hrun & Hsh).
  pose proof (scan_files_detect_quiet env w Hfile) as Hq. rewrite Hrun in Hq.
  destruct Hq as (Hb & _ & _ & _ & Hc & _). simpl in Hb, Hc.
  exists changes, w'. split; [exact Hrun|].
  split; [congruence|]. split; [exact Hc|].
  unfold scan_erased in Hsh. simpl in Hsh. rewrite app_nil_r in Hsh. split.
  - apply Forall_forall. intros r Hr. apply (in_map erase) in Hr.
    rewrite Hsh in Hr. apply in_flat_map in Hr as (x & _ & Hr).
    unfold check_erased in Hr. simpl dict_get in Hr.
    destruct (fs_digest (fs env) x) as [h|]; [|contradiction].
    destruct (PyStr.truthy (Some h)); [|contradiction].
    destruct Hr as [Hr|[]]. destruct r; inversion Hr; subst; reflexivity.
  - rewrite <- map_file_erase, Hsh. clear.
    induction (visited env) as [|x l IH]; [reflexivity|].
    simpl flat_map. simpl filter. rewrite map_app, IH.
    unfold check_erased. simpl dict_get.
    destruct (fs_digest (fs env) x) as [h|]; [|reflexivity].
    destruct (PyStr.truthy (Some h)); reflexivity.
Qed.

Lemma prometheus_scan_over_torn_baseline_witness :
  exists changes w',
    Prometheus.scan_files_detect Sample.env Cases.torn_world
      = (Ok ([], changes), w') /\
    baseline_file w' = Some Torn /\
    creations w' = creations Cases.torn_world /\
    Forall (fun r => c_type r = NEW) changes /\
    map c_file changes =
      filter (fun x => PyStr.truthy (fs_digest (fs Sample.env) x))
             (visited Sample.env).
Proof.
  apply (@prometheus_scan_over_torn_baseline Sample.env Cases.torn_world).
  reflexivity.
Defined.

(* ================================================================== *)
(** * Loading the configuration *)

Lemma merge_defaults_get (defaults : Settings) :
  forall (config : Settings) (k : string),
    dict_get k (merge_defaults defaults config) =
    match dict_get k config with
    | Some v => Some v
    | None => dict_get k defaults
    end.
Proof.
  unfold merge_defaults.
  induction defaults as [|[k0 v0] rest IH]; intros config k; simpl.
  - destruct (dict_get k config); reflexivity.
  - rewrite IH. unfold dict_mem.
    destruct (dict_get k0 config) as [v|] eqn:H0.
    + destruct (dict_get k config) as [v'|] eqn:Hk; [reflexivity|].
      destruct (String.eqb_spec k k0) as [->|Hne]; [congruence | reflexivity].
    + destruct (String.eqb_spec k k0) as [->|Hne].
      * rewrite dict_get_set_same, H0. reflexivity.
      * rewrite dict_get_set_other by exact Hne. reflexivity.
Qed.

Lemma merge_defaults_wf (defaults : Settings) :
  forall config, dict_wf config -> dict_wf (merge_defaults defaults config).
Proof.
  unfold merge_defaults.
  induction defaults as [|[k0 v0] rest IH]; intros config Hwf; simpl.
  - exact Hwf.
  - apply IH. destruct (dict_mem k0 config); [exact Hwf|].
    apply dict_set_wf. exact Hwf.
Qed.

(** The entries of the file stay in front, as they are. *)
Lemma merge_defaults_extends (defaults : Settings) :
  forall config, exists added, merge_defaults defaults config = config ++ added.
Proof.
  unfold merge_defaults.
  induction defaults as [|[k0 v0] rest IH]; intros config; simpl.
  - exists []. rewrite app_nil_r. reflexivity.
  - destruct (dict_mem k0 config) eqn:Hm; [apply IH|].
    apply dict_mem_false in Hm. rewrite (dict_set_absent _ v0 _ Hm).
    destruct (IH (config ++ [(k0, v0)])) as (added & ->).
    exists ((k0, v0) :: added). rewrite <- app_assoc. reflexivity.
Qed.

Lemma merge_defaults_full (defaults config : Settings) :
  (forall kv, In kv defaults -> dict_mem (fst kv) config = true) ->
  merge_defaults defaults config = config.
Proof.
  unfold merge_defaults. induction defaults as [|[k0 v0] rest IH]; simpl; intros H.
  - reflexivity.
  - pose proof (H (k0, v0) (or_introl eq_refl)) as Hk. simpl in Hk.
    rewrite Hk. apply IH.
    intros kv Hin. apply H. right. exact Hin.
Qed.

(** X14.  When the configuration file parses, [load_config] of both
    agents returns, for every key, the value of the file when the file
    sets the key and the default otherwise; the entries of the file,
    known to the defaults or not, stay in front in their order, the
    missing defaults follow; no key is repeated; nothing is printed and
    the file is not written. *)
Theorem load_config_merges (user : Settings) (pending : list bool) :
  let agent := AgentConfig.load_config (Some (Complete user)) in
  let prom :=
    PrometheusConfig.load_config
      (PrometheusConfig.mkConfigStore (Some (Complete user)) pending) in
  snd agent = None /\
  snd (fst prom) = None /\
  snd prom = PrometheusConfig.mkConfigStore (Some (Complete user)) pending /\
  (forall k, dict_get k (fst agent) =
             match dict_get k user with
             | Some v => Some v
             | None => dict_get k AgentConfig.default_config
             end) /\
  (forall k, dict_get k (fst (fst prom)) =
             match dict_get k user with
             | Some v => Some v
             | None => dict_get k PrometheusConfig.default_config
             end) /\
  (exists added, fst agent = user ++ added) /\
  (exists added, fst (fst prom) = user ++ added) /\
  (dict_wf user -> dict_wf (fst agent) /\ dict_wf (fst (fst prom))).
Proof.
  intros agent prom. subst agent prom.
  unfold AgentConfig.load_config, PrometheusConfig.load_config.
  cbn [PrometheusConfig.config_file fst snd]. repeat split.
  - intros k. apply merge_defaults_get.
  - intros k. apply merge_defaults_get.
  - apply merge_defaults_extends.
  - apply merge_defaults_extends.
  - apply merge_defaults_wf. assumption.
  - apply merge_defaults_wf. assumption.
Qed.

Lemma load_config_merges_witness :
  dict_wf (fst (AgentConfig.load_config (Some (Complete Cases.user_settings)))) /\
  dict_get "scan_interval"
    (fst (AgentConfig.load_config (Some (Complete Cases.user_settings))))
    = Some (JInt 60) /\
  dict_get "site"
    (fst (AgentConfig.load_config (Some (Complete Cases.user_settings))))
    = Some (JString "lab") /\
  dict_get "alert_on_change"
    (fst (AgentConfig.load_config (Some (Complete Cases.user_settings))))
    = Some (JBool true).
Proof.
  destruct (@load_config_merges Cases.user_settings [])
    as (_ & _ & _ & Hget & _ & _ & _ & Hwf).
  split; [apply Hwf; wf_by_keys|].
  rewrite !Hget. repeat split; reflexivity.
Defined.

Lemma merge_defaults_mem (defaults config : Settings) (k : string) :
  dict_mem k defaults = true -> dict_mem k (merge_defaults defaults config) = true.
Proof.
  unfold dict_mem. rewrite merge_defaults_get.
  destruct (dict_get k config); [reflexivity|]. intros H. exact H.
Qed.

(** What the Prometheus agent does when it finds no configuration
    file, for every outcome of the write steps. *)
Lemma load_config_absent (pending : list bool) :
  let first := PrometheusConfig.load_config
                 (PrometheusConfig.mkConfigStore None pending) in
  fst (fst first) = PrometheusConfig.default_config /\
  PrometheusConfig.config_file (snd first) =
    match pending with
    | true :: _ | false :: true :: _ => None
    | false :: false :: true :: _ => Some Torn
    | _ => Some (Complete PrometheusConfig.default_config)
    end.
Proof.
  destruct pending as [|[] [|[] [|[] rest]]]; split; reflexivity.
Qed.

(** X15.  [load_config] of both agents returns a configuration that
    defines every key of the defaults, whatever the configuration file
    holds.  The Prometheus agent leaves a configuration file that
    exists as it is, and writes the defaults only when there is none:
    the directory is created, the file opened and the defaults dumped,
    and a failure of the first two steps leaves no file, a failure of
    the dump a torn one.  Its answer is settled: whatever the file held
    and however the write steps went, loading again returns the same
    configuration. *)
Theorem load_config_settles
    (file : option (Stored Settings)) (st : PrometheusConfig.ConfigStore)
    (later : list bool) :
  let first := PrometheusConfig.load_config st in
  let again :=
    PrometheusConfig.load_config
      (PrometheusConfig.mkConfigStore
         (PrometheusConfig.config_file (snd first)) later) in
  (forall k, dict_mem k AgentConfig.default_config = true ->
             dict_mem k (fst (AgentConfig.load_config file)) = true) /\
  (forall k, dict_mem k PrometheusConfig.default_config = true ->
             dict_mem k (fst (fst first)) = true) /\
  (PrometheusConfig.config_file st <> None -> snd first = st) /\
  (PrometheusConfig.config_file st = None ->
   PrometheusConfig.config_file (snd first) =
     match PrometheusConfig.config_faults st with
     | true :: _ | false :: true :: _ => None
     | false :: false :: true :: _ => Some Torn
     | _ => Some (Complete PrometheusConfig.default_config)
     end) /\
  fst (fst again) = fst (fst first).
Proof.
  intros first again. subst first again.
  split; [|split; [|split; [|split]]].
  - intros k Hk. unfold AgentConfig.load_config.
    destruct file as [[config|]|]; cbn [fst]; try exact Hk.
    apply merge_defaults_mem. exact Hk.
  - intros k Hk. destruct st as [[[config|]|] pending].
    + unfold PrometheusConfig.load_config.
      cbn [PrometheusConfig.config_file fst].
      apply merge_defaults_mem. exact Hk.
    + exact Hk.
    + destruct (load_config_absent pending) as [Hd _]. cbv zeta in Hd.
      rewrite Hd. exact Hk.
  - intros Hfile. destruct st as [[[config|]|] pending];
      [reflexivity | reflexivity | contradiction Hfile; reflexivity].
  - intros Hfile. destruct st as [f pending].
    cbn [PrometheusConfig.config_file PrometheusConfig.config_faults] in *.
    subst f. apply load_config_absent.
  - destruct st as [[[config|]|] pending]; try reflexivity.
    destruct (load_config_absent pending) as [Hd Hf]. cbv zeta in Hd, Hf.
    rewrite Hd, Hf.
    destruct pending as [|[] [|[] [|[] rest]]];
      try reflexivity; apply load_config_absent.
Qed.

(* ================================================================== *)
(** * Scope of a path *)

(** X16.  [should_monitor_path] accepts a path exactly when no
    exclusion rule matches it and the text of some monitored root is a
    prefix of the text of the path. *)
Theorem should_monitor_path_iff (cfg : Config) (path : string) :
  Agent.should_monitor_path cfg path = true <->
  ~ excluded_by_rule cfg path /\
  exists root rest, In root (monitored_paths cfg) /\ path = (root ++ rest)%string.
Proof.
  unfold Agent.should_monitor_path. rewrite excluded_by_rule_iff.
  destruct (existsb (fun excluded => excluded_by excluded path)
              (excluded_paths cfg)).
  - split; [discriminate | intros [H _]; exfalso; apply H; reflexivity].
  - rewrite existsb_exists. split.
    + intros (root & Hin & Hp). split; [discriminate|].
      apply startswith_iff in Hp as [rest Hp]. exists root, rest. auto.
    + intros (_ & root & rest & Hin & Hp). exists root. split; [exact Hin|].
      apply startswith_iff. exists rest. exact Hp.
Qed.

(* ================================================================== *)
(** * Two cycles in a row *)

(** With every write succeeding, the end of a cycle leaves no write
    outcome pending. *)
Lemma perform_scan_end_no_faults (s : Snapshot) (w : World) :
  faults w = [] ->
  faults (snd ((Agent.save_baseline s ;;
                logger INFO (MsgScanCompleted (List.length s))) w)) = [].
Proof.
  intros H.
  unfold Agent.save_baseline, try_except, makedirs, bind, open_w_baseline,
    json_dump_baseline, next_fault, bind, raise, ret, logger.
  destruct w as [b r l t f]. simpl in *. subst f. reflexivity.
Qed.

(** With every write succeeding, writes keep succeeding. *)
Lemma cycle_reaction_no_faults (env : Env) (changes : list Change) :
  preserves (fun w => faults w = []) (cycle_reaction env changes).
Proof.
  assert (Hnext : forall (k : bool -> M unit),
             (forall f, preserves (fun w => faults w = []) (k f)) ->
             preserves (fun w => faults w = []) (bind next_fault k)).
  { intros k Hk w H. unfold bind, next_fault. rewrite H. apply Hk. exact H. }
  unfold cycle_reaction. destruct changes as [|c cs]; [preserve|].
  apply preserves_bind; [|intros _; unfold Agent.send_alert; preserve].
  unfold Agent.report_changes.
  apply preserves_bind; [preserve|]. intros _.
  apply preserves_bind; [preserve|]. intros _.
  unfold Agent.append_to_reports.
  apply preserves_try_except; [|intros e; preserve].
  apply preserves_bind; [preserve|]. intros ts.
  apply preserves_bind.
  { intros w H. unfold Agent.read_report_file.
    destruct (report_file w) as [[j|]|]; exact H. }
  intros reports. apply preserves_bind.
  { unfold Agent.append_report. preserve. }
  intros reports'. apply preserves_bind.
  - unfold open_w_report. apply Hnext. intros []; [preserve|].
    intros w H. exact H.
  - intros _. unfold json_dump_report. apply Hnext. intros []; [preserve|].
    intros w H. exact H.
Qed.

(** X17.  With every write step succeeding, a cycle of [fim-agent.py]
    completes and the cycle that follows it over the same file
    population completes too, adds no report and logs no alert. *)
Theorem agent_second_cycle_silent (env : Env) (w : World) :
  faults w = [] ->
  exists w1 w2,
    Agent.perform_scan env w = (Ok tt, w1) /\
    Agent.perform_scan env w1 = (Ok tt, w2) /\
    report_file w2 = report_file w1 /\
    alerts w2 = alerts w1.
Proof.
  intros Hnf.
  destruct (perform_scan_run env w)
    as (s & changes & wa & wb & w3 & Hbuild & Hcmp & Hreact & Hrun1 & Hu & _).
  assert (Hfb : faults wb = []).
  { destruct Hu as (_ & _ & Hf & _). congruence. }
  assert (Hf3 : faults w3 = []).
  { pose proof (@cycle_reaction_no_faults env changes wb Hfb) as H.
    rewrite Hreact in H. exact H. }
  destruct (perform_scan_end s w3) as (Hok1 & Hfile1 & _).
  pose proof (perform_scan_end_no_faults s w3 Hf3) as Hnf1.
  cbv zeta in Hok1, Hfile1. rewrite <- Hrun1 in Hok1, Hfile1, Hnf1.
  rewrite Hf3 in Hok1, Hfile1.
  set (w1 := snd (Agent.perform_scan env w)) in *.
  destruct (perform_scan_run env w1)
    as (s2 & changes2 & w1a & w1b & w3' & Hbuild2 & Hcmp2 & _ & Hrun2 & Hu2 & _
        & Ha2 & _ & Hsame2).
  assert (Hnil : changes2 = []).
  { destruct (rescan_no_change env _ (snd (logger INFO MsgStartingScan w1))
                Hbuild Hfile1) as (s2' & w2' & Hb' & Hc').
    rewrite Hbuild2 in Hb'. inversion Hb'; subst s2' w2'.
    rewrite Hcmp2 in Hc'. simpl in Hc'. inversion Hc'. reflexivity. }
  subst changes2. simpl in Ha2. rewrite Nat.add_0_r in Ha2.
  rewrite (Hsame2 eq_refl) in *.
  destruct Hu2 as (_ & Hr2 & Hf2 & _).
  destruct (perform_scan_end s2 w1b) as (Hok2 & _ & Halerts2 & _ & Hrep2).
  cbv zeta in Hok2, Halerts2, Hrep2. rewrite <- Hrun2 in Hok2, Halerts2, Hrep2.
  rewrite Hf2, Hnf1 in Hok2.
  exists w1, (snd (Agent.perform_scan env w1)).
  split; [unfold w1; rewrite <- Hok1; apply surjective_pairing|].
  split; [rewrite <- Hok2; apply surjective_pairing|].
  split; [rewrite Hrep2; exact Hr2 | rewrite Halerts2; exact Ha2].
Qed.

Lemma agent_second_cycle_silent_witness :
  exists w1 w2,
    Agent.perform_scan Sample.env Sample.world = (Ok tt, w1) /\
    Agent.perform_scan Sample.env w1 = (Ok tt, w2) /\
    report_file w2 = report_file w1 /\
    alerts w2 = alerts w1.
Proof.
  apply (@agent_second_cycle_silent Sample.env Sample.world). reflexivity.
Defined.

Section PrometheusTwoCycles.
Variable env : Env.

Lemma scan_erased_no_modified (b : Snapshot) :
  Forall (prometheus_entry_ok env) b ->
  forall r, In r (scan_erased env b) -> c_type r <> MODIFIED.
Proof.
  intros Hok r Hr. unfold scan_erased in Hr.
  apply in_app_or in Hr as [Hr|Hr]; apply in_flat_map in Hr as (x & Hx & Hr).
  - unfold check_erased in Hr.
    destruct (dict_get x b) as [bi|] eqn:Hb;
      destruct (fs_digest (fs env) x) as [h|] eqn:Hd; try contradiction.
    + apply dict_get_in in Hb. rewrite Forall_forall in Hok.
      destruct (Hok _ Hb) as (_ & Hd' & _). simpl in Hd'.
      rewrite Hd in Hd'. inversion Hd'; subst h.
      rewrite String.eqb_refl, andb_false_r in Hr. contradiction.
    + destruct (PyStr.truthy (Some h)); [|contradiction].
      destruct Hr as [<-|[]]. discriminate.
  - unfold deleted_erased in Hr.
    destruct (negb (fs_exists (fs env) x)); [|contradiction].
    destruct Hr as [<-|[]]. discriminate.
Qed.

(** After the detection phase the baseline file holds the baseline that
    the phase used, or is torn when that baseline is empty. *)
Lemma scan_files_detect_store (w wd : World) (b : Snapshot) (ch : list Change) :
  Prometheus.scan_files_detect env w = (Ok (b, ch), wd) ->
  exists content,
    baseline_file wd = Some content /\
    b = match content with Complete x => x | Torn => [] end.
Proof.
  intros Hdet. destruct (baseline_file w) as [content|] eqn:Hfile.
  - exists content.
    pose proof (scan_files_detect_quiet env w Hfile) as Hq.
    rewrite Hdet in Hq. destruct Hq as (Hb & _). simpl in Hb.
    split; [congruence|].
    destruct (run_scan_files_detect env w Hfile) as (ch' & w' & Hrun & _).
    rewrite Hdet in Hrun. inversion Hrun. reflexivity.
  - unfold Prometheus.scan_files_detect in Hdet.
    apply bind_ok in Hdet as (b0 & w1 & Hload & Hloops).
    rewrite (prometheus_load_without_baseline env w Hfile) in Hload.
    apply create_baseline_persists in Hload.
    destruct (run_detect_loops env b0 w1) as (ch' & w' & Hrun & _).
    rewrite Hloops in Hrun. inversion Hrun; subst b0 ch' w'.
    pose proof (@detect_loops_quiet env w1 b w1 (untouched_refl w1)) as Hq.
    rewrite Hloops in Hq. destruct Hq as (Hb & _). simpl in Hb.
    exists (Complete b). split; [congruence | reflexivity].
Qed.

(** What a completed cycle leaves in the baseline file: what detection
    left when there was no change, a baseline just built otherwise. *)
Lemma scan_files_store (w w1 : World) :
  Prometheus.scan_files env w = (Ok tt, w1) ->
  exists b ch wd,
    Prometheus.scan_files_detect env w = (Ok (b, ch), wd) /\
    (ch = [] -> baseline_file w1 = baseline_file wd) /\
    (ch <> [] ->
     exists b' wa wb,
       Prometheus.create_baseline env wa = (Ok b', wb) /\
       baseline_file w1 = Some (Complete b')).
Proof.
  unfold Prometheus.scan_files. intros Hrun.
  apply bind_ok in Hrun as ([b ch] & wd & Hdet & Hreact).
  exists b, ch, wd. split; [exact Hdet|]. simpl in Hreact.
  unfold Prometheus.scan_files_react in Hreact.
  apply bind_ok in Hreact as (u & w2 & Hblock & Hfin).
  unfold logger in Hfin. injection Hfin as Hw1. split.
  - intros ->. unfold ret in Hblock. injection Hblock as _ Hw2.
    rewrite <- Hw1, <- Hw2. reflexivity.
  - intros Hne. destruct ch as [|c cs]; [congruence|].
    apply bind_ok in Hblock as (u1 & w3 & _ & Hblock).
    apply bind_ok in Hblock as (u2 & w4 & _ & Hblock).
    apply bind_ok in Hblock as (u3 & w5 & _ & Hblock).
    apply bind_ok in Hblock as (u4 & w6 & _ & Hupd).
    unfold Prometheus.update_baseline in Hupd.
    apply bind_ok in Hupd as (u5 & w7 & _ & Hupd).
    apply bind_ok in Hupd as (b' & w8 & Hcreate & Hlog).
    unfold logger in Hlog. injection Hlog as _ Hw2.
    exists b', w7, w8. split; [exact Hcreate|].
    apply create_baseline_persists in Hcreate.
    rewrite <- Hw1, <- Hw2. exact Hcreate.
Qed.

End PrometheusTwoCycles.

(** X18.  After a completed cycle of the Prometheus agent, the
    detection phase of the next cycle over the same file population
    returns and reports no MODIFIED record: a modification is reported
    by one cycle only. *)
Theorem prometheus_modification_reported_once (env : Env) (w w1 : World) :
  Prometheus.scan_files env w = (Ok tt, w1) ->
  exists b changes w2,
    Prometheus.scan_files_detect env w1 = (Ok (b, changes), w2) /\
    Forall (fun r => c_type r <> MODIFIED) changes.
Proof.
  intros Hrun.
  destruct (scan_files_store env w Hrun) as (b & ch & wd & Hdet & Hnil & Hsome).
  destruct ch as [|c cs].
  - destruct (scan_files_detect_store env w Hdet) as (content & Hfile & Hb).
    rewrite <- (Hnil eq_refl) in Hfile.
    destruct (run_scan_files_detect env w1 Hfile) as (changes & w2 & Hrun2 & Hsh).
    rewrite <- Hb in Hrun2, Hsh.
    exists b, changes, w2. split; [exact Hrun2|].
    apply scan_files_detect_erased in Hdet. simpl in Hdet.
    rewrite <- Hdet in Hsh. apply map_erase_nil in Hsh. subst changes.
    constructor.
  - destruct Hsome as (b' & wa & wb & Hcreate & Hfile); [discriminate|].
    destruct (run_scan_files_detect env w1 Hfile) as (changes & w2 & Hrun2 & Hsh).
    exists b', changes, w2. split; [exact Hrun2|].
    destruct (create_baseline_spec env wa Hcreate) as (_ & Hok & _).
    apply Forall_forall. intros r Hr. apply (in_map erase) in Hr.
    rewrite Hsh in Hr.
    pose proof (@scan_erased_no_modified env b' Hok _ Hr) as Hty.
    destruct r; simpl in Hty; exact Hty.
Qed.

Lemma prometheus_modification_reported_once_witness :
  exists b changes w2,
    Prometheus.scan_files_detect Sample.env
      (snd (Prometheus.scan_files Sample.env Sample.world))
      = (Ok (b, changes), w2) /\
    Forall (fun r => c_type r <> MODIFIED) changes.
Proof.
  apply (@prometheus_modification_reported_once Sample.env Sample.world).
  vm_compute. reflexivity.
Defined.

(* ================================================================== *)
(** * Classification of paths by both agents *)

Lemma existsb_eqb_keys (V : Type) (p : string) (d : dict V) :
  existsb (String.eqb p) (dict_keys d) = dict_mem p d.
Proof.
  unfold dict_mem. induction d as [|[k v] r IH]; simpl; [reflexivity|].
  destruct (p =? k); simpl; [reflexivity | exact IH].
Qed.

(** Records produced path by path, each about its own path, over a list
    that names no path twice: the records about [p] are those of [p]. *)
Lemma records_for_paths (f : string -> list Change) (l : list string)
    (p : string) :
  (forall x r, In r (f x) -> c_file r = x) -> NoDup l ->
  records_for p (flat_map f l) = if existsb (String.eqb p) l then f p else [].
Proof.
  intros Hf. induction l as [|x rest IH]; simpl; intros Hnd; [reflexivity|].
  inversion Hnd as [|? ? Hnotin Hnd']; subst.
  rewrite records_for_app, (IH Hnd').
  destruct (String.eqb_spec p x) as [->|Hne]; simpl.
  - assert (existsb (String.eqb x) rest = false) as ->.
    { destruct (existsb (String.eqb x) rest) eqn:E; [|reflexivity].
      apply existsb_exists in E as (y & Hy & Hxy).
      apply String.eqb_eq in Hxy. subst y. contradiction. }
    rewrite app_nil_r. unfold records_for. apply forallb_filter_id.
    apply forallb_forall. intros r Hr. apply Hf in Hr. rewrite Hr.
    apply String.eqb_refl.
  - rewrite (@records_for_other p x (f x)); [reflexivity | | congruence].
    intros r Hr. apply Hf. exact Hr.
Qed.

Lemma check_erased_file (env : Env) (baseline : Snapshot) (x : string)
    (r : Change) :
  In r (check_erased env baseline x) -> c_file r = x.
Proof.
  unfold check_erased.
  destruct (dict_get x baseline); destruct (fs_digest (fs env) x);
    try destruct (_ && _); try destruct (PyStr.truthy _); simpl;
    intros Hin; in_singleton Hin.
Qed.

Lemma deleted_erased_file (env : Env) (x : string) (r : Change) :
  In r (deleted_erased env x) -> c_file r = x.
Proof.
  unfold deleted_erased. destruct (negb _); simpl; intros Hin; in_singleton Hin.
Qed.

(** The records of a scan of the Prometheus agent that are about one
    path, when no file is looked at twice. *)
Lemma scan_erased_records (env : Env) (baseline : Snapshot) (p : string) :
  dict_wf baseline -> NoDup (visited env) ->
  records_for p (scan_erased env baseline) =
  (if is_visited env p then check_erased env baseline p else []) ++
  (if dict_mem p baseline then deleted_erased env p else []).
Proof.
  intros Hwf Hnd. unfold scan_erased, is_visited.
  rewrite records_for_app.
  rewrite (records_for_paths (check_erased env baseline));
    [| intros x r; apply check_erased_file | exact Hnd].
  rewrite (records_for_paths (deleted_erased env));
    [| intros x r; apply deleted_erased_file | exact Hwf].
  rewrite existsb_eqb_keys. reflexivity.
Qed.

(** C1, as the code has it.  In [fim-agent.py], for well-formed
    snapshots, [compare_with_baseline] classifies every path as the
    claim says, with exactly one record or none, and names no path
    twice.  The Prometheus agent has no current snapshot: with a
    well-formed baseline and no file looked at twice, the records of
    its scan about a path are those of [check_file] followed by those
    of the deleted loop.  A file looked at, with a non-empty digest,
    gets exactly one NEW record with that digest when the baseline lacks
    it, exactly one MODIFIED record with both fingerprints when the
    baseline holds another fingerprint, and none otherwise; a file not
    looked at, or without a digest, gets none.  A path of the baseline
    gets exactly one DELETED record, with no fingerprint, when it no
    longer exists, and none when it exists, readable or not. *)
Theorem change_records_classified (env : Env) (w : World) :
  (forall w1 baseline current,
      dict_wf baseline -> dict_wf current ->
      Agent.load_baseline w = (Ok baseline, w1) ->
      exists changes w',
        Agent.compare_with_baseline env current w = (Ok changes, w') /\
        NoDup (map c_file changes) /\
        forall p,
          match dict_get p current, dict_get p baseline with
          | Some c, None =>
              exists r, records_for p changes = [r] /\
                        is_new_record p (fi_hash c) r
          | Some c, Some b =>
              if fi_hash c =? fi_hash b then records_for p changes = []
              else exists r, records_for p changes = [r] /\
                             is_modified_record p (fi_hash b) (fi_hash c) r
          | None, Some b =>
              exists r, records_for p changes = [r] /\
                        is_deleted_record p (fi_hash b) r
          | None, None => records_for p changes = []
          end) /\
  (forall baseline changes w',
      Prometheus.scan_files_detect env w = (Ok (baseline, changes), w') ->
      dict_wf baseline -> NoDup (visited env) ->
      forall p, exists found gone,
        records_for p changes = found ++ gone /\
        (if is_visited env p then
           match fs_digest (fs env) p, dict_get p baseline with
           | Some h, None =>
               if PyStr.truthy (Some h)
               then exists r, found = [r] /\ is_new_record p h r
               else found = []
           | Some h, Some b =>
               if PyStr.truthy (Some h) && negb (h =? fi_hash b)
               then exists r, found = [r] /\
                              is_modified_record p (fi_hash b) h r
               else found = []
           | None, _ => found = []
           end
         else found = []) /\
        match dict_get p baseline with
        | Some _ =>
            if fs_exists (fs env) p then gone = []
            else exists r, gone = [r] /\ is_bare_deleted_record p r
        | None => gone = []
        end).
Proof.
  split.
  - intros w1 baseline current Hb Hc Hload.
    exact (agent_changes_classified env w Hb Hc Hload).
  - intros baseline changes w' Hrun Hwf Hnd p.
    apply scan_files_detect_erased in Hrun.
    assert (Hrec : map erase (records_for p changes) =
                   (if is_visited env p then check_erased env baseline p else []) ++
                   (if dict_mem p baseline then deleted_erased env p else [])).
    { rewrite <- records_for_erase, Hrun.
      apply scan_erased_records; assumption. }
    apply map_eq_app in Hrec as (found & gone & Hsplit & Hfound & Hgone).
    exists found, gone. split; [exact Hsplit|]. split.
    + destruct (is_visited env p); [|apply map_erase_nil; exact Hfound].
      unfold check_erased in Hfound.
      destruct (fs_digest (fs env) p) as [h|];
        destruct (dict_get p baseline) as [b|];
        try (apply map_erase_nil; exact Hfound).
      * destruct (PyStr.truthy (Some h) && negb (h =? fi_hash b));
          [|apply map_erase_nil; exact Hfound].
        apply map_erase_singleton in Hfound as (r & -> & Hr).
        exists r. split; [reflexivity|].
        unfold is_modified_record. destruct r; inversion Hr; subst; simpl; auto.
      * destruct (PyStr.truthy (Some h)); [|apply map_erase_nil; exact Hfound].
        apply map_erase_singleton in Hfound as (r & -> & Hr).
        exists r. split; [reflexivity|].
        unfold is_new_record. destruct r; inversion Hr; subst; simpl; auto.
    + unfold dict_mem in Hgone.
      destruct (dict_get p baseline) as [b|]; [|apply map_erase_nil; exact Hgone].
      unfold deleted_erased in Hgone.
      destruct (fs_exists (fs env) p); simpl in Hgone;
        [apply map_erase_nil; exact Hgone|].
      apply map_erase_singleton in Hgone as (r & -> & Hr).
      exists r. split; [reflexivity|].
      unfold is_bare_deleted_record. destruct r; inversion Hr; subst; simpl; auto.
Qed.

Lemma change_records_classified_witness :
  (exists changes w',
      Agent.compare_with_baseline Sample.env Sample.current Sample.world
        = (Ok changes, w') /\
      NoDup (map c_file changes) /\
      forall p,
        match dict_get p Sample.current, dict_get p Sample.baseline with
        | Some c, None =>
            exists r, records_for p changes = [r] /\
                      is_new_record p (fi_hash c) r
        | Some c, Some b =>
            if fi_hash c =? fi_hash b then records_for p changes = []
            else exists r, records_for p changes = [r] /\
                           is_modified_record p (fi_hash b) (fi_hash c) r
        | None, Some b =>
            exists r, records_for p changes = [r] /\
                      is_deleted_record p (fi_hash b) r
        | None, None => records_for p changes = []
        end) /\
  (exists baseline changes w',
      Prometheus.scan_files_detect Sample.env Sample.world
        = (Ok (baseline, changes), w') /\
      exists found gone,
        records_for "/data/c.txt" changes = found ++ gone /\
        found = [] /\
        exists r, gone = [r] /\ is_bare_deleted_record "/data/c.txt" r).
Proof.
  destruct (change_records_classified Sample.env Sample.world) as [Hagent Hprom].
  split.
  - apply (Hagent Sample.world Sample.baseline Sample.current).
    + wf_by_keys.
    + wf_by_keys.
    + reflexivity.
  - eexists _, _, _. split; [reflexivity|].
    destruct (Hprom Sample.baseline _ _ eq_refl) with (p := "/data/c.txt")
      as (found & gone & Hsplit & Hfound & Hgone).
    + wf_by_keys.
    + simpl. repeat constructor; simpl; intuition discriminate.
    + exists found, gone. split; [exact Hsplit|].
      split; [exact Hfound | exact Hgone].
Defined.

(** C1 as stated fails in the Prometheus agent.  With a monitored
    directory and one of its files both configured as roots, the file
    is looked at twice and its modification is recorded twice; and a
    path of the baseline that is present but unreadable, which a
    current snapshot would lack, gets no DELETED record. *)
Lemma prometheus_scan_repeats_and_omits :
  (dict_wf Sample.baseline /\
   fst (Prometheus.scan_files_detect Cases.overlap_env Sample.world) =
     Ok (Sample.baseline,
         [mkChange MODIFIED "/data/a.txt" None (Some "h1") (Some "h1x") "t0";
          mkChange NEW "/data/d.txt" (Some "h4") None None "t1";
          mkChange MODIFIED "/data/a.txt" None (Some "h1") (Some "h1x") "t2";
          mkChange DELETED "/data/c.txt" None None None "t3"]) /\
   records_for "/data/a.txt"
     (snd (match fst (Prometheus.scan_files_detect Cases.overlap_env Sample.world)
           with Ok r => r | Raise _ => ([], []) end)) =
     [mkChange MODIFIED "/data/a.txt" None (Some "h1") (Some "h1x") "t0";
      mkChange MODIFIED "/data/a.txt" None (Some "h1") (Some "h1x") "t2"]) /\
  (dict_mem "/data/a.txt" Sample.baseline = true /\
   fs_digest (fs Sample.unreadable_env) "/data/a.txt" = None /\
   fst (Prometheus.scan_files_detect Sample.unreadable_env Sample.world) =
     Ok (Sample.baseline,
         [mkChange NEW "/data/d.txt" (Some "h4") None None "t0";
          mkChange DELETED "/data/c.txt" None None None "t1"])).
Proof.
  split; [split; [wf_by_keys | split; vm_compute; reflexivity]|].
  repeat split; vm_compute; reflexivity.
Qed.
